(** * The process-management core of the kernel (src/proc.c)

    A shallow embedding of [proc.c]: the process table, the trap frame, the
    round-robin scheduler and the [fork]/[execv]/[exit]/[wait]/[sleep]
    system calls, written as state-passing functions over an explicit kernel
    state, followed by the properties the specification states about them. *)

From Stdlib Require Import ZArith Lia Bool String.
From stdpp Require Import base list.

Local Open Scope Z_scope.

(** ** Platform constants

    [proc.h], [pagealloc.h], [programs.h] and [kernel.h] are not part of the
    sources at hand, so the constants they define are parameters of the
    development: every definition below takes them from a [Platform]. *)

Record user_program_t := mk_user_program {
  prog_name : string;
  entry_point : Z
}.

Class Platform := {
  MAX_PROCS : Z;          (* capacity of the process table *)
  PAGE_SIZE : Z;          (* bytes per page *)
  HEAP_BASE : Z;          (* address of the first page of the allocator *)
  ONE_SECOND : Z;         (* timer ticks per second *)
  XLEN : Z;               (* width of regsize_t in bits *)
  REG_RA : nat;           (* indices into trap_frame_t.regs *)
  REG_SP : nat;
  REG_FP : nat;
  REG_A0 : nat;
  REG_A1 : nat;
  user_programs : list user_program_t
}.

(** What any sensible choice of the constants satisfies. *)
Record PlatformOk (P : Platform) : Prop := {
  max_procs_pos : 0 < MAX_PROCS;
  page_size_pos : 0 < PAGE_SIZE;
  heap_base_pos : 0 < HEAP_BASE;
  xlen_ge_32 : 32 <= XLEN;
  regs_in_range : Forall (fun r => (r < 32)%nat) [REG_RA; REG_SP; REG_FP; REG_A0; REG_A1];
  regs_distinct : NoDup [REG_RA; REG_SP; REG_FP; REG_A0; REG_A1]
}.

(** ** Data model *)

Inductive proc_state :=
  | PROC_STATE_AVAILABLE
  | PROC_STATE_READY
  | PROC_STATE_RUNNING
  | PROC_STATE_SLEEPING.

Definition proc_state_eqb (a b : proc_state) : bool :=
  match a, b with
  | PROC_STATE_AVAILABLE, PROC_STATE_AVAILABLE
  | PROC_STATE_READY, PROC_STATE_READY
  | PROC_STATE_RUNNING, PROC_STATE_RUNNING
  | PROC_STATE_SLEEPING, PROC_STATE_SLEEPING => true
  | _, _ => false
  end.

(** [trap_frame_t]: the array [regs[32]] and the saved [pc]. *)
Record trap_frame_t := mk_trap_frame {
  regs : list Z;
  pc : Z
}.

(** [process_t].  A [process_t*] into the table is the index of the slot;
    the null pointer is [None].  A [void*] is an address, null is [0]. *)
Record process_t := mk_process {
  pid : Z;
  state : proc_state;
  name : string;
  parent : option Z;
  context : trap_frame_t;
  stack_page : Z;
  wakeup_time : Z;
  lock : bool
}.

(** [proc_table_t]. *)
Record proc_table_t := mk_proc_table {
  table_lock : bool;
  procs : list process_t;
  curr_proc : Z;
  pid_counter : Z;
  num_procs : Z;
  is_idle : bool
}.

(** Calls into the hart (CSR and timer primitives of [kernel.h]) leave the
    modelled state alone; they are recorded in the order they happen. *)
Inductive hart_event :=
  | EvSetTimerAfterTick
  | EvEnableInterrupts
  | EvParkHart
  | EvSetUserMode.

(** The kernel state: the two globals of [proc.c], the page allocator's
    bitmap ([true] is a page in use), the machine's memory as bytes, and the
    reading of the monotonic timer. *)
Record kstate := mk_kstate {
  proc_table : proc_table_t;
  trap_frame : trap_frame_t;
  page_bitmap : list bool;
  memory : Z -> Z;
  mtime : Z;
  hart_log : list hart_event
}.

(** *** Field updates *)

Definition set_regs (v : list Z) (t : trap_frame_t) : trap_frame_t :=
  mk_trap_frame v (pc t).
Definition set_pc (v : Z) (t : trap_frame_t) : trap_frame_t :=
  mk_trap_frame (regs t) v.
Definition set_reg (i : nat) (v : Z) (t : trap_frame_t) : trap_frame_t :=
  set_regs (<[i := v]> (regs t)) t.

Definition set_pid (v : Z) (p : process_t) : process_t :=
  mk_process v (state p) (name p) (parent p) (context p) (stack_page p) (wakeup_time p) (lock p).
Definition set_state (v : proc_state) (p : process_t) : process_t :=
  mk_process (pid p) v (name p) (parent p) (context p) (stack_page p) (wakeup_time p) (lock p).
Definition set_name (v : string) (p : process_t) : process_t :=
  mk_process (pid p) (state p) v (parent p) (context p) (stack_page p) (wakeup_time p) (lock p).
Definition set_parent (v : option Z) (p : process_t) : process_t :=
  mk_process (pid p) (state p) (name p) v (context p) (stack_page p) (wakeup_time p) (lock p).
Definition set_context (v : trap_frame_t) (p : process_t) : process_t :=
  mk_process (pid p) (state p) (name p) (parent p) v (stack_page p) (wakeup_time p) (lock p).
Definition set_stack_page (v : Z) (p : process_t) : process_t :=
  mk_process (pid p) (state p) (name p) (parent p) (context p) v (wakeup_time p) (lock p).
Definition set_wakeup_time (v : Z) (p : process_t) : process_t :=
  mk_process (pid p) (state p) (name p) (parent p) (context p) (stack_page p) v (lock p).
Definition set_lock (v : bool) (p : process_t) : process_t :=
  mk_process (pid p) (state p) (name p) (parent p) (context p) (stack_page p) (wakeup_time p) v.

Definition set_table_lock (v : bool) (t : proc_table_t) : proc_table_t :=
  mk_proc_table v (procs t) (curr_proc t) (pid_counter t) (num_procs t) (is_idle t).
Definition set_procs (v : list process_t) (t : proc_table_t) : proc_table_t :=
  mk_proc_table (table_lock t) v (curr_proc t) (pid_counter t) (num_procs t) (is_idle t).
Definition set_curr_proc (v : Z) (t : proc_table_t) : proc_table_t :=
  mk_proc_table (table_lock t) (procs t) v (pid_counter t) (num_procs t) (is_idle t).
Definition set_pid_counter (v : Z) (t : proc_table_t) : proc_table_t :=
  mk_proc_table (table_lock t) (procs t) (curr_proc t) v (num_procs t) (is_idle t).
Definition set_num_procs (v : Z) (t : proc_table_t) : proc_table_t :=
  mk_proc_table (table_lock t) (procs t) (curr_proc t) (pid_counter t) v (is_idle t).
Definition set_is_idle (v : bool) (t : proc_table_t) : proc_table_t :=
  mk_proc_table (table_lock t) (procs t) (curr_proc t) (pid_counter t) (num_procs t) v.

Definition set_proc_table (v : proc_table_t) (s : kstate) : kstate :=
  mk_kstate v (trap_frame s) (page_bitmap s) (memory s) (mtime s) (hart_log s).
Definition set_trap_frame (v : trap_frame_t) (s : kstate) : kstate :=
  mk_kstate (proc_table s) v (page_bitmap s) (memory s) (mtime s) (hart_log s).
Definition set_page_bitmap (v : list bool) (s : kstate) : kstate :=
  mk_kstate (proc_table s) (trap_frame s) v (memory s) (mtime s) (hart_log s).
Definition set_memory (v : Z -> Z) (s : kstate) : kstate :=
  mk_kstate (proc_table s) (trap_frame s) (page_bitmap s) v (mtime s) (hart_log s).
Definition set_mtime (v : Z) (s : kstate) : kstate :=
  mk_kstate (proc_table s) (trap_frame s) (page_bitmap s) (memory s) v (hart_log s).
Definition set_hart_log (v : list hart_event) (s : kstate) : kstate :=
  mk_kstate (proc_table s) (trap_frame s) (page_bitmap s) (memory s) (mtime s) v.

(** *** Fixed-width integers *)

Definition wrap32 (z : Z) : Z := z mod 2 ^ 32.
Definition wrap64 (z : Z) : Z := z mod 2 ^ 64.

(** ** The kernel monad

    A kernel routine either returns a value and a new state, or dereferences
    a pointer that does not point into the table ([Fault]), or spins on a
    lock that is already held ([Deadlock]: there is one hart, nobody else
    can release it), or loops without end ([Diverge]). *)

Inductive outcome (A : Type) :=
  | Ok (a : A) (s : kstate)
  | Fault
  | Deadlock
  | Diverge.
Arguments Ok {A} a s.
Arguments Fault {A}.
Arguments Deadlock {A}.
Arguments Diverge {A}.

Definition K (A : Type) := kstate -> outcome A.

Definition ret {A} (a : A) : K A := fun s => Ok a s.

Definition bind {A B} (m : K A) (f : A -> K B) : K B :=
  fun s =>
    match m s with
    | Ok a s' => f a s'
    | Fault => Fault
    | Deadlock => Deadlock
    | Diverge => Diverge
    end.

Declare Scope kernel_scope.
Delimit Scope kernel_scope with kernel.
Notation "x <- m ;; k" := (bind m (fun x => k))
  (at level 100, m at next level, right associativity) : kernel_scope.
Notation "m ;; k" := (bind m (fun _ => k))
  (at level 100, right associativity) : kernel_scope.
Local Open Scope kernel_scope.

Definition get {A} (f : kstate -> A) : K A := fun s => Ok (f s) s.
Definition modify (f : kstate -> kstate) : K unit := fun s => Ok tt (f s).
Definition fault {A} : K A := fun _ => Fault.

Definition modify_table (f : proc_table_t -> proc_table_t) : K unit :=
  modify (fun s => set_proc_table (f (proc_table s)) s).

Definition hart_call (e : hart_event) : K unit :=
  modify (fun s => set_hart_log (hart_log s ++ [e]) s).

(** [*p] for a [process_t* p = &procs[i]]: outside the array the access is
    not defined. *)
Definition deref (i : Z) : K process_t :=
  fun s =>
    if i <? 0 then Fault
    else match procs (proc_table s) !! Z.to_nat i with
         | Some p => Ok p s
         | None => Fault
         end.

(** An assignment through [p = &procs[i]]. *)
Definition modify_proc (i : Z) (f : process_t -> process_t) : K unit :=
  p <- deref i ;;
  modify_table (fun t => set_procs (<[Z.to_nat i := f p]> (procs t)) t).

Section Kernel.

Context {P : Platform}.

Definition to_regsize (z : Z) : Z := z mod 2 ^ XLEN.

Definition get_reg (i : nat) (t : trap_frame_t) : Z := default 0 (regs t !! i).

(** ** Collaborators of [proc.c] *)

(** Modelled from the spec: [acquire] and [release] of [kernel.h] are not in
    the sources.  A lock is a mutual-exclusion token (section 3): [acquire]
    takes a free lock and waits for a held one, which on the single hart of
    this kernel (section 5) never ends; [release] frees it. *)
Definition acquire_table : K unit :=
  fun s =>
    if table_lock (proc_table s) then Deadlock
    else Ok tt (set_proc_table (set_table_lock true (proc_table s)) s).

Definition release_table : K unit := modify_table (set_table_lock false).

Definition acquire (i : Z) : K unit :=
  p <- deref i ;;
  if lock p then (fun _ => Deadlock) else modify_proc i (set_lock true).

Definition release (i : Z) : K unit := modify_proc i (set_lock false).

(** Modelled from the spec: [time_get_now] is not in the sources; it reads
    the monotonic timer.  The timer does not advance while a kernel routine
    runs; it advances between kernel entries ([advance_time]). *)
Definition time_get_now : K Z := get mtime.

Definition advance_time (d : Z) (s : kstate) : kstate := set_mtime (mtime s + d) s.

(** Modelled from the spec: the page allocator of [pagealloc.h] is not in the
    sources.  Section 4.1: a bitmap over fixed-size frames from [HEAP_BASE];
    [allocate_page] returns the address of a free frame (first fit) or null,
    [release_page] marks a frame free. *)
Fixpoint first_free (bm : list bool) : option nat :=
  match bm with
  | [] => None
  | b :: rest => if b then S <$> first_free rest else Some O
  end.

Definition page_addr (i : nat) : Z := HEAP_BASE + Z.of_nat i * PAGE_SIZE.

Definition page_index (p : Z) : nat := Z.to_nat ((p - HEAP_BASE) / PAGE_SIZE).

(** Modelled from the spec: [allocate_page] returns the address of the first
    free frame and marks it in use, or returns null if none is free. *)
Definition allocate_page : K Z :=
  fun s =>
    match first_free (page_bitmap s) with
    | Some i => Ok (page_addr i) (set_page_bitmap (<[i := true]> (page_bitmap s)) s)
    | None => Ok 0 s
    end.

Definition clear_bit (p : Z) (bm : list bool) : list bool :=
  if HEAP_BASE <=? p then <[page_index p := false]> bm else bm.

Definition mark_free (p : Z) (s : kstate) : kstate :=
  set_page_bitmap (clear_bit p (page_bitmap s)) s.

(** Modelled from the spec: [release_page] marks the frame of [p] free. *)
Definition release_page (p : Z) : K unit := modify (mark_free p).

Fixpoint count_free (bm : list bool) : Z :=
  match bm with
  | [] => 0
  | b :: rest => (if b then 0 else 1) + count_free rest
  end.

(** [freeram] of [sysinfo_t]: the number of free pages. *)
Definition freeram (s : kstate) : Z := count_free (page_bitmap s).

(** Modelled from the spec: [copy_page] is not in the sources; it copies one
    page byte for byte (section 4.5). *)
Definition copy_bytes (dst src : Z) (s : kstate) : kstate :=
  set_memory (fun a =>
    if (dst <=? a) && (a <? dst + PAGE_SIZE)
    then memory s (src + (a - dst))
    else memory s a) s.

Definition copy_page (dst src : Z) : K unit := modify (copy_bytes dst src).

(** Modelled from the spec: [find_user_program] of [programs.h] is not in the
    sources; it resolves a name in the static table of programs by exact
    match (section 6). *)
Definition find_user_program (filename : string) : option user_program_t :=
  find (fun pr => String.eqb (prog_name pr) filename) user_programs.

(** ** [proc.c] *)

(** [copy_context]: the loop over the 32 registers. *)
Definition copy_context (dst src : trap_frame_t) : trap_frame_t :=
  fold_left (fun d i => set_reg i (get_reg i src) d) (seq 0 32) dst.

Definition should_wake_up (proc : Z) : K Z :=
  now <- time_get_now ;;
  p <- deref proc ;;
  if wakeup_time p <=? now then ret 1 else ret 0.

(** The [do ... while] loop of [find_ready_proc]; the result is the final
    value of [curr_proc] ([proc] is then [&procs[curr_proc]]).  [fuel] bounds
    the number of iterations. *)
Fixpoint find_ready_loop (fuel : nat) (orig_curr_proc curr_proc : Z) : K Z :=
  match fuel with
  | O => fun _ => Diverge
  | S fuel' =>
    let curr_proc := curr_proc + 1 in
    let curr_proc := if curr_proc >=? MAX_PROCS then 0 else curr_proc in
    let continue : K Z :=
      if negb (curr_proc =? orig_curr_proc)
      then find_ready_loop fuel' orig_curr_proc curr_proc
      else ret curr_proc in
    p <- deref curr_proc ;;
    if proc_state_eqb (state p) PROC_STATE_READY then ret curr_proc
    else if proc_state_eqb (state p) PROC_STATE_SLEEPING then
      w <- should_wake_up curr_proc ;;
      if negb (w =? 0) then
        modify_proc curr_proc (set_state PROC_STATE_READY) ;;
        ret curr_proc
      else continue
    else continue
  end.

(** After the first iteration [curr_proc] stays inside the table and the
    loop changes no slot before it leaves, so an iteration count of
    [MAX_PROCS] that has not met [orig_curr_proc] never will: the fuel
    [MAX_PROCS] runs out exactly when the loop of the source does not end. *)
Definition find_ready_proc (curr_proc : Z) : K (option Z) :=
  proc <- find_ready_loop (Z.to_nat MAX_PROCS) curr_proc curr_proc ;;
  modify_table (set_curr_proc proc) ;;
  p <- deref proc ;;
  if proc_state_eqb (state p) PROC_STATE_SLEEPING then ret None
  else ret (Some proc).

Definition schedule_user_process : K unit :=
  now <- time_get_now ;;
  acquire_table ;;
  t <- get proc_table ;;
  sel <- (if curr_proc t <? 0 then ret (0, None)
          else
            last_proc <- deref (curr_proc t) ;;
            if proc_state_eqb (state last_proc) PROC_STATE_AVAILABLE || is_idle t
            then ret (curr_proc t, None)
            else ret (curr_proc t, Some (curr_proc t))) ;;
  let curr_proc := fst sel in
  let last_proc : option Z := snd sel in
  if num_procs t =? 0 then release_table
  else
    proc <- find_ready_proc curr_proc ;;
    match proc with
    | None =>
      modify_table (set_is_idle true) ;;
      release_table ;;
      hart_call EvSetTimerAfterTick ;;
      hart_call EvEnableInterrupts ;;
      hart_call EvParkHart
    | Some proc =>
      acquire proc ;;
      modify_proc proc (set_state PROC_STATE_RUNNING) ;;
      (match last_proc with
       | None =>
         p <- deref proc ;;
         modify (fun s => set_trap_frame (copy_context (trap_frame s) (context p)) s)
       | Some last_proc =>
         lp <- deref last_proc ;;
         p <- deref proc ;;
         if negb (pid lp =? pid p) then
           acquire last_proc ;;
           tf <- get trap_frame ;;
           modify_proc last_proc (fun q => set_context (copy_context (context q) tf) q) ;;
           modify_proc last_proc (set_state PROC_STATE_READY) ;;
           release last_proc ;;
           p <- deref proc ;;
           modify (fun s => set_trap_frame (copy_context (trap_frame s) (context p)) s)
         else ret tt
       end) ;;
      release proc ;;
      modify_table (set_is_idle false) ;;
      release_table ;;
      hart_call EvSetUserMode
    end.

(** [pid_counter] is a [uint32_t], as the pids [alloc_pid] returns. *)
Definition alloc_pid : K Z :=
  acquire_table ;;
  t <- get proc_table ;;
  let pid := pid_counter t in
  modify_table (set_pid_counter (wrap32 (pid_counter t + 1))) ;;
  release_table ;;
  ret pid.

(** The [for] loop of [alloc_process], [n] iterations from index [i]. *)
Fixpoint alloc_process_loop (n : nat) (i : Z) : K (option Z) :=
  match n with
  | O => release_table ;; ret None
  | S n' =>
    t <- get proc_table ;;
    if i =? curr_proc t then alloc_process_loop n' (i + 1)
    else
      p <- deref i ;;
      if proc_state_eqb (state p) PROC_STATE_AVAILABLE then
        acquire i ;;
        modify_proc i (set_state PROC_STATE_READY) ;;
        modify_table (fun t => set_num_procs (num_procs t + 1) t) ;;
        release_table ;;
        ret (Some i)
      else alloc_process_loop n' (i + 1)
  end.

Definition alloc_process : K (option Z) :=
  acquire_table ;;
  alloc_process_loop (Z.to_nat MAX_PROCS) 0.

Definition current_proc : K (option Z) :=
  acquire_table ;;
  t <- get proc_table ;;
  if num_procs t =? 0 then ret None
  else
    release_table ;;
    ret (Some (curr_proc t)).

Definition proc_fork : K Z :=
  sp <- allocate_page ;;
  if sp =? 0 then ret (wrap32 (-1))
  else
    parent <- current_proc ;;
    match parent with
    | None =>
      release_page sp ;;
      ret (wrap32 (-1))
    | Some parent =>
      acquire parent ;;
      tf <- get trap_frame ;;
      modify_proc parent (fun p => set_context (set_pc (pc tf) (context p)) p) ;;
      modify_proc parent (fun p => set_context (copy_context (context p) tf) p) ;;
      child <- alloc_process ;;
      match child with
      | None =>
        release_page sp ;;
        release parent ;;
        ret (wrap32 (-1))
      | Some child =>
        new_pid <- alloc_pid ;;
        modify_proc child (set_pid new_pid) ;;
        modify_proc child (set_parent (Some parent)) ;;
        par <- deref parent ;;
        modify_proc child (fun c => set_context (set_pc (pc (context par)) (context c)) c) ;;
        modify_proc child (set_stack_page sp) ;;
        c <- deref child ;;
        par <- deref parent ;;
        copy_page (stack_page c) (stack_page par) ;;
        par <- deref parent ;;
        modify_proc child (fun c => set_context (copy_context (context c) (context par)) c) ;;
        par <- deref parent ;;
        let offset := to_regsize (get_reg REG_SP (context par) - to_regsize (stack_page par)) in
        modify_proc child (fun c =>
          set_context (set_reg REG_SP (to_regsize (sp + offset)) (context c)) c) ;;
        par <- deref parent ;;
        let offset := to_regsize (get_reg REG_FP (context par) - to_regsize (stack_page par)) in
        modify_proc child (fun c =>
          set_context (set_reg REG_FP (to_regsize (sp + offset)) (context c)) c) ;;
        modify_proc child (fun c => set_context (set_reg REG_A0 0 (context c)) c) ;;
        release parent ;;
        release child ;;
        c <- deref child ;;
        modify (fun s => set_trap_frame (set_reg REG_A0 (to_regsize (pid c)) (trap_frame s)) s) ;;
        c <- deref child ;;
        ret (pid c)
      end
    end.

(** [filename] is [None] for the null pointer, else the string it points to;
    [argv] is the address of the argument vector. *)
Definition proc_execv (filename : option string) (argv : Z) : K Z :=
  match filename with
  | None => ret (wrap32 (-1))
  | Some filename =>
    match find_user_program filename with
    | None => ret (wrap32 (-1))
    | Some program =>
      sp <- allocate_page ;;
      if sp =? 0 then ret (wrap32 (-1))
      else
        proc <- current_proc ;;
        match proc with
        | None => ret (wrap32 (-1))
        | Some proc =>
          acquire proc ;;
          modify_proc proc (fun p =>
            set_context (set_pc (to_regsize (entry_point program)) (context p)) p) ;;
          modify_proc proc (set_name (prog_name program)) ;;
          p <- deref proc ;;
          release_page (stack_page p) ;;
          modify_proc proc (set_stack_page sp) ;;
          modify_proc proc (fun p =>
            set_context (set_reg REG_RA (to_regsize (pc (context p))) (context p)) p) ;;
          modify_proc proc (fun p =>
            set_context (set_reg REG_SP (to_regsize (sp + PAGE_SIZE)) (context p)) p) ;;
          modify_proc proc (fun p =>
            set_context (set_reg REG_FP (to_regsize (sp + PAGE_SIZE)) (context p)) p) ;;
          modify_proc proc (fun p => set_context (set_reg REG_A0 7 (context p)) p) ;;
          modify_proc proc (fun p =>
            set_context (set_reg REG_A1 (to_regsize argv) (context p)) p) ;;
          p <- deref proc ;;
          modify (fun s => set_trap_frame (copy_context (trap_frame s) (context p)) s) ;;
          release proc ;;
          ret 0
        end
    end
  end.

(** [proc_exit] from [acquire(&proc->lock)] to the decrement of [num_procs]:
    all of it but the call of the scheduler. *)
Definition proc_exit_reap (proc : Z) : K unit :=
  acquire proc ;;
  p <- deref proc ;;
  release_page (stack_page p) ;;
  modify_proc proc (set_state PROC_STATE_AVAILABLE) ;;
  p <- deref proc ;;
  match parent p with
  | None => fault
  | Some par =>
    acquire par ;;
    modify_proc par (set_state PROC_STATE_READY) ;;
    release par ;;
    release proc ;;
    acquire_table ;;
    modify_table (fun t => set_num_procs (num_procs t - 1) t) ;;
    release_table
  end.

Definition proc_exit : K unit :=
  proc <- current_proc ;;
  match proc with
  | None => ret tt
  | Some proc =>
    proc_exit_reap proc ;;
    schedule_user_process
  end.

Definition wait_or_sleep (wakeup : Z) : K Z :=
  proc <- current_proc ;;
  match proc with
  | None => ret (-1)
  | Some proc =>
    acquire proc ;;
    modify_proc proc (set_state PROC_STATE_SLEEPING) ;;
    modify_proc proc (set_wakeup_time wakeup) ;;
    tf <- get trap_frame ;;
    modify_proc proc (fun p => set_context (copy_context (context p) tf) p) ;;
    release proc ;;
    schedule_user_process ;;
    ret 0
  end.

Definition proc_wait : K Z := wait_or_sleep 0.

Definition proc_sleep (milliseconds : Z) : K Z :=
  now <- time_get_now ;;
  let delta := wrap64 (ONE_SECOND / 1000 * milliseconds) in
  wait_or_sleep (wrap64 (now + delta)).

(** Modelled from the spec: [init_test_processes], which
    [init_process_table] calls last, is not in the sources; section 4.2 says
    only that it spawns the initial user processes, so it is a parameter
    here.  The rest is the code of [init_process_table]. *)
Definition init_process_table (init_test_processes : K unit) : K unit :=
  modify_table (set_curr_proc (-1)) ;;
  modify_table (set_pid_counter 0) ;;
  modify_table (set_is_idle true) ;;
  modify_table (fun t => set_procs (map (set_state PROC_STATE_AVAILABLE) (procs t)) t) ;;
  init_test_processes.

End Kernel.

(** * Properties *)

(** ** Predicates used in the statements *)

(** [wp m Q s]: from [s] the routine [m] returns, with a value and a state
    that satisfy [Q]. *)
Definition wp {A} (m : K A) (Q : A -> kstate -> Prop) (s : kstate) : Prop :=
  match m s with
  | Ok a s' => Q a s'
  | _ => False
  end.

(** [preserves f m]: whenever [m] returns, the component [f] of the state is
    what it was. *)
Definition preserves {X A} (f : kstate -> X) (m : K A) : Prop :=
  forall s a s', m s = Ok a s' -> f s' = f s.

(** Components of the state that no assignment to the process table
    touches. *)
Definition off_table {X} (f : kstate -> X) : Prop :=
  forall t s, f (set_proc_table t s) = f s.

(** The slot [procs[i]], if [i] is inside the table. *)
Definition slot (i : Z) (s : kstate) : option process_t :=
  if i <? 0 then None else procs (proc_table s) !! Z.to_nat i.

(** The state after an assignment to [procs[i]], and after an assignment to
    a field of [proc_table]. *)
Definition upd_slot (i : Z) (q : process_t) (s : kstate) : kstate :=
  set_proc_table (set_procs (<[Z.to_nat i := q]> (procs (proc_table s))) (proc_table s)) s.

Definition upd_table (f : proc_table_t -> proc_table_t) (s : kstate) : kstate :=
  set_proc_table (f (proc_table s)) s.

(** A register file has its 32 registers. *)
Definition frame_ok (t : trap_frame_t) : Prop := length (regs t) = 32%nat.

(** The [pc] held by the trap frame. *)
Definition trap_pc (s : kstate) : Z := pc (trap_frame s).

(** The predicate of the scheduler's scan: a slot is [READY], or [SLEEPING]
    with [wakeup_time <= now]. *)
Definition runnable (now : Z) (p : process_t) : bool :=
  proc_state_eqb (state p) PROC_STATE_READY
  || (proc_state_eqb (state p) PROC_STATE_SLEEPING && (wakeup_time p <=? now)).

(** [i] is the index of a slot of the table. *)
Definition valid (i : Z) (s : kstate) : Prop :=
  0 <= i /\ (Z.to_nat i < length (procs (proc_table s)))%nat.

Section Predicates.

Context {P : Platform}.

(** The index the scan of [find_ready_proc] looks at after [c]. *)
Definition next_index (c : Z) : Z := if c + 1 >=? MAX_PROCS then 0 else c + 1.

(** The number of slots the scan looks at from [c] until it has looked at
    [o] (all of them when [c = o]). *)
Definition scan_dist (c o : Z) : Z := if c <? o then o - c else o - c + MAX_PROCS.

(** [i] is one of the slots the scan looks at after [c], up to [o]. *)
Definition scanned (c o i : Z) : Prop :=
  0 <= i < MAX_PROCS /\ if c <? o then c < i <= o else c < i \/ i <= o.

(** The table has its [MAX_PROCS] slots. *)
Definition table_ok (s : kstate) : Prop :=
  length (procs (proc_table s)) = Z.to_nat MAX_PROCS.

(** No slot that [alloc_process] looks at is [AVAILABLE]: it skips the slot
    of [curr_proc]. *)
Definition table_full (s : kstate) : Prop :=
  forall j p, slot j s = Some p ->
    j = curr_proc (proc_table s) \/ state p <> PROC_STATE_AVAILABLE.

(** [c] is the slot [alloc_process] takes: the first [AVAILABLE] slot other
    than the one of [curr_proc]. *)
Definition first_available (s : kstate) (c : Z) : Prop :=
  c <> curr_proc (proc_table s) /\
  (exists p, slot c s = Some p /\ state p = PROC_STATE_AVAILABLE) /\
  forall j p, j < c -> slot j s = Some p ->
    j = curr_proc (proc_table s) \/ state p <> PROC_STATE_AVAILABLE.

(** [n] successive calls of [alloc_pid], and the pids they return. *)
Fixpoint alloc_pids (n : nat) : K (list Z) :=
  match n with
  | O => ret []
  | S n' =>
    pid <- alloc_pid ;;
    rest <- alloc_pids n' ;;
    ret (pid :: rest)
  end.

End Predicates.

(** ** The specification's [argc] *)

Section Argv.

Context {P : Platform}.

(** Follows the specification's words (section 9): [argc] is computed from
    the null-terminated [argv] vector.  A pointer is [XLEN / 8] bytes, least
    significant byte first. *)
Fixpoint load_bytes (n : nat) (mem : Z -> Z) (a : Z) : Z :=
  match n with
  | O => 0
  | S n' => mem a + 256 * load_bytes n' mem (a + 1)
  end.

Definition load_ptr (mem : Z -> Z) (a : Z) : Z := load_bytes (Z.to_nat (XLEN / 8)) mem a.

Fixpoint argc_of_argv (fuel : nat) (mem : Z -> Z) (argv : Z) : Z :=
  match fuel with
  | O => 0
  | S fuel' =>
    if load_ptr mem argv =? 0 then 0
    else 1 + argc_of_argv fuel' mem (argv + XLEN / 8)
  end.

End Argv.

(** ** A concrete platform and concrete tables

    The constants of a 64-bit target with four process slots, registers
    numbered as in the RISC-V calling convention, and the states on which
    the statements below are run. *)

Definition demo_platform : Platform := {|
  MAX_PROCS := 4;
  PAGE_SIZE := 4096;
  HEAP_BASE := 2148532224;
  ONE_SECOND := 10000000;
  XLEN := 64;
  REG_RA := 1;
  REG_SP := 2;
  REG_FP := 8;
  REG_A0 := 10;
  REG_A1 := 11;
  user_programs := [mk_user_program "shell" 2147487744; mk_user_program "hello" 2147491840]
|}.

Definition demo_frame (fill sp fp pc0 : Z) : trap_frame_t :=
  mk_trap_frame (<[2%nat := sp]> (<[8%nat := fp]> (replicate 32 fill))) pc0.

Definition empty_slot : process_t :=
  mk_process 0 PROC_STATE_AVAILABLE "" None (demo_frame 0 0 0 0) 0 0 false.

(** A process with [pid], state [st], parent [par], its stack in page number
    [page] of the allocator, and wake-up time [wk]. *)
Definition demo_proc (pid : Z) (st : proc_state) (par : option Z) (page wk : Z) : process_t :=
  let base := 2148532224 + page * 4096 in
  mk_process pid st "init" par (demo_frame (100 + pid) (base + 4000) (base + 4016) (2147487744 + pid))
             base wk false.

(** Memory: an argument vector of one argument at address 2149580800. *)
Definition demo_memory (a : Z) : Z :=
  if a =? 2149580801 then 1
  else if a =? 2149580802 then 32
  else if a =? 2149580803 then 128
  else 0.

Definition demo_argv : Z := 2149580800.

Definition demo_state (ps : list process_t) (curr pidc n : Z) (bm : list bool) (now : Z) : kstate :=
  mk_kstate (mk_proc_table false ps curr pidc n false)
            (demo_frame 55 (2148532224 + 3000) (2148532224 + 3016) 2147488000)
            bm demo_memory now [].

(** One process, running, in slot 0. *)
Definition one_running : kstate :=
  demo_state [demo_proc 1 PROC_STATE_RUNNING None 0 0; empty_slot; empty_slot; empty_slot]
             0 2 1 [true; false; false; false] 100.

(** A running process in slot 0 and its child, ready, in slot 1. *)
Definition two_procs : kstate :=
  demo_state [demo_proc 1 PROC_STATE_RUNNING None 0 0;
              demo_proc 2 PROC_STATE_READY (Some 0) 1 0; empty_slot; empty_slot]
             0 3 2 [true; true; false; false] 100.

(** A parent in a timed sleep in slot 0 and its child, running, in slot 1. *)
Definition child_running : kstate :=
  demo_state [demo_proc 1 PROC_STATE_SLEEPING None 0 10000100;
              demo_proc 2 PROC_STATE_RUNNING (Some 0) 1 0; empty_slot; empty_slot]
             1 3 2 [true; true; false; false] 100.

(** Every slot taken. *)
Definition full_table : kstate :=
  demo_state [demo_proc 1 PROC_STATE_RUNNING None 0 0;
              demo_proc 2 PROC_STATE_READY (Some 0) 1 0;
              demo_proc 3 PROC_STATE_READY (Some 0) 2 0;
              demo_proc 4 PROC_STATE_SLEEPING (Some 0) 3 10000100]
             0 5 4 [true; true; true; true; false; false] 100.

(** The table as it is when the pid counter is about to wrap around. *)
Definition last_pid : kstate :=
  demo_state [demo_proc 1 PROC_STATE_RUNNING None 0 0; empty_slot; empty_slot; empty_slot]
             0 4294967295 1 [true; false; false; false] 100.

(** The table after boot when the counter has issued no pid yet. *)
Definition first_pid : kstate :=
  demo_state [demo_proc 0 PROC_STATE_RUNNING None 0 0; empty_slot; empty_slot; empty_slot]
             0 0 1 [true; false; false; false] 100.

(** The process of slot 0 has just exited; the one of slot 1 is in a timed
    sleep. *)
Definition exited_with_sleeper : kstate :=
  demo_state [demo_proc 1 PROC_STATE_AVAILABLE None 0 0;
              demo_proc 2 PROC_STATE_SLEEPING (Some 0) 1 10000100; empty_slot; empty_slot]
             0 3 1 [false; true; false; false] 100.


(** The table before any process exists. *)
Definition no_procs : kstate :=
  demo_state [empty_slot; empty_slot; empty_slot; empty_slot]
             (-1) 0 0 [false; false; false; false] 100.

(** One process, in a timed sleep, in the slot of [curr_proc]. *)
Definition sleeper_only : kstate :=
  demo_state [demo_proc 1 PROC_STATE_SLEEPING None 0 10000100; empty_slot; empty_slot; empty_slot]
             0 2 1 [true; false; false; false] 100.

(** The table at the first timer tick: one process, ready, in slot 0, and
    [curr_proc] still -1. *)
Definition first_tick : kstate :=
  demo_state [demo_proc 1 PROC_STATE_READY None 0 0; empty_slot; empty_slot; empty_slot]
             (-1) 2 1 [true; false; false; false] 100.
(** ** Predicates of the further properties *)

(** No slot lock is held. *)
Definition locks_free (s : kstate) : Prop :=
  forall i p, slot i s = Some p -> lock p = false.

(** The fields of a slot that only [fork], [execv] and [sleep] write. *)
Definition slot_fixed (p : process_t) : Z * string * option Z * Z * Z :=
  (pid p, name p, parent p, stack_page p, wakeup_time p).

(** What the scheduler has no business with: those fields of every slot, the
    counters of the table, the allocator, the memory and the clock. *)
Definition outside_scheduler (s : kstate)
  : list (Z * string * option Z * Z * Z) * Z * Z * list bool * (Z -> Z) * Z :=
  (map slot_fixed (procs (proc_table s)),
   pid_counter (proc_table s), num_procs (proc_table s),
   page_bitmap s, memory s, mtime s).

(** [ensures Q m]: whenever [m] returns, the state satisfies [Q]. *)
Definition ensures {A} (Q : kstate -> Prop) (m : K A) : Prop :=
  forall s a s', m s = Ok a s' -> Q s'.

(** At most one slot is [RUNNING]: the slot of [curr_proc], and only when
    the hart is not idle. *)
Definition one_running_inv (s : kstate) : Prop :=
  forall i p, slot i s = Some p -> state p = PROC_STATE_RUNNING ->
    i = curr_proc (proc_table s) /\ is_idle (proc_table s) = false.

(** Slots in use have different pids. *)
Definition pids_distinct (s : kstate) : Prop :=
  forall i j p q, i <> j -> slot i s = Some p -> slot j s = Some q ->
    state p <> PROC_STATE_AVAILABLE -> state q <> PROC_STATE_AVAILABLE ->
    pid p <> pid q.

(** No slot is [READY], or [SLEEPING] with its wake-up time reached. *)
Definition none_runnable (s : kstate) : Prop :=
  forall i p, slot i s = Some p -> runnable (mtime s) p = false.

(** The index from which the scheduler scans: [curr_proc], or 0 on the first
    call, when [curr_proc] is still -1. *)
Definition scan_start (s : kstate) : Z :=
  if curr_proc (proc_table s) <? 0 then 0 else curr_proc (proc_table s).

(** The scheduler has no process to save ([last_proc == 0]): it is the first
    call, or the slot of [curr_proc] is [AVAILABLE], or the hart was idle. *)
Definition no_outgoing (s : kstate) : Prop :=
  curr_proc (proc_table s) < 0 \/
  exists p, slot (curr_proc (proc_table s)) s = Some p /\
    (state p = PROC_STATE_AVAILABLE \/ is_idle (proc_table s) = true).

(** [p] is the process the scheduler has to save ([last_proc]). *)
Definition outgoing (s : kstate) (p : process_t) : Prop :=
  slot (curr_proc (proc_table s)) s = Some p /\
  state p <> PROC_STATE_AVAILABLE /\ is_idle (proc_table s) = false.

(** The ways [schedule_user_process] ends, from [s] to [s']: nothing to
    schedule; nothing ready, the hart is parked; or slot [j] is elected,
    with no process to save, with the outgoing process saved, or with the
    trap frame left as it is because the pids are the same. *)
Definition sched_elected (s s' : kstate) (j : Z) (pj : process_t) : Prop :=
  (no_outgoing s /\
   (forall i, i <> j -> slot i s' = slot i s) /\
   trap_frame s' = copy_context (trap_frame s) (context pj)) \/
  (exists pc, outgoing s pc /\ curr_proc (proc_table s) <> j /\ pid pc <> pid pj /\
     slot (curr_proc (proc_table s)) s'
       = Some (set_state PROC_STATE_READY
                 (set_context (copy_context (context pc) (trap_frame s)) pc)) /\
     (forall i, i <> j -> i <> curr_proc (proc_table s) -> slot i s' = slot i s) /\
     trap_frame s' = copy_context (trap_frame s) (context pj)) \/
  (exists pc, outgoing s pc /\ pid pc = pid pj /\
     (forall i, i <> j -> slot i s' = slot i s) /\
     trap_frame s' = trap_frame s).

Definition sched_post (s s' : kstate) : Prop :=
  (num_procs (proc_table s) = 0 /\ s' = s) \/
  (num_procs (proc_table s) <> 0 /\
   exists p0, slot (scan_start s) s = Some p0 /\ state p0 = PROC_STATE_SLEEPING /\
     none_runnable s /\
     procs (proc_table s') = procs (proc_table s) /\
     trap_frame s' = trap_frame s /\
     is_idle (proc_table s') = true /\
     curr_proc (proc_table s') = scan_start s /\
     hart_log s' = hart_log s ++ [EvSetTimerAfterTick; EvEnableInterrupts; EvParkHart]) \/
  (num_procs (proc_table s) <> 0 /\
   exists j pj, slot j s = Some pj /\
     (runnable (mtime s) pj = true \/
      (j = scan_start s /\ state pj <> PROC_STATE_SLEEPING /\ none_runnable s)) /\
     slot j s' = Some (set_state PROC_STATE_RUNNING pj) /\
     curr_proc (proc_table s') = j /\
     is_idle (proc_table s') = false /\
     hart_log s' = hart_log s ++ [EvSetUserMode] /\
     sched_elected s s' j pj).


Section EntryPredicates.

Context {P : Platform}.

(** The state in which the scheduler is entered: the table has its slots,
    no lock is held, and [curr_proc] is -1 or the index of a slot. *)
Definition sched_entry (s : kstate) : Prop :=
  table_ok s /\ 0 < MAX_PROCS /\
  table_lock (proc_table s) = false /\ locks_free s /\
  curr_proc (proc_table s) < MAX_PROCS.

End EntryPredicates.

(** The slot of the caller as [wait_or_sleep] leaves it for the scheduler:
    [SLEEPING], with the wake-up time, and with the registers of the trap
    frame [tf] saved in its context. *)
Definition put_to_sleep (wakeup : Z) (tf : trap_frame_t) (p : process_t) : process_t :=
  set_context (copy_context (context p) tf)
    (set_wakeup_time wakeup (set_state PROC_STATE_SLEEPING p)).

(** Every pid of a slot in use was issued by the counter: it is below
    [pid_counter]. *)
Definition pids_issued (s : kstate) : Prop :=
  forall i p, slot i s = Some p -> state p <> PROC_STATE_AVAILABLE ->
    0 <= pid p < pid_counter (proc_table s).
(** ** Reasoning about kernel routines *)

Lemma wp_ok {A} (m : K A) Q s :
  wp m Q s <-> exists a s', m s = Ok a s' /\ Q a s'.
Proof.
  unfold wp. split.
  - destruct (m s) as [a s'| | |]; try tauto. eauto.
  - intros (a & s' & -> & HQ). exact HQ.
Qed.

Lemma wp_ret {A} (a : A) (Q : A -> kstate -> Prop) s : Q a s -> wp (ret a) Q s.
Proof. exact (fun H => H). Qed.

Lemma wp_bind {A B} (m : K A) (k : A -> K B) Q s :
  wp m (fun a s' => wp (k a) Q s') s -> wp (bind m k) Q s.
Proof. unfold wp, bind. destruct (m s); tauto. Qed.

Lemma wp_step {A B} (m : K A) (k : A -> K B) Q s a s1 :
  m s = Ok a s1 -> wp (k a) Q s1 -> wp (bind m k) Q s.
Proof. intros Hm Hk. apply wp_bind. unfold wp at 1. rewrite Hm. exact Hk. Qed.

Lemma bind_eq {A B} (m : K A) (k : A -> K B) s a s1 :
  m s = Ok a s1 -> bind m k s = k a s1.
Proof. unfold bind. now intros ->. Qed.

Lemma preserves_ret {X A} (f : kstate -> X) (a : A) : preserves f (ret a).
Proof. intros s a' s' H. inversion H. reflexivity. Qed.

Lemma preserves_bind {X A B} (f : kstate -> X) (m : K A) (k : A -> K B) :
  preserves f m -> (forall a, preserves f (k a)) -> preserves f (bind m k).
Proof.
  intros Hm Hk s b s' H. unfold bind in H.
  destruct (m s) as [a s1| | |] eqn:E; try discriminate.
  rewrite (Hk a _ _ _ H). exact (Hm _ _ _ E).
Qed.

Lemma preserves_get {X A} (f : kstate -> X) (g : kstate -> A) : preserves f (get g).
Proof. intros s a s' H. inversion H. reflexivity. Qed.

Lemma preserves_modify {X} (f : kstate -> X) (g : kstate -> kstate) :
  (forall s, f (g s) = f s) -> preserves f (modify g).
Proof. intros Hg s a s' H. inversion H. apply Hg. Qed.

Lemma preserves_fail {X A} (f : kstate -> X) (o : outcome A) :
  (forall a s, o <> Ok a s) -> preserves f (fun _ => o).
Proof. intros Ho s a s' H. exfalso. exact (Ho _ _ H). Qed.

Lemma preserves_if {X A} (f : kstate -> X) (b : bool) (m1 m2 : K A) :
  preserves f m1 -> preserves f m2 -> preserves f (if b then m1 else m2).
Proof. destruct b; auto. Qed.

Lemma preserves_deref {X} (f : kstate -> X) i : preserves f (deref i).
Proof.
  intros s a s' H. unfold deref in H.
  destruct (i <? 0); try discriminate.
  destruct (procs (proc_table s) !! Z.to_nat i); inversion H. reflexivity.
Qed.

Lemma preserves_modify_table {X} (f : kstate -> X) g :
  off_table f -> preserves f (modify_table g).
Proof. intros Hf. apply preserves_modify. intros s. apply Hf. Qed.

Lemma preserves_modify_proc {X} (f : kstate -> X) i g :
  off_table f -> preserves f (modify_proc i g).
Proof.
  intros Hf. apply preserves_bind.
  - apply preserves_deref.
  - intros p. now apply preserves_modify_table.
Qed.

Section KernelFacts.

Context {P : Platform}.

Lemma preserves_acquire_table {X} (f : kstate -> X) :
  off_table f -> preserves f acquire_table.
Proof.
  intros Hf s a s' H. unfold acquire_table in H.
  destruct (table_lock (proc_table s)); inversion H. apply Hf.
Qed.

Lemma preserves_release_table {X} (f : kstate -> X) :
  off_table f -> preserves f release_table.
Proof. intros Hf. now apply preserves_modify_table. Qed.

Lemma preserves_acquire {X} (f : kstate -> X) i :
  off_table f -> preserves f (acquire i).
Proof.
  intros Hf. apply preserves_bind.
  - apply preserves_deref.
  - intros p. destruct (lock p).
    + apply preserves_fail. discriminate.
    + now apply preserves_modify_proc.
Qed.

Lemma preserves_release {X} (f : kstate -> X) i :
  off_table f -> preserves f (release i).
Proof. intros Hf. now apply preserves_modify_proc. Qed.

Lemma preserves_should_wake_up {X} (f : kstate -> X) i :
  preserves f (should_wake_up i).
Proof.
  apply preserves_bind; [apply preserves_get|]. intros now.
  apply preserves_bind; [apply preserves_deref|]. intros p.
  apply preserves_if; apply preserves_ret.
Qed.

Lemma preserves_find_ready_loop {X} (f : kstate -> X) fuel orig curr :
  off_table f -> preserves f (find_ready_loop fuel orig curr).
Proof.
  intros Hf. revert curr. induction fuel as [|fuel IH]; intros curr; simpl.
  - apply preserves_fail. discriminate.
  - set (c := if curr + 1 >=? MAX_PROCS then 0 else curr + 1).
    assert (Hcont : preserves f
      (if negb (c =? orig) then find_ready_loop fuel orig c else ret c)).
    { apply preserves_if; [apply IH | apply preserves_ret]. }
    apply preserves_bind; [apply preserves_deref|]. intros p.
    apply preserves_if; [apply preserves_ret|].
    apply preserves_if; [|exact Hcont].
    apply preserves_bind; [apply preserves_should_wake_up|]. intros w.
    apply preserves_if; [|exact Hcont].
    apply preserves_bind; [now apply preserves_modify_proc|]. intros _.
    apply preserves_ret.
Qed.

Lemma preserves_find_ready_proc {X} (f : kstate -> X) curr :
  off_table f -> preserves f (find_ready_proc curr).
Proof.
  intros Hf. unfold find_ready_proc.
  apply preserves_bind; [now apply preserves_find_ready_loop|]. intros proc.
  apply preserves_bind; [now apply preserves_modify_table|]. intros _.
  apply preserves_bind; [apply preserves_deref|]. intros p.
  apply preserves_if; apply preserves_ret.
Qed.

Lemma preserves_current_proc {X} (f : kstate -> X) :
  off_table f -> preserves f current_proc.
Proof.
  intros Hf. unfold current_proc.
  apply preserves_bind; [now apply preserves_acquire_table|]. intros _.
  apply preserves_bind; [apply preserves_get|]. intros t.
  apply preserves_if; [apply preserves_ret|].
  apply preserves_bind; [now apply preserves_release_table|]. intros _.
  apply preserves_ret.
Qed.

(** *** [copy_context] *)

Lemma copy_context_fold_pc (src : trap_frame_t) l dst :
  pc (fold_left (fun d i => set_reg i (get_reg i src) d) l dst) = pc dst.
Proof.
  revert dst. induction l as [|i l IH]; intros dst; simpl; [reflexivity|].
  now rewrite IH.
Qed.

Lemma copy_context_pc dst src : pc (copy_context dst src) = pc dst.
Proof. apply copy_context_fold_pc. Qed.

Lemma copy_context_regs_get dst src :
  frame_ok dst ->
  regs (copy_context dst src) = map (fun i => get_reg i src) (seq 0 32).
Proof.
  destruct dst as [l p]. unfold frame_ok. cbn [regs]. intros Hl.
  do 32 (destruct l as [|? l]; [discriminate Hl|]).
  destruct l; [reflexivity | discriminate Hl].
Qed.

(** *** Slots of the table *)

Lemma deref_slot i s :
  deref i s = match slot i s with Some p => Ok p s | None => Fault end.
Proof. unfold deref, slot. destruct (i <? 0); reflexivity. Qed.

Lemma deref_eq i s p : slot i s = Some p -> deref i s = Ok p s.
Proof. intros H. now rewrite deref_slot, H. Qed.

Lemma slot_nonneg i s p : slot i s = Some p -> 0 <= i.
Proof. unfold slot. destruct (i <? 0) eqn:E; [discriminate | lia]. Qed.

Lemma slot_lt_length i s p :
  slot i s = Some p -> (Z.to_nat i < length (procs (proc_table s)))%nat.
Proof.
  unfold slot. destruct (i <? 0); [discriminate|]. apply lookup_lt_Some.
Qed.

Lemma slot_in_range i s :
  0 <= i -> (Z.to_nat i < length (procs (proc_table s)))%nat ->
  is_Some (slot i s).
Proof.
  intros Hi Hl. unfold slot. destruct (i <? 0) eqn:E; [lia|].
  now apply lookup_lt_is_Some_2.
Qed.

Lemma slot_upd_eq i q s p : slot i s = Some p -> slot i (upd_slot i q s) = Some q.
Proof.
  intros H. pose proof (slot_lt_length _ _ _ H) as Hl.
  unfold slot in *. destruct (i <? 0); [discriminate|]. simpl.
  now apply list_lookup_insert_eq.
Qed.

Lemma slot_upd_ne i j q s : i <> j -> 0 <= i -> slot j (upd_slot i q s) = slot j s.
Proof.
  intros Hne Hi. unfold slot. destruct (j <? 0) eqn:E; [reflexivity|]. simpl.
  apply list_lookup_insert_ne. lia.
Qed.

Lemma slot_upd_table i f s :
  (forall t, procs (f t) = procs t) -> slot i (upd_table f s) = slot i s.
Proof. intros Hf. unfold slot, upd_table. simpl. now rewrite Hf. Qed.

Lemma length_upd_slot i q s :
  length (procs (proc_table (upd_slot i q s))) = length (procs (proc_table s)).
Proof. simpl. apply length_insert. Qed.

Lemma modify_proc_eq i f s p :
  slot i s = Some p -> modify_proc i f s = Ok tt (upd_slot i (f p) s).
Proof. intros H. unfold modify_proc. now rewrite (bind_eq _ _ _ _ _ (deref_eq _ _ _ H)). Qed.

Lemma acquire_eq i s p :
  slot i s = Some p -> lock p = false ->
  acquire i s = Ok tt (upd_slot i (set_lock true p) s).
Proof.
  intros H Hl. unfold acquire. rewrite (bind_eq _ _ _ _ _ (deref_eq _ _ _ H)), Hl.
  now apply modify_proc_eq.
Qed.

Lemma release_eq i s p :
  slot i s = Some p -> release i s = Ok tt (upd_slot i (set_lock false p) s).
Proof. apply modify_proc_eq. Qed.

Lemma acquire_table_eq s :
  table_lock (proc_table s) = false ->
  acquire_table s = Ok tt (upd_table (set_table_lock true) s).
Proof. intros H. unfold acquire_table. now rewrite H. Qed.

Lemma release_table_eq s : release_table s = Ok tt (upd_table (set_table_lock false) s).
Proof. reflexivity. Qed.

(** ** [current_proc] *)

Lemma current_proc_none s :
  table_lock (proc_table s) = false ->
  num_procs (proc_table s) = 0 ->
  current_proc s = Ok None (upd_table (set_table_lock true) s).
Proof.
  intros Hl Hn. unfold current_proc.
  rewrite (bind_eq _ _ _ _ _ (acquire_table_eq _ Hl)).
  unfold bind, get. cbn [proc_table upd_table set_proc_table set_table_lock num_procs].
  now rewrite Hn.
Qed.

Lemma current_proc_some s :
  table_lock (proc_table s) = false ->
  num_procs (proc_table s) <> 0 ->
  current_proc s = Ok (Some (curr_proc (proc_table s))) s.
Proof.
  intros Hl Hn. unfold current_proc.
  rewrite (bind_eq _ _ _ _ _ (acquire_table_eq _ Hl)).
  unfold bind at 1. unfold get.
  cbn [proc_table upd_table set_proc_table set_table_lock num_procs].
  apply Z.eqb_neq in Hn. rewrite Hn.
  destruct s as [[tl ps cp pc np idle] tf bm mem t lg]. simpl in *. now subst.
Qed.

(** C9: [current_proc] returns null exactly when [num_procs == 0]; on that
    path it returns with the table lock still held and has changed nothing
    else; on the other path it returns [&procs[curr_proc]], the table lock
    released and the state as it found it. *)
Theorem current_proc_null_iff_no_procs (s : kstate) :
  table_lock (proc_table s) = false ->
  exists r s',
    current_proc s = Ok r s' /\
    (r = None <-> num_procs (proc_table s) = 0) /\
    (num_procs (proc_table s) = 0 ->
       table_lock (proc_table s') = true /\
       s' = upd_table (set_table_lock true) s) /\
    (num_procs (proc_table s) <> 0 ->
       r = Some (curr_proc (proc_table s)) /\
       table_lock (proc_table s') = false /\
       s' = s).
Proof.
  intros Hl. destruct (Z.eq_dec (num_procs (proc_table s)) 0) as [E|E].
  - eexists _, _. split; [now apply current_proc_none|].
    repeat split; auto; intros; congruence.
  - eexists _, _. split; [now apply current_proc_some|].
    split; [split; [discriminate | contradiction]|].
    split; [contradiction|]. auto.
Qed.

(** ** Frame properties *)

Lemma preserves_allocate_page {X} (f : kstate -> X) :
  (forall v s, f (set_page_bitmap v s) = f s) -> preserves f allocate_page.
Proof.
  intros Hf s a s' H. unfold allocate_page in H.
  destruct (first_free (page_bitmap s)); inversion H; [apply Hf | reflexivity].
Qed.

Lemma preserves_release_page {X} (f : kstate -> X) p :
  (forall v s, f (set_page_bitmap v s) = f s) -> preserves f (release_page p).
Proof.
  intros Hf. apply preserves_modify. intros s. apply Hf.
Qed.

Lemma preserves_hart_call {X} (f : kstate -> X) e :
  (forall v s, f (set_hart_log v s) = f s) -> preserves f (hart_call e).
Proof. intros Hf. apply preserves_modify. intros s. apply Hf. Qed.

Lemma preserves_time_get_now {X} (f : kstate -> X) : preserves f time_get_now.
Proof. apply preserves_get. Qed.

Lemma preserves_fault {X A} (f : kstate -> X) : preserves f (@fault A).
Proof. apply preserves_fail. discriminate. Qed.

(** One step through a routine, by the shape of its head. *)
Ltac pres_step :=
  lazymatch goal with
  | |- preserves _ (bind _ _) => apply preserves_bind; [|intros ?]
  | |- preserves _ (ret _) => apply preserves_ret
  | |- preserves _ (get _) => apply preserves_get
  | |- preserves _ fault => apply preserves_fault
  | |- preserves _ time_get_now => apply preserves_time_get_now
  | |- preserves _ (deref _) => apply preserves_deref
  | |- preserves _ (modify_table _) => apply preserves_modify_table
  | |- preserves _ (modify_proc _ _) => apply preserves_modify_proc
  | |- preserves _ acquire_table => apply preserves_acquire_table
  | |- preserves _ release_table => apply preserves_release_table
  | |- preserves _ (acquire _) => apply preserves_acquire
  | |- preserves _ (release _) => apply preserves_release
  | |- preserves _ (hart_call _) => apply preserves_hart_call
  | |- preserves _ allocate_page => apply preserves_allocate_page
  | |- preserves _ (release_page _) => apply preserves_release_page
  | |- preserves _ (find_ready_proc _) => apply preserves_find_ready_proc
  | |- preserves _ current_proc => apply preserves_current_proc
  | |- preserves _ (if _ then _ else _) => apply preserves_if
  | |- preserves _ (match ?x with _ => _ end) => destruct x
  | |- preserves _ (modify _) => apply preserves_modify; intros ?
  | |- preserves _ (let _ := _ in _) => cbv zeta
  end.

Lemma schedule_user_process_trap_pc : preserves trap_pc schedule_user_process.
Proof.
  unfold schedule_user_process.
  repeat pres_step;
    try (intros ? ?; reflexivity);
    try (unfold trap_pc; cbn [trap_frame set_trap_frame]; apply copy_context_pc).
Qed.

Lemma proc_execv_trap_pc filename argv : preserves trap_pc (proc_execv filename argv).
Proof.
  unfold proc_execv.
  repeat pres_step;
    try (intros ? ?; reflexivity);
    try (unfold trap_pc; cbn [trap_frame set_trap_frame]; apply copy_context_pc).
Qed.

Lemma copy_context_reg dst src i :
  frame_ok dst -> (i < 32)%nat ->
  get_reg i (copy_context dst src) = get_reg i src.
Proof.
  intros Hd Hi. unfold get_reg at 1. rewrite (copy_context_regs_get _ _ Hd).
  rewrite list_lookup_fmap, lookup_seq_lt by exact Hi. reflexivity.
Qed.

Lemma copy_context_frame_ok dst src : frame_ok dst -> frame_ok (copy_context dst src).
Proof. intros Hd. unfold frame_ok. now rewrite (copy_context_regs_get _ _ Hd). Qed.

(** C8: [copy_context] copies the 32 general-purpose registers, no more, and
    leaves the [pc] of the destination as it was; so neither the context
    switch of [schedule_user_process] nor the update of the trap frame at the
    end of [proc_execv] changes the [pc] of the trap frame. *)
Theorem copy_context_leaves_pc :
  (forall dst src, pc (copy_context dst src) = pc dst) /\
  (forall dst src i, frame_ok dst -> (i < 32)%nat ->
     get_reg i (copy_context dst src) = get_reg i src) /\
  (forall dst src, frame_ok dst -> length (regs (copy_context dst src)) = 32%nat) /\
  (forall s s', schedule_user_process s = Ok tt s' ->
     pc (trap_frame s') = pc (trap_frame s)) /\
  (forall filename argv s r s', proc_execv filename argv s = Ok r s' ->
     pc (trap_frame s') = pc (trap_frame s)).
Proof.
  split; [exact copy_context_pc|].
  split; [exact copy_context_reg|].
  split; [exact copy_context_frame_ok|].
  split.
  - intros s s' H. exact (schedule_user_process_trap_pc _ _ _ H).
  - intros filename argv s r s' H. exact (proc_execv_trap_pc _ _ _ _ _ H).
Qed.

(** ** [find_ready_proc] *)

Lemma upd_slot_id i s p : slot i s = Some p -> upd_slot i p s = s.
Proof.
  unfold slot, upd_slot. destruct (i <? 0); [discriminate|]. intros H.
  rewrite (list_insert_id _ _ _ H).
  now destruct s as [[tl ps cp pc np idle] tf bm mem t lg].
Qed.

Lemma set_state_id st p : state p = st -> set_state st p = p.
Proof. intros <-. now destruct p. Qed.

Lemma slot_table_ok i s :
  table_ok s -> 0 <= i < MAX_PROCS -> is_Some (slot i s).
Proof. intros Ht Hi. apply slot_in_range; [lia|]. rewrite Ht. lia. Qed.

Lemma slot_range i s p : table_ok s -> slot i s = Some p -> 0 <= i < MAX_PROCS.
Proof.
  intros Ht H. pose proof (slot_nonneg _ _ _ H). pose proof (slot_lt_length _ _ _ H) as Hl.
  rewrite Ht in Hl. lia.
Qed.

Lemma should_wake_up_eq i s p :
  slot i s = Some p ->
  should_wake_up i s = Ok (if wakeup_time p <=? mtime s then 1 else 0) s.
Proof.
  intros H. unfold should_wake_up, time_get_now, get.
  unfold bind at 1. rewrite (bind_eq _ _ _ _ _ (deref_eq _ _ _ H)).
  now destruct (wakeup_time p <=? mtime s).
Qed.

(** One iteration of the loop of [find_ready_proc]. *)
Lemma find_ready_loop_step fuel orig curr s p :
  slot (next_index curr) s = Some p ->
  find_ready_loop (S fuel) orig curr s =
    if runnable (mtime s) p
    then Ok (next_index curr) (upd_slot (next_index curr) (set_state PROC_STATE_READY p) s)
    else if next_index curr =? orig then Ok (next_index curr) s
    else find_ready_loop fuel orig (next_index curr) s.
Proof.
  intros H. cbn [find_ready_loop]. fold (next_index curr). cbv zeta.
  rewrite (bind_eq _ _ _ _ _ (deref_eq _ _ _ H)). unfold runnable.
  destruct (state p) eqn:Est; cbn [proc_state_eqb orb andb].
  - now destruct (next_index curr =? orig).
  - unfold ret. now rewrite (set_state_id _ _ Est), (upd_slot_id _ _ _ H).
  - now destruct (next_index curr =? orig).
  - rewrite (bind_eq _ _ _ _ _ (should_wake_up_eq _ _ _ H)).
    destruct (wakeup_time p <=? mtime s); cbn [Z.eqb negb].
    + now rewrite (bind_eq _ _ _ _ _ (modify_proc_eq _ _ _ _ H)).
    + now destruct (next_index curr =? orig).
Qed.

Lemma next_index_range c : 0 <= c < MAX_PROCS -> 0 <= next_index c < MAX_PROCS.
Proof. unfold next_index. destruct (Z.geb_spec (c + 1) MAX_PROCS); lia. Qed.

Lemma scanned_next c o : 0 <= c < MAX_PROCS -> 0 <= o < MAX_PROCS -> scanned c o (next_index c).
Proof.
  intros Hc Ho. unfold scanned, next_index.
  destruct (Z.geb_spec (c + 1) MAX_PROCS), (Z.ltb_spec c o); lia.
Qed.

Lemma scanned_last c o i :
  0 <= c < MAX_PROCS -> 0 <= o < MAX_PROCS ->
  next_index c = o -> scanned c o i -> i = o.
Proof.
  unfold scanned, next_index.
  destruct (Z.geb_spec (c + 1) MAX_PROCS), (Z.ltb_spec c o); lia.
Qed.

Lemma scanned_step c o i :
  0 <= c < MAX_PROCS -> 0 <= o < MAX_PROCS -> next_index c <> o ->
  scanned (next_index c) o i <-> scanned c o i /\ i <> next_index c.
Proof.
  unfold scanned, next_index.
  destruct (Z.geb_spec (c + 1) MAX_PROCS), (Z.ltb_spec c o);
    [destruct (Z.ltb_spec 0 o) | destruct (Z.ltb_spec 0 o)
    | destruct (Z.ltb_spec (c + 1) o) | destruct (Z.ltb_spec (c + 1) o)]; lia.
Qed.

Lemma scan_dist_step c o :
  0 <= c < MAX_PROCS -> 0 <= o < MAX_PROCS -> next_index c <> o ->
  scan_dist (next_index c) o = scan_dist c o - 1.
Proof.
  unfold scan_dist, next_index.
  destruct (Z.geb_spec (c + 1) MAX_PROCS), (Z.ltb_spec c o);
    [destruct (Z.ltb_spec 0 o) | destruct (Z.ltb_spec 0 o)
    | destruct (Z.ltb_spec (c + 1) o) | destruct (Z.ltb_spec (c + 1) o)]; lia.
Qed.

Lemma scan_dist_pos c o : 0 <= c < MAX_PROCS -> 0 <= o < MAX_PROCS -> 0 < scan_dist c o.
Proof. unfold scan_dist. destruct (Z.ltb_spec c o); lia. Qed.

(** The scan finds nothing: it stops at [orig] and has changed nothing. *)
Lemma find_ready_loop_none fuel orig curr s :
  table_ok s -> 0 <= orig < MAX_PROCS -> 0 <= curr < MAX_PROCS ->
  scan_dist curr orig <= Z.of_nat fuel ->
  (forall i p, scanned curr orig i -> slot i s = Some p -> runnable (mtime s) p = false) ->
  find_ready_loop fuel orig curr s = Ok orig s.
Proof.
  intros Ht Ho. revert curr. induction fuel as [|fuel IH]; intros curr Hc Hd Hnone.
  - pose proof (scan_dist_pos curr orig Hc Ho). lia.
  - destruct (slot_table_ok (next_index curr) s Ht (next_index_range _ Hc)) as [p Hp].
    rewrite (find_ready_loop_step _ _ _ _ _ Hp).
    rewrite (Hnone _ _ (scanned_next _ _ Hc Ho) Hp).
    destruct (Z.eqb_spec (next_index curr) orig) as [E|E]; [now rewrite E|].
    apply IH.
    + now apply next_index_range.
    + rewrite scan_dist_step by assumption. lia.
    + intros i q Hi. apply Hnone. now apply (scanned_step curr orig i Hc Ho E).
Qed.

(** The scan finds a slot that satisfies the predicate: it stops at one,
    which it leaves [READY]. *)
Lemma find_ready_loop_some fuel orig curr s :
  table_ok s -> 0 <= orig < MAX_PROCS -> 0 <= curr < MAX_PROCS ->
  scan_dist curr orig <= Z.of_nat fuel ->
  (exists i p, scanned curr orig i /\ slot i s = Some p /\ runnable (mtime s) p = true) ->
  exists j p,
    scanned curr orig j /\ slot j s = Some p /\ runnable (mtime s) p = true /\
    find_ready_loop fuel orig curr s = Ok j (upd_slot j (set_state PROC_STATE_READY p) s).
Proof.
  intros Ht Ho. revert curr. induction fuel as [|fuel IH]; intros curr Hc Hd Hex.
  - pose proof (scan_dist_pos curr orig Hc Ho). lia.
  - destruct (slot_table_ok (next_index curr) s Ht (next_index_range _ Hc)) as [p Hp].
    rewrite (find_ready_loop_step _ _ _ _ _ Hp).
    destruct (runnable (mtime s) p) eqn:Er.
    + exists (next_index curr), p. split; [now apply scanned_next|]. auto.
    + destruct Hex as (i & q & Hi & Hq & Hrq).
      destruct (Z.eqb_spec (next_index curr) orig) as [E|E].
      * pose proof (scanned_last _ _ _ Hc Ho E Hi). subst i. rewrite <- E in Hq. congruence.
      * destruct (IH (next_index curr)) as (j & pj & Hj & Hpj & Hrj & Hrun).
        -- now apply next_index_range.
        -- rewrite scan_dist_step by assumption. lia.
        -- exists i, q. split; [|auto]. apply (scanned_step curr orig i Hc Ho E).
           split; [exact Hi|]. intros ->. congruence.
        -- exists j, pj. split; [|auto]. now apply (scanned_step curr orig j Hc Ho E).
Qed.

Lemma scanned_all o i : 0 <= i < MAX_PROCS -> scanned o o i.
Proof. unfold scanned. rewrite Z.ltb_irrefl. lia. Qed.

Lemma runnable_ready now p : state p = PROC_STATE_READY -> runnable now p = true.
Proof. unfold runnable. now intros ->. Qed.

(** The scan either finds nothing or stops at a slot that satisfies the
    predicate. *)
Lemma find_ready_loop_cases fuel orig curr s :
  table_ok s -> 0 <= orig < MAX_PROCS -> 0 <= curr < MAX_PROCS ->
  scan_dist curr orig <= Z.of_nat fuel ->
  find_ready_loop fuel orig curr s = Ok orig s \/
  exists j p,
    slot j s = Some p /\ runnable (mtime s) p = true /\
    find_ready_loop fuel orig curr s = Ok j (upd_slot j (set_state PROC_STATE_READY p) s).
Proof.
  intros Ht Ho. revert curr. induction fuel as [|fuel IH]; intros curr Hc Hd.
  - pose proof (scan_dist_pos curr orig Hc Ho). lia.
  - destruct (slot_table_ok (next_index curr) s Ht (next_index_range _ Hc)) as [p Hp].
    rewrite (find_ready_loop_step _ _ _ _ _ Hp).
    destruct (runnable (mtime s) p) eqn:Er.
    + right. exists (next_index curr), p. auto.
    + destruct (Z.eqb_spec (next_index curr) orig) as [E|E].
      * left. now rewrite E.
      * apply IH; [now apply next_index_range|].
        rewrite scan_dist_step by assumption. lia.
Qed.

(** C1, as the code has it: called with an index inside the table,
    [find_ready_proc] returns, whatever the states of the slots.  If some
    slot is [READY], or [SLEEPING] with [wakeup_time <= now], it returns
    such a slot, which it leaves [READY], and [curr_proc] is its index.  If
    no slot is, it returns null when the slot it started from is
    [SLEEPING], and returns that very slot, the table unchanged, when it is
    [RUNNING]. *)
Theorem find_ready_proc_result (start : Z) (s : kstate) :
  table_ok s -> 0 <= start < MAX_PROCS ->
  (exists r s', find_ready_proc start s = Ok r s' /\
     match r with
     | Some j => curr_proc (proc_table s') = j /\ 0 <= j < MAX_PROCS
     | None => curr_proc (proc_table s') = start
     end) /\
  ((exists i p, slot i s = Some p /\ runnable (mtime s) p = true) ->
   exists j p s',
     find_ready_proc start s = Ok (Some j) s' /\
     slot j s = Some p /\ runnable (mtime s) p = true /\
     slot j s' = Some (set_state PROC_STATE_READY p) /\
     curr_proc (proc_table s') = j) /\
  ((forall i p, slot i s = Some p -> runnable (mtime s) p = false) ->
   forall p0, slot start s = Some p0 ->
     (state p0 = PROC_STATE_SLEEPING ->
      find_ready_proc start s = Ok None (upd_table (set_curr_proc start) s)) /\
     (state p0 = PROC_STATE_RUNNING ->
      find_ready_proc start s = Ok (Some start) (upd_table (set_curr_proc start) s))).
Proof.
  intros Ht Hs. split; [|split].
  - (* the call returns *)
    destruct (find_ready_loop_cases (Z.to_nat MAX_PROCS) start start s Ht Hs Hs)
      as [Hrun | (j & pj & Hpj & Hrj & Hrun)].
    { unfold scan_dist. rewrite Z.ltb_irrefl. lia. }
    + destruct (slot_table_ok start s Ht Hs) as [p0 Hp0].
      assert (Hp0' : slot start (set_proc_table (set_curr_proc start (proc_table s)) s)
                     = Some p0) by exact Hp0.
      unfold find_ready_proc. rewrite (bind_eq _ _ _ _ _ Hrun).
      unfold modify_table, modify. unfold bind at 1.
      rewrite (bind_eq _ _ _ _ _ (deref_eq _ _ _ Hp0')).
      destruct (proc_state_eqb (state p0) PROC_STATE_SLEEPING); eexists _, _;
        (split; [reflexivity|]); [reflexivity | split; [reflexivity | exact Hs]].
    + assert (Hj' : slot j (set_proc_table (set_curr_proc j
                  (proc_table (upd_slot j (set_state PROC_STATE_READY pj) s)))
                  (upd_slot j (set_state PROC_STATE_READY pj) s))
                  = Some (set_state PROC_STATE_READY pj)).
      { rewrite <- (slot_upd_eq j (set_state PROC_STATE_READY pj) s pj Hpj). reflexivity. }
      unfold find_ready_proc. rewrite (bind_eq _ _ _ _ _ Hrun).
      unfold modify_table, modify. unfold bind at 1.
      rewrite (bind_eq _ _ _ _ _ (deref_eq _ _ _ Hj')).
      cbn [state set_state proc_state_eqb]. eexists _, _.
      split; [reflexivity|]. split; [reflexivity | exact (slot_range _ _ _ Ht Hpj)].
  - intros (i & p & Hp & Hr).
    destruct (find_ready_loop_some (Z.to_nat MAX_PROCS) start start s Ht Hs Hs) as
      (j & pj & Hj & Hpj & Hrj & Hrun).
    { unfold scan_dist. rewrite Z.ltb_irrefl. lia. }
    { exists i, p. split; [|auto]. apply scanned_all. exact (slot_range _ _ _ Ht Hp). }
    exists j, pj. eexists. unfold find_ready_proc.
    rewrite (bind_eq _ _ _ _ _ Hrun).
    unfold modify_table, modify. unfold bind at 1.
    assert (Hj' : slot j (set_proc_table (set_curr_proc j
                (proc_table (upd_slot j (set_state PROC_STATE_READY pj) s)))
                (upd_slot j (set_state PROC_STATE_READY pj) s))
                = Some (set_state PROC_STATE_READY pj)).
    { rewrite <- (slot_upd_eq j (set_state PROC_STATE_READY pj) s pj Hpj). reflexivity. }
    rewrite (bind_eq _ _ _ _ _ (deref_eq _ _ _ Hj')).
    cbn [state set_state proc_state_eqb]. unfold ret.
    split; [reflexivity|]. split; [exact Hpj|]. split; [exact Hrj|].
    split; [exact Hj' | reflexivity].
  - intros Hnone p0 Hp0.
    assert (Hrun : find_ready_loop (Z.to_nat MAX_PROCS) start start s = Ok start s).
    { apply find_ready_loop_none; auto.
      - unfold scan_dist. rewrite Z.ltb_irrefl. lia.
      - intros i p _. apply Hnone. }
    assert (Hp0' : slot start (set_proc_table (set_curr_proc start (proc_table s)) s) = Some p0)
      by exact Hp0.
    split; intros E; unfold find_ready_proc; rewrite (bind_eq _ _ _ _ _ Hrun);
      unfold modify_table, modify; unfold bind at 1;
      rewrite (bind_eq _ _ _ _ _ (deref_eq _ _ _ Hp0')); rewrite E; reflexivity.
Qed.

(** X22: the scan honours a deadline: a slot that is [SLEEPING] with a
    wake-up time still ahead is neither returned nor changed by
    [find_ready_proc]. *)
Lemma find_ready_proc_respects_deadline start s i p :
  table_ok s -> 0 <= start < MAX_PROCS ->
  slot i s = Some p -> state p = PROC_STATE_SLEEPING -> mtime s < wakeup_time p ->
  exists r s', find_ready_proc start s = Ok r s' /\ r <> Some i /\ slot i s' = Some p.
Proof.
  intros Ht Hs Hp Hst Hw.
  assert (Hnr : runnable (mtime s) p = false).
  { unfold runnable. rewrite Hst. cbn [proc_state_eqb orb andb].
    apply Z.leb_gt. exact Hw. }
  destruct (find_ready_loop_cases (Z.to_nat MAX_PROCS) start start s Ht Hs Hs)
    as [Hrun | (j & pj & Hpj & Hrj & Hrun)].
  { unfold scan_dist. rewrite Z.ltb_irrefl. lia. }
  - destruct (slot_table_ok start s Ht Hs) as [p0 Hp0].
    assert (Hp0' : slot start (set_proc_table (set_curr_proc start (proc_table s)) s) = Some p0)
      by exact Hp0.
    unfold find_ready_proc. rewrite (bind_eq _ _ _ _ _ Hrun).
    unfold modify_table, modify. unfold bind at 1.
    rewrite (bind_eq _ _ _ _ _ (deref_eq _ _ _ Hp0')).
    destruct (proc_state_eqb (state p0) PROC_STATE_SLEEPING) eqn:E; eexists _, _.
    + split; [reflexivity|]. split; [discriminate | exact Hp].
    + split; [reflexivity|]. split; [|exact Hp].
      intros Heq. inversion Heq. subst i.
      assert (p0 = p) by congruence. subst p0. rewrite Hst in E. discriminate.
  - assert (Hji : j <> i) by (intros ->; congruence).
    assert (Hj' : slot j (set_proc_table (set_curr_proc j
                (proc_table (upd_slot j (set_state PROC_STATE_READY pj) s)))
                (upd_slot j (set_state PROC_STATE_READY pj) s))
                = Some (set_state PROC_STATE_READY pj)).
    { rewrite <- (slot_upd_eq j (set_state PROC_STATE_READY pj) s pj Hpj). reflexivity. }
    eexists _, _. unfold find_ready_proc. rewrite (bind_eq _ _ _ _ _ Hrun).
    unfold modify_table, modify. unfold bind at 1.
    rewrite (bind_eq _ _ _ _ _ (deref_eq _ _ _ Hj')).
    cbn [state set_state proc_state_eqb]. unfold ret.
    split; [reflexivity|]. split; [congruence|].
    rewrite <- Hp. apply (slot_upd_ne j i); [exact Hji | exact (slot_nonneg _ _ _ Hpj)].
Qed.

(** ** Running a routine step by step *)

Lemma valid_slot i s p : slot i s = Some p -> valid i s.
Proof. intros H. split; [exact (slot_nonneg _ _ _ H) | exact (slot_lt_length _ _ _ H)]. Qed.

Lemma valid_is_Some i s : valid i s -> is_Some (slot i s).
Proof. intros [H1 H2]. now apply slot_in_range. Qed.

Lemma valid_upd_slot i j q s : valid i s -> valid i (upd_slot j q s).
Proof. intros [H1 H2]. split; [exact H1|]. now rewrite length_upd_slot. Qed.

Lemma valid_upd_table i f s :
  (forall t, procs (f t) = procs t) -> valid i s -> valid i (upd_table f s).
Proof. intros Hf [H1 H2]. split; [exact H1|]. unfold upd_table. simpl. now rewrite Hf. Qed.

Lemma valid_off_table i s s' :
  proc_table s' = proc_table s -> valid i s -> valid i s'.
Proof. unfold valid. now intros ->. Qed.

Lemma slot_off_table i s s' : proc_table s' = proc_table s -> slot i s' = slot i s.
Proof. unfold slot. now intros ->. Qed.

Lemma proc_table_mark_free p s : proc_table (mark_free p s) = proc_table s.
Proof. reflexivity. Qed.

Lemma slot_upd_same i q s : valid i s -> slot i (upd_slot i q s) = Some q.
Proof. intros Hv. destruct (valid_is_Some _ _ Hv) as [p Hp]. exact (slot_upd_eq _ _ _ _ Hp). Qed.

Lemma slot_upd_other i j q s : i <> j -> valid i s -> slot j (upd_slot i q s) = slot j s.
Proof. intros Hne [Hi _]. now apply slot_upd_ne. Qed.

Lemma slot_mark_free i p s : slot i (mark_free p s) = slot i s.
Proof. apply slot_off_table, proc_table_mark_free. Qed.

Lemma slot_copy_bytes i d c s : slot i (copy_bytes d c s) = slot i s.
Proof. reflexivity. Qed.

Lemma slot_set_page_bitmap i v s : slot i (set_page_bitmap v s) = slot i s.
Proof. reflexivity. Qed.

Lemma slot_set_trap_frame i v s : slot i (set_trap_frame v s) = slot i s.
Proof. reflexivity. Qed.

Lemma valid_set_trap_frame i v s : valid i s -> valid i (set_trap_frame v s).
Proof. exact (fun H => H). Qed.

Lemma valid_mark_free i p s : valid i s -> valid i (mark_free p s).
Proof. apply valid_off_table, proc_table_mark_free. Qed.

Lemma valid_copy_bytes i d c s : valid i s -> valid i (copy_bytes d c s).
Proof. exact (fun H => H). Qed.

Lemma valid_set_page_bitmap i v s : valid i s -> valid i (set_page_bitmap v s).
Proof. exact (fun H => H). Qed.

Create HintDb kslot.
#[local] Hint Resolve valid_upd_slot valid_mark_free valid_copy_bytes
  valid_set_page_bitmap valid_set_trap_frame : kslot.
#[local] Hint Extern 1 (valid _ (upd_table _ _)) =>
  (apply valid_upd_table; [intros ?; reflexivity|]) : kslot.
#[local] Hint Extern 3 (valid _ _) =>
  (eapply valid_slot; eassumption) : kslot.

(** Reading a slot through the assignments made so far. *)
Ltac slot_norm :=
  repeat first
    [ rewrite slot_upd_same by eauto 60 with kslot
    | rewrite slot_upd_other by (first [assumption | congruence | lia | eauto 60 with kslot])
    | rewrite slot_upd_table by (intros ?; reflexivity)
    | rewrite slot_mark_free
    | rewrite slot_copy_bytes
    | rewrite slot_set_page_bitmap
    | rewrite slot_set_trap_frame ].

Ltac slot_solve := slot_norm; first [reflexivity | eassumption].

(** Components of the state other than the slots. *)

Lemma table_lock_upd_slot i q s :
  table_lock (proc_table (upd_slot i q s)) = table_lock (proc_table s).
Proof. reflexivity. Qed.
Lemma curr_proc_upd_slot i q s :
  curr_proc (proc_table (upd_slot i q s)) = curr_proc (proc_table s).
Proof. reflexivity. Qed.
Lemma pid_counter_upd_slot i q s :
  pid_counter (proc_table (upd_slot i q s)) = pid_counter (proc_table s).
Proof. reflexivity. Qed.
Lemma num_procs_upd_slot i q s :
  num_procs (proc_table (upd_slot i q s)) = num_procs (proc_table s).
Proof. reflexivity. Qed.
Lemma is_idle_upd_slot i q s :
  is_idle (proc_table (upd_slot i q s)) = is_idle (proc_table s).
Proof. reflexivity. Qed.
Lemma trap_frame_upd_slot i q s : trap_frame (upd_slot i q s) = trap_frame s.
Proof. reflexivity. Qed.
Lemma page_bitmap_upd_slot i q s : page_bitmap (upd_slot i q s) = page_bitmap s.
Proof. reflexivity. Qed.
Lemma memory_upd_slot i q s : memory (upd_slot i q s) = memory s.
Proof. reflexivity. Qed.
Lemma mtime_upd_slot i q s : mtime (upd_slot i q s) = mtime s.
Proof. reflexivity. Qed.
Lemma trap_frame_upd_table f s : trap_frame (upd_table f s) = trap_frame s.
Proof. reflexivity. Qed.
Lemma page_bitmap_upd_table f s : page_bitmap (upd_table f s) = page_bitmap s.
Proof. reflexivity. Qed.
Lemma memory_upd_table f s : memory (upd_table f s) = memory s.
Proof. reflexivity. Qed.
Lemma mtime_upd_table f s : mtime (upd_table f s) = mtime s.
Proof. reflexivity. Qed.
Lemma proc_table_upd_table f s : proc_table (upd_table f s) = f (proc_table s).
Proof. reflexivity. Qed.
Lemma trap_frame_mark_free p s : trap_frame (mark_free p s) = trap_frame s.
Proof. reflexivity. Qed.
Lemma memory_mark_free p s : memory (mark_free p s) = memory s.
Proof. reflexivity. Qed.
Lemma mtime_mark_free p s : mtime (mark_free p s) = mtime s.
Proof. reflexivity. Qed.
Lemma page_bitmap_mark_free p s :
  page_bitmap (mark_free p s) = clear_bit p (page_bitmap s).
Proof. reflexivity. Qed.
Lemma page_bitmap_set_page_bitmap v s : page_bitmap (set_page_bitmap v s) = v.
Proof. reflexivity. Qed.
Lemma proc_table_set_page_bitmap v s : proc_table (set_page_bitmap v s) = proc_table s.
Proof. reflexivity. Qed.
Lemma trap_frame_set_page_bitmap v s : trap_frame (set_page_bitmap v s) = trap_frame s.
Proof. reflexivity. Qed.
Lemma proc_table_copy_bytes d c s : proc_table (copy_bytes d c s) = proc_table s.
Proof. reflexivity. Qed.
Lemma trap_frame_copy_bytes d c s : trap_frame (copy_bytes d c s) = trap_frame s.
Proof. reflexivity. Qed.
Lemma page_bitmap_copy_bytes d c s : page_bitmap (copy_bytes d c s) = page_bitmap s.
Proof. reflexivity. Qed.

Lemma proc_table_set_trap_frame v s : proc_table (set_trap_frame v s) = proc_table s.
Proof. reflexivity. Qed.
Lemma trap_frame_set_trap_frame v s : trap_frame (set_trap_frame v s) = v.
Proof. reflexivity. Qed.
Lemma page_bitmap_set_trap_frame v s : page_bitmap (set_trap_frame v s) = page_bitmap s.
Proof. reflexivity. Qed.
Lemma memory_set_trap_frame v s : memory (set_trap_frame v s) = memory s.
Proof. reflexivity. Qed.
Lemma memory_set_page_bitmap v s : memory (set_page_bitmap v s) = memory s.
Proof. reflexivity. Qed.
Lemma mtime_set_trap_frame v s : mtime (set_trap_frame v s) = mtime s.
Proof. reflexivity. Qed.
Lemma mtime_set_page_bitmap v s : mtime (set_page_bitmap v s) = mtime s.
Proof. reflexivity. Qed.
Lemma mtime_copy_bytes d c s : mtime (copy_bytes d c s) = mtime s.
Proof. reflexivity. Qed.

Lemma set_context_twice a b p : set_context a (set_context b p) = set_context a p.
Proof. reflexivity. Qed.
Lemma set_state_twice a b p : set_state a (set_state b p) = set_state a p.
Proof. reflexivity. Qed.
Lemma set_lock_twice a b p : set_lock a (set_lock b p) = set_lock a p.
Proof. reflexivity. Qed.

Create Rewrite HintDb kproj.
#[local] Hint Rewrite table_lock_upd_slot curr_proc_upd_slot pid_counter_upd_slot
  num_procs_upd_slot is_idle_upd_slot trap_frame_upd_slot page_bitmap_upd_slot
  memory_upd_slot mtime_upd_slot trap_frame_upd_table page_bitmap_upd_table
  memory_upd_table mtime_upd_table proc_table_upd_table proc_table_mark_free
  trap_frame_mark_free memory_mark_free mtime_mark_free page_bitmap_mark_free
  page_bitmap_set_page_bitmap proc_table_set_page_bitmap
  trap_frame_set_page_bitmap proc_table_copy_bytes trap_frame_copy_bytes
  page_bitmap_copy_bytes proc_table_set_trap_frame trap_frame_set_trap_frame
  page_bitmap_set_trap_frame memory_set_trap_frame memory_set_page_bitmap
  mtime_set_trap_frame mtime_set_page_bitmap mtime_copy_bytes
  set_context_twice set_state_twice set_lock_twice : kproj.

(** Projections of records that were just built. *)
Ltac fields :=
  cbn [pid state name parent context stack_page wakeup_time lock
       set_pid set_state set_name set_parent set_context set_stack_page
       set_wakeup_time set_lock regs pc set_regs set_pc
       table_lock curr_proc pid_counter num_procs is_idle
       set_table_lock set_curr_proc set_pid_counter set_num_procs set_is_idle
       fst snd proc_state_eqb negb orb andb].

Ltac knorm := repeat progress (cbv beta iota zeta; autorewrite with kproj; fields).

Lemma modify_table_eq f s : modify_table f s = Ok tt (upd_table f s).
Proof. reflexivity. Qed.

Lemma get_eq {A} (f : kstate -> A) s : get f s = Ok (f s) s.
Proof. reflexivity. Qed.

Lemma release_page_eq p s : release_page p s = Ok tt (mark_free p s).
Proof. reflexivity. Qed.

Lemma copy_page_eq d c s : copy_page d c s = Ok tt (copy_bytes d c s).
Proof. reflexivity. Qed.

Lemma modify_trap_eq f s :
  modify (fun s => set_trap_frame (f s) s) s = Ok tt (set_trap_frame (f s) s).
Proof. reflexivity. Qed.

Lemma allocate_page_eq s k :
  first_free (page_bitmap s) = Some k ->
  allocate_page s = Ok (page_addr k) (set_page_bitmap (<[k := true]> (page_bitmap s)) s).
Proof. intros H. unfold allocate_page. now rewrite H. Qed.

Lemma allocate_page_none s :
  first_free (page_bitmap s) = None -> allocate_page s = Ok 0 s.
Proof. intros H. unfold allocate_page. now rewrite H. Qed.

(** One step of a routine whose head is a primitive. *)
Ltac kstep :=
  lazymatch goal with
  | |- wp (bind (deref _) _) _ _ =>
      eapply wp_step; [apply deref_eq; slot_solve | knorm]
  | |- wp (bind (modify_proc _ _) _) _ _ =>
      eapply wp_step; [eapply modify_proc_eq; slot_solve | knorm]
  | |- wp (bind (acquire _) _) _ _ =>
      eapply wp_step; [eapply acquire_eq; [slot_solve | fields; try reflexivity; try assumption] | knorm]
  | |- wp (bind (release _) _) _ _ =>
      eapply wp_step; [eapply release_eq; slot_solve | knorm]
  | |- wp (bind acquire_table _) _ _ =>
      eapply wp_step; [apply acquire_table_eq; knorm; try reflexivity; try assumption | knorm]
  | |- wp (bind release_table _) _ _ =>
      eapply wp_step; [apply release_table_eq | knorm]
  | |- wp (bind (modify_table _) _) _ _ =>
      eapply wp_step; [apply modify_table_eq | knorm]
  | |- wp (bind (get _) _) _ _ =>
      eapply wp_step; [apply get_eq | knorm]
  | |- wp (bind (release_page _) _) _ _ =>
      eapply wp_step; [apply release_page_eq | knorm]
  | |- wp (bind (copy_page _ _) _) _ _ =>
      eapply wp_step; [apply copy_page_eq | knorm]
  | |- wp (bind (modify _) _) _ _ =>
      eapply wp_step; [reflexivity | knorm]
  | |- wp (ret _) _ _ => apply wp_ret
  end.

Lemma wp_eq {A} (m : K A) Q s a s1 : m s = Ok a s1 -> Q a s1 -> wp m Q s.
Proof. intros Hm HQ. unfold wp. now rewrite Hm. Qed.

Lemma wp_val {A} (m : K A) (v : A) (Q : kstate -> Prop) s :
  wp m (fun a s' => a = v /\ Q s') s -> exists s', m s = Ok v s' /\ Q s'.
Proof. intros H. apply wp_ok in H. destruct H as (a & s' & H & -> & HQ). eauto. Qed.

Lemma wp_unit (m : K unit) (Q : kstate -> Prop) s :
  wp m (fun _ => Q) s -> exists s', m s = Ok tt s' /\ Q s'.
Proof. intros H. apply wp_ok in H. destruct H as ([] & s' & H). eauto. Qed.

(** ** [proc_exit] *)

(** What [proc_exit] has done to the table when it calls the scheduler. *)
Lemma proc_exit_reap_run proc par s p pp :
  slot proc s = Some p -> lock p = false ->
  parent p = Some par -> par <> proc ->
  slot par s = Some pp -> lock pp = false ->
  table_lock (proc_table s) = false ->
  exists s',
    proc_exit_reap proc s = Ok tt s' /\
    slot par s' = Some (set_state PROC_STATE_READY pp) /\
    slot proc s' = Some (set_state PROC_STATE_AVAILABLE p) /\
    (forall j, j <> proc -> j <> par -> slot j s' = slot j s) /\
    num_procs (proc_table s') = num_procs (proc_table s) - 1 /\
    curr_proc (proc_table s') = curr_proc (proc_table s) /\
    table_lock (proc_table s') = false /\
    page_bitmap s' = clear_bit (stack_page p) (page_bitmap s).
Proof.
  intros Hp Hl Hpar Hne Hpp Hlp Htl.
  apply wp_unit. unfold proc_exit_reap.
  kstep. kstep. kstep. kstep. kstep. rewrite Hpar.
  kstep. kstep. kstep. kstep. kstep. kstep.
  eapply wp_eq; [apply release_table_eq|].
  repeat split; knorm; try reflexivity.
  - slot_norm. destruct pp; simpl in *; now subst.
  - slot_norm. destruct p; simpl in *; now subst.
  - intros j Hj1 Hj2. slot_norm. reflexivity.
Qed.

Lemma proc_exit_reap_null_parent proc s p :
  slot proc s = Some p -> lock p = false -> parent p = None ->
  proc_exit_reap proc s = Fault.
Proof.
  intros Hp Hl Hpar. unfold proc_exit_reap.
  rewrite (bind_eq _ _ _ _ _ (acquire_eq _ _ _ Hp Hl)).
  erewrite bind_eq by (apply deref_eq; slot_solve).
  erewrite bind_eq by apply release_page_eq.
  erewrite bind_eq by (eapply modify_proc_eq; slot_solve).
  erewrite bind_eq by (apply deref_eq; slot_solve).
  fields. now rewrite Hpar.
Qed.

(** C10: [proc_exit] follows the parent pointer of the exiting process and
    writes [READY] into the state of the parent's slot whatever that state
    was; with a null parent pointer the dereference is not defined. *)
Theorem proc_exit_sets_parent_ready (s : kstate) (proc : Z) (p : process_t) :
  table_lock (proc_table s) = false ->
  num_procs (proc_table s) <> 0 ->
  curr_proc (proc_table s) = proc ->
  slot proc s = Some p -> lock p = false ->
  (forall par pp,
     parent p = Some par -> par <> proc ->
     slot par s = Some pp -> lock pp = false ->
     exists s1,
       proc_exit_reap proc s = Ok tt s1 /\
       proc_exit s = schedule_user_process s1 /\
       slot par s1 = Some (set_state PROC_STATE_READY pp) /\
       slot proc s1 = Some (set_state PROC_STATE_AVAILABLE p) /\
       num_procs (proc_table s1) = num_procs (proc_table s) - 1) /\
  (parent p = None -> proc_exit s = Fault).
Proof.
  intros Htl Hn Hc Hp Hl.
  assert (Hcur : current_proc s = Ok (Some proc) s).
  { rewrite <- Hc. now apply current_proc_some. }
  split.
  - intros par pp Hpar Hne Hpp Hlp.
    destruct (proc_exit_reap_run proc par s p pp Hp Hl Hpar Hne Hpp Hlp Htl)
      as (s1 & Hrun & Hpar1 & Hproc1 & _ & Hnum & _).
    exists s1. split; [exact Hrun|].
    split; [|auto].
    unfold proc_exit. rewrite (bind_eq _ _ _ _ _ Hcur).
    now rewrite (bind_eq _ _ _ _ _ Hrun).
  - intros Hpar. unfold proc_exit. rewrite (bind_eq _ _ _ _ _ Hcur).
    unfold bind. now rewrite (proc_exit_reap_null_parent _ _ _ Hp Hl Hpar).
Qed.

(** ** [alloc_pid] *)

Lemma alloc_pid_eq s :
  table_lock (proc_table s) = false ->
  alloc_pid s =
    Ok (pid_counter (proc_table s))
       (upd_table (set_pid_counter (wrap32 (pid_counter (proc_table s) + 1))) s).
Proof.
  intros Hl. unfold alloc_pid.
  rewrite (bind_eq _ _ _ _ _ (acquire_table_eq _ Hl)).
  unfold bind, get, modify_table, modify, release_table, ret. f_equal.
  destruct s as [[tl ps cp pc np idle] tf bm mem t lg]. simpl in *. now subst.
Qed.

Lemma wrap32_succ c k : wrap32 (wrap32 (c + Z.of_nat k) + 1) = wrap32 (c + Z.of_nat (S k)).
Proof.
  unfold wrap32. rewrite Nat2Z.inj_succ, Z.add_mod_idemp_l by lia.
  f_equal. lia.
Qed.

Lemma alloc_pids_from n : forall s k c,
  table_lock (proc_table s) = false ->
  pid_counter (proc_table s) = wrap32 (c + Z.of_nat k) ->
  exists s',
    alloc_pids n s = Ok (map (fun i => wrap32 (c + Z.of_nat i)) (seq k n)) s' /\
    table_lock (proc_table s') = false /\
    pid_counter (proc_table s') = wrap32 (c + Z.of_nat (k + n)).
Proof.
  induction n as [|n IH]; intros s k c Hl Hc.
  - exists s. rewrite Nat.add_0_r. auto.
  - cbn [alloc_pids]. rewrite (bind_eq _ _ _ _ _ (alloc_pid_eq _ Hl)).
    destruct (IH (upd_table (set_pid_counter (wrap32 (pid_counter (proc_table s) + 1))) s)
                 (S k) c) as (s' & Hrun & Hl' & Hc').
    + exact Hl.
    + cbn [proc_table upd_table set_proc_table pid_counter set_pid_counter].
      rewrite Hc. apply wrap32_succ.
    + exists s'. rewrite (bind_eq _ _ _ _ _ Hrun). unfold ret.
      rewrite Hc. cbn [seq map]. split; [reflexivity|]. split; [exact Hl'|].
      rewrite Hc'. f_equal. lia.
Qed.

(** [init_process_table] hands the table to [init_test_processes] with
    [pid_counter] at 0 and [curr_proc] at -1. *)
Lemma init_process_table_eq (init_test_processes : K unit) s :
  exists s0,
    init_process_table init_test_processes s = init_test_processes s0 /\
    pid_counter (proc_table s0) = 0 /\
    curr_proc (proc_table s0) = -1 /\
    is_idle (proc_table s0) = true /\
    table_lock (proc_table s0) = table_lock (proc_table s) /\
    num_procs (proc_table s0) = num_procs (proc_table s) /\
    procs (proc_table s0) = map (set_state PROC_STATE_AVAILABLE) (procs (proc_table s)).
Proof. eexists. split; [reflexivity|]. repeat split. Qed.

(** C7, as the code has it: from [pid_counter = 0], the value that
    [init_process_table] assigns, successive calls of [alloc_pid] return 0,
    1, 2, ... modulo 2^32.  The first 2^32 pids are therefore strictly
    increasing from 0, and 0 is the first pid issued. *)
Theorem alloc_pid_counts_from_zero (s : kstate) (n : nat) :
  table_lock (proc_table s) = false ->
  pid_counter (proc_table s) = 0 ->
  exists s' pids,
    alloc_pids n s = Ok pids s' /\
    pids = map (fun i => wrap32 (Z.of_nat i)) (seq 0 n) /\
    pid_counter (proc_table s') = wrap32 (Z.of_nat n) /\
    (Z.of_nat n <= 2 ^ 32 ->
       pids = map Z.of_nat (seq 0 n) /\
       forall i j a b, (i < j)%nat -> pids !! i = Some a -> pids !! j = Some b -> a < b).
Proof.
  intros Hl Hc.
  destruct (alloc_pids_from n s 0%nat 0) as (s' & Hrun & _ & Hc').
  - exact Hl.
  - now rewrite Hc.
  - exists s', (map (fun i => wrap32 (Z.of_nat i)) (seq 0 n)).
    split; [exact Hrun|]. split; [reflexivity|]. split; [exact Hc'|].
    intros Hn.
    assert (Heq : map (fun i => wrap32 (Z.of_nat i)) (seq 0 n) = map Z.of_nat (seq 0 n)).
    { apply map_ext_in. intros i Hi. apply in_seq in Hi.
      unfold wrap32. apply Z.mod_small. lia. }
    split; [exact Heq|]. rewrite Heq.
    intros i j a b Hij Ha Hb.
    rewrite list_lookup_fmap in Ha, Hb.
    destruct (seq 0 n !! i) as [x|] eqn:Ex; [|discriminate].
    destruct (seq 0 n !! j) as [y|] eqn:Ey; [|discriminate].
    apply lookup_seq in Ex, Ey. simpl in Ha, Hb.
    inversion Ha. inversion Hb. lia.
Qed.

(** ** [alloc_process] *)

Lemma table_ok_upd_slot i q s : table_ok s -> table_ok (upd_slot i q s).
Proof. unfold table_ok. now rewrite length_upd_slot. Qed.

Lemma table_ok_off_table s s' : proc_table s' = proc_table s -> table_ok s -> table_ok s'.
Proof. unfold table_ok. now intros ->. Qed.

Lemma table_ok_upd_table f s :
  (forall t, procs (f t) = procs t) -> table_ok s -> table_ok (upd_table f s).
Proof. intros Hf. unfold table_ok, upd_table. simpl. now rewrite Hf. Qed.

#[local] Hint Resolve table_ok_upd_slot : kslot.
#[local] Hint Extern 1 (table_ok (upd_table _ _)) =>
  (apply table_ok_upd_table; [intros ?; reflexivity|]) : kslot.
#[local] Hint Extern 1 (table_ok (set_page_bitmap _ _)) =>
  (apply (table_ok_off_table _ _ (proc_table_set_page_bitmap _ _))) : kslot.
#[local] Hint Extern 1 (table_ok (mark_free _ _)) =>
  (apply (table_ok_off_table _ _ (proc_table_mark_free _ _))) : kslot.

Lemma alloc_process_loop_skip n i s p :
  slot i s = Some p ->
  i = curr_proc (proc_table s) \/ state p <> PROC_STATE_AVAILABLE ->
  alloc_process_loop (S n) i s = alloc_process_loop n (i + 1) s.
Proof.
  intros Hp Hskip. cbn [alloc_process_loop].
  rewrite (bind_eq _ _ _ _ _ (get_eq _ _)).
  destruct (Z.eqb_spec i (curr_proc (proc_table s))) as [E|E]; [reflexivity|].
  rewrite (bind_eq _ _ _ _ _ (deref_eq _ _ _ Hp)).
  destruct Hskip as [?|Hst]; [contradiction|].
  destruct (state p); try reflexivity. contradiction.
Qed.

Lemma alloc_process_loop_take n i s p :
  slot i s = Some p ->
  i <> curr_proc (proc_table s) -> state p = PROC_STATE_AVAILABLE -> lock p = false ->
  alloc_process_loop (S n) i s =
    Ok (Some i)
       (upd_table (set_table_lock false)
          (upd_table (fun t => set_num_procs (num_procs t + 1) t)
             (upd_slot i (set_state PROC_STATE_READY (set_lock true p))
                (upd_slot i (set_lock true p) s)))).
Proof.
  intros Hp Hne Hst Hl. cbn [alloc_process_loop].
  rewrite (bind_eq _ _ _ _ _ (get_eq _ _)).
  destruct (Z.eqb_spec i (curr_proc (proc_table s))) as [E|E]; [contradiction|].
  rewrite (bind_eq _ _ _ _ _ (deref_eq _ _ _ Hp)). rewrite Hst. fields.
  rewrite (bind_eq _ _ _ _ _ (acquire_eq _ _ _ Hp Hl)).
  erewrite bind_eq by (eapply modify_proc_eq; slot_solve).
  reflexivity.
Qed.

Lemma alloc_process_loop_none n : forall i s,
  table_ok s -> 0 <= i -> i + Z.of_nat n = MAX_PROCS ->
  table_full s ->
  alloc_process_loop n i s = Ok None (upd_table (set_table_lock false) s).
Proof.
  induction n as [|n IH]; intros i s Ht Hi Hn Hfull.
  - reflexivity.
  - destruct (slot_table_ok i s Ht) as [p Hp]; [lia|].
    rewrite (alloc_process_loop_skip _ _ _ _ Hp (Hfull _ _ Hp)).
    apply IH; auto; lia.
Qed.

Lemma alloc_process_loop_some n : forall i s c p,
  table_ok s -> 0 <= i <= c -> c < i + Z.of_nat n -> i + Z.of_nat n <= MAX_PROCS ->
  first_available s c -> slot c s = Some p -> lock p = false ->
  alloc_process_loop n i s =
    Ok (Some c)
       (upd_table (set_table_lock false)
          (upd_table (fun t => set_num_procs (num_procs t + 1) t)
             (upd_slot c (set_state PROC_STATE_READY (set_lock true p))
                (upd_slot c (set_lock true p) s)))).
Proof.
  induction n as [|n IH]; intros i s c p Ht Hi Hc Hn Hfirst Hp Hl.
  - lia.
  - destruct Hfirst as (Hne & (p' & Hp' & Hst) & Hbefore).
    assert (p' = p) by congruence. subst p'.
    destruct (Z.eq_dec i c) as [->|Hic].
    + now apply alloc_process_loop_take.
    + destruct (slot_table_ok i s Ht) as [q Hq]; [lia|].
      rewrite (alloc_process_loop_skip _ _ _ _ Hq); [|apply (Hbefore i q); [lia | exact Hq]].
      apply IH; auto; try lia. split; [exact Hne|]. split; [eauto | exact Hbefore].
Qed.

Lemma upd_table_lock_roundtrip s :
  table_lock (proc_table s) = false ->
  upd_table (set_table_lock false) (upd_table (set_table_lock true) s) = s.
Proof.
  intros H. destruct s as [[tl ps cp pc np idle] tf bm mem t lg]. simpl in *. now subst.
Qed.

Lemma alloc_process_none s :
  table_ok s -> table_lock (proc_table s) = false -> table_full s ->
  alloc_process s = Ok None s.
Proof.
  intros Ht Hl Hfull. unfold alloc_process.
  rewrite (bind_eq _ _ _ _ _ (acquire_table_eq _ Hl)).
  destruct (Z.le_gt_cases 0 MAX_PROCS) as [Hm|Hm].
  - rewrite alloc_process_loop_none; auto; try lia.
    now rewrite upd_table_lock_roundtrip.
  - assert (E : Z.to_nat MAX_PROCS = 0%nat) by lia. rewrite E.
    cbn [alloc_process_loop]. rewrite (bind_eq _ _ _ _ _ (release_table_eq _)).
    now rewrite upd_table_lock_roundtrip.
Qed.

Lemma alloc_process_some s c p :
  table_ok s -> table_lock (proc_table s) = false ->
  first_available s c -> slot c s = Some p -> lock p = false ->
  alloc_process s =
    Ok (Some c)
       (upd_table (fun t => set_num_procs (num_procs t + 1) t)
          (upd_slot c (set_state PROC_STATE_READY (set_lock true p))
             (upd_slot c (set_lock true p) s))).
Proof.
  intros Ht Hl Hfirst Hp Hlp. unfold alloc_process.
  rewrite (bind_eq _ _ _ _ _ (acquire_table_eq _ Hl)).
  pose proof (slot_range _ _ _ Ht Hp) as Hc.
  rewrite (alloc_process_loop_some _ 0 _ c p); auto; try lia.
  f_equal. destruct s as [[tl ps cp pc np idle] tf bm mem t lg]. simpl in *. now subst.
Qed.

(** ** The page allocator *)

Lemma first_free_lookup bm k : first_free bm = Some k -> bm !! k = Some false.
Proof.
  revert k. induction bm as [|b bm IH]; intros k H; [discriminate|].
  cbn [first_free] in H. destruct b.
  - destruct (first_free bm) as [k'|]; [|discriminate].
    inversion H. subst k. apply IH. reflexivity.
  - inversion H. reflexivity.
Qed.

Lemma page_index_addr k : 0 < PAGE_SIZE -> page_index (page_addr k) = k.
Proof.
  intros Hp. unfold page_index, page_addr.
  replace (HEAP_BASE + Z.of_nat k * PAGE_SIZE - HEAP_BASE) with (Z.of_nat k * PAGE_SIZE) by lia.
  rewrite Z.div_mul by lia. apply Nat2Z.id.
Qed.

Lemma page_addr_pos k : PlatformOk P -> 0 < page_addr k.
Proof.
  intros [? Hps Hhb ? ? ?]. unfold page_addr.
  pose proof (Z.mul_nonneg_nonneg (Z.of_nat k) PAGE_SIZE). lia.
Qed.

(** Releasing the page that was just allocated gives the bitmap back. *)
Lemma release_undoes_allocate bm k :
  PlatformOk P -> first_free bm = Some k ->
  clear_bit (page_addr k) (<[k := true]> bm) = bm.
Proof.
  intros HP Hk. pose proof (page_addr_pos k HP) as Hpos.
  destruct HP as [? Hps Hhb ? ? ?]. unfold clear_bit.
  assert (Hge : (HEAP_BASE <=? page_addr k) = true).
  { apply Z.leb_le. unfold page_addr.
    pose proof (Z.mul_nonneg_nonneg (Z.of_nat k) PAGE_SIZE). lia. }
  rewrite Hge, (page_index_addr k Hps), list_insert_insert_eq.
  apply list_insert_id. now apply first_free_lookup.
Qed.

(** ** [proc_fork]: the failing paths *)

(** C6: [proc_fork] fails when no page is free, when there is no process
    ([current_proc] is null) and when no slot is free; it then returns -1
    (as a [uint32_t]), the allocator's bitmap is what it was, so [freeram]
    is unchanged, and no slot has changed its state: no process was
    created. *)
Theorem proc_fork_failure_is_atomic (s : kstate) :
  PlatformOk P ->
  table_ok s ->
  table_lock (proc_table s) = false ->
  (num_procs (proc_table s) <> 0 ->
     exists pp, slot (curr_proc (proc_table s)) s = Some pp /\ lock pp = false) ->
  first_free (page_bitmap s) = None \/
  num_procs (proc_table s) = 0 \/
  table_full s ->
  exists s',
    proc_fork s = Ok (wrap32 (-1)) s' /\
    wrap32 (-1) = 4294967295 /\
    page_bitmap s' = page_bitmap s /\
    freeram s' = freeram s /\
    num_procs (proc_table s') = num_procs (proc_table s) /\
    forall j, (state <$> slot j s') = (state <$> slot j s).
Proof.
  intros HP Ht Hl Hpar Hfail. apply wp_val. unfold proc_fork.
  destruct (first_free (page_bitmap s)) as [k|] eqn:Hk.
  2:{ eapply wp_step; [now apply allocate_page_none|]. cbn [Z.eqb].
      apply wp_ret. repeat split. }
  eapply wp_step; [apply (allocate_page_eq _ _ Hk)|].
  pose proof (page_addr_pos k HP) as Hpos.
  destruct (Z.eqb_spec (page_addr k) 0) as [E|_]; [lia|].
  destruct (Z.eq_dec (num_procs (proc_table s)) 0) as [Hn|Hn].
  { eapply wp_step; [now apply current_proc_none|].
    eapply wp_step; [apply release_page_eq|].
    apply wp_ret. split; [reflexivity|]. split; [reflexivity|]. unfold freeram. knorm.
    rewrite (release_undoes_allocate _ _ HP Hk). auto. }
  destruct Hfail as [?|[?|Hfull]]; [discriminate | contradiction |].
  destruct (Hpar Hn) as (pp & Hpp & Hlp).
  eapply wp_step; [now apply current_proc_some|]. knorm.
  set (par := curr_proc (proc_table s)) in *.
  kstep. kstep. kstep. kstep.
  eapply wp_step.
  { apply alloc_process_none.
    - eauto 60 with kslot.
    - knorm. exact Hl.
    - intros j q. destruct (Z.eq_dec j par) as [->|Hj]; [now left|].
      slot_norm. apply Hfull. }
  knorm. kstep. kstep. kstep.
  split; [reflexivity|]. split; [reflexivity|]. unfold freeram. knorm.
  rewrite (release_undoes_allocate _ _ HP Hk).
  split; [reflexivity|]. split; [reflexivity|]. split; [reflexivity|].
  intros j. destruct (Z.eq_dec j par) as [->|Hj].
  - slot_norm. now rewrite Hpp.
  - slot_norm. reflexivity.
Qed.

(** ** [proc_fork]: the successful path *)

Lemma get_reg_set_same i v t : (i < length (regs t))%nat -> get_reg i (set_reg i v t) = v.
Proof. intros H. unfold get_reg, set_reg. cbn [regs set_regs]. now rewrite list_lookup_insert_eq. Qed.

Lemma get_reg_set_other i j v t : i <> j -> get_reg i (set_reg j v t) = get_reg i t.
Proof. intros H. unfold get_reg, set_reg. cbn [regs set_regs]. now rewrite list_lookup_insert_ne. Qed.

Lemma length_set_reg i v t : length (regs (set_reg i v t)) = length (regs t).
Proof. unfold set_reg. cbn [regs set_regs]. apply length_insert. Qed.

Lemma pc_set_reg i v t : pc (set_reg i v t) = pc t.
Proof. reflexivity. Qed.

Lemma to_regsize_small z : 32 <= XLEN -> 0 <= z < 2 ^ 32 -> to_regsize z = z.
Proof.
  intros Hx Hz. unfold to_regsize. apply Z.mod_small.
  pose proof (Z.pow_le_mono_r 2 32 XLEN). lia.
Qed.

(** The offset of a stack pointer in its page survives the move to another
    page, in the arithmetic of [regsize_t]. *)
Lemma same_offset page ptr old_page :
  32 <= XLEN ->
  to_regsize (to_regsize (page + to_regsize (ptr - to_regsize old_page)) - page)
  = to_regsize (ptr - old_page).
Proof.
  intros Hx. unfold to_regsize.
  assert (0 < 2 ^ XLEN) by (apply Z.pow_pos_nonneg; lia).
  rewrite Zminus_mod_idemp_l.
  replace (page + (ptr - old_page mod 2 ^ XLEN) mod 2 ^ XLEN - page)
    with ((ptr - old_page mod 2 ^ XLEN) mod 2 ^ XLEN) by lia.
  rewrite Z.mod_mod by lia. apply Zminus_mod_idemp_r.
Qed.

(** Without wrap-around the offset is the same number, and a pointer into
    the old page becomes a pointer into the new one. *)
Lemma same_offset_in_page page ptr old_page :
  32 <= XLEN ->
  0 <= old_page -> old_page <= ptr <= old_page + PAGE_SIZE ->
  0 <= page -> page + PAGE_SIZE < 2 ^ XLEN -> old_page + PAGE_SIZE < 2 ^ XLEN ->
  to_regsize (page + to_regsize (ptr - to_regsize old_page)) - page = ptr - old_page.
Proof.
  intros Hx Ho Hp Hpg Hb1 Hb2. unfold to_regsize.
  rewrite (Z.mod_small old_page) by lia.
  rewrite (Z.mod_small (ptr - old_page)) by lia.
  rewrite Z.mod_small by lia. lia.
Qed.

Lemma copy_bytes_read d c s off :
  0 <= off < PAGE_SIZE -> memory (copy_bytes d c s) (d + off) = memory s (c + off).
Proof.
  intros Ho. unfold copy_bytes. cbn [memory set_memory].
  destruct (Z.leb_spec d (d + off)); [|lia].
  destruct (Z.ltb_spec (d + off) (d + PAGE_SIZE)); [|lia].
  cbn [andb]. f_equal. lia.
Qed.

Lemma platform_regs :
  PlatformOk P ->
  ((REG_RA < 32)%nat /\ (REG_SP < 32)%nat /\ (REG_FP < 32)%nat /\
   (REG_A0 < 32)%nat /\ (REG_A1 < 32)%nat) /\
  (REG_RA <> REG_SP /\ REG_RA <> REG_FP /\ REG_RA <> REG_A0 /\ REG_RA <> REG_A1 /\
   REG_SP <> REG_FP /\ REG_SP <> REG_A0 /\ REG_SP <> REG_A1 /\
   REG_FP <> REG_A0 /\ REG_FP <> REG_A1 /\ REG_A0 <> REG_A1).
Proof.
  intros [_ _ _ _ Hr Hd]. split.
  - rewrite !Forall_cons in Hr. tauto.
  - rewrite !NoDup_cons, !not_elem_of_cons in Hd. tauto.
Qed.

(** C5: after a successful [proc_fork] the child's saved registers are the
    parent's, register by register, except [a0], [sp] and [fp]: the child's
    [a0] is 0 and the [a0] of the trap frame, which the parent returns with,
    is the child's pid; the child's [sp] and [fp] are at the offsets of the
    parent's, from the child's new stack page, whose bytes are those of the
    parent's page. *)
Theorem proc_fork_child_context (s : kstate) (k : nat) (par c : Z) (pp pc0 : process_t) :
  PlatformOk P ->
  table_ok s ->
  frame_ok (trap_frame s) -> frame_ok (context pp) -> frame_ok (context pc0) ->
  table_lock (proc_table s) = false ->
  num_procs (proc_table s) <> 0 ->
  0 <= pid_counter (proc_table s) < 2 ^ 32 ->
  first_free (page_bitmap s) = Some k ->
  curr_proc (proc_table s) = par ->
  slot par s = Some pp -> lock pp = false ->
  first_available s c ->
  slot c s = Some pc0 -> lock pc0 = false ->
  exists s' child parent',
    proc_fork s = Ok (pid child) s' /\
    slot c s' = Some child /\ slot par s' = Some parent' /\
    pid child = pid_counter (proc_table s) /\
    state child = PROC_STATE_READY /\
    parent child = Some par /\
    stack_page child = page_addr k /\
    stack_page parent' = stack_page pp /\
    pc (context child) = pc (context parent') /\
    pc (context parent') = pc (trap_frame s) /\
    (forall i, (i < 32)%nat -> i <> REG_A0 -> i <> REG_SP -> i <> REG_FP ->
       get_reg i (context child) = get_reg i (context parent') /\
       get_reg i (context child) = get_reg i (trap_frame s')) /\
    get_reg REG_A0 (context child) = 0 /\
    get_reg REG_A0 (trap_frame s') = pid child /\
    to_regsize (get_reg REG_SP (context child) - stack_page child)
      = to_regsize (get_reg REG_SP (context parent') - stack_page parent') /\
    to_regsize (get_reg REG_FP (context child) - stack_page child)
      = to_regsize (get_reg REG_FP (context parent') - stack_page parent') /\
    (forall r, r = REG_SP \/ r = REG_FP ->
       0 <= stack_page parent' ->
       stack_page parent' + PAGE_SIZE < 2 ^ XLEN ->
       stack_page child + PAGE_SIZE < 2 ^ XLEN ->
       stack_page parent' <= get_reg r (context parent') <= stack_page parent' + PAGE_SIZE ->
       get_reg r (context child) - stack_page child
         = get_reg r (context parent') - stack_page parent' /\
       stack_page child <= get_reg r (context child) <= stack_page child + PAGE_SIZE) /\
    (forall off, 0 <= off < PAGE_SIZE ->
       memory s' (stack_page child + off) = memory s (stack_page parent' + off)).
Proof.
  intros HP Ht Hftf Hfpp Hfpc Hl Hn Hpidc Hk Hcur Hpp Hlp Hfirst Hpc Hlc.
  pose proof (page_addr_pos k HP) as Hpos.
  assert (Hcp : c <> par) by (destruct Hfirst as [Hne _]; congruence).
  destruct (platform_regs HP) as
    ((_ & Hsp & Hfp & Ha0 & _) & (_ & _ & _ & _ & Hspfp & Hspa0 & _ & Hfpa0 & _)).
  destruct HP as [_ _ _ Hx _ _].
  match goal with
  | |- exists s' child parent', _ = Ok (pid child) s' /\ @?Q s' child parent' =>
    enough (Hwp : wp proc_fork
              (fun a s' => exists child parent', a = pid child /\ Q s' child parent') s)
  end.
  { apply wp_ok in Hwp. destruct Hwp as (a & s' & Hrun & child & parent' & -> & HQ).
    exists s', child, parent'. split; [exact Hrun | exact HQ]. }
  unfold proc_fork.
  eapply wp_step; [apply (allocate_page_eq _ _ Hk)|].
  destruct (Z.eqb_spec (page_addr k) 0) as [E|_]; [lia|].
  eapply wp_step; [apply current_proc_some; assumption|].
  knorm. rewrite Hcur.
  kstep. kstep. kstep. kstep.
  eapply wp_step.
  { eapply (alloc_process_some _ c pc0).
    - eauto 60 with kslot.
    - knorm. exact Hl.
    - destruct Hfirst as (Hne & (q & Hq & Hst) & Hbefore).
      split; [knorm; exact Hne|]. split.
      + exists q. split; [slot_solve | exact Hst].
      + intros j q'. knorm. rewrite Hcur.
        destruct (Z.eq_dec j par) as [->|Hj]; [now left|].
        slot_norm. intros Hlt Hsl. rewrite <- Hcur. exact (Hbefore _ _ Hlt Hsl).
    - slot_solve.
    - exact Hlc. }
  knorm.
  eapply wp_step; [apply alloc_pid_eq; knorm; exact Hl|]. knorm.
  repeat kstep.
  eexists _, _.
  split; [|split; [slot_solve | split; [slot_solve|]]]; fields; [reflexivity|].
  knorm.
  set (PC := copy_context (set_pc (pc (trap_frame s)) (context pp)) (trap_frame s)).
  assert (HfPC : frame_ok PC) by (apply copy_context_frame_ok; exact Hfpp).
  set (CC := copy_context (set_pc (pc PC) (context pc0)) PC).
  assert (HfCC : frame_ok CC) by (apply copy_context_frame_ok; exact Hfpc).
  assert (HpcCC : pc CC = pc PC) by (unfold CC; now rewrite copy_context_pc).
  assert (HpcPC : pc PC = pc (trap_frame s)) by (unfold PC; now rewrite copy_context_pc).
  unfold frame_ok in HfCC, Hftf.
  do 5 (split; [reflexivity|]).
  split; [rewrite !pc_set_reg; exact HpcCC|].
  split; [exact HpcPC|].
  split.
  { intros i Hi Hia0 Hisp Hifp.
    rewrite !get_reg_set_other by assumption.
    assert (E : get_reg i CC = get_reg i PC) by (now apply copy_context_reg).
    split; [exact E|]. rewrite E. now apply copy_context_reg. }
  split.
  { apply get_reg_set_same. rewrite !length_set_reg, HfCC. lia. }
  split.
  { rewrite get_reg_set_same by (rewrite Hftf; lia). now apply to_regsize_small. }
  split.
  { rewrite !(get_reg_set_other REG_SP) by assumption.
    rewrite get_reg_set_same by (rewrite HfCC; lia).
    now apply same_offset. }
  split.
  { rewrite (get_reg_set_other REG_FP REG_A0) by assumption.
    rewrite get_reg_set_same by (rewrite length_set_reg, HfCC; lia).
    now apply same_offset. }
  split.
  { intros r Hr Hpg Hb1 Hb2 Hin.
    assert (E : get_reg r (set_reg REG_A0 0
                  (set_reg REG_FP
                     (to_regsize (page_addr k + to_regsize (get_reg REG_FP PC - to_regsize (stack_page pp))))
                     (set_reg REG_SP
                        (to_regsize (page_addr k + to_regsize (get_reg REG_SP PC - to_regsize (stack_page pp))))
                        CC))) - page_addr k
                = get_reg r PC - stack_page pp).
    { destruct Hr as [-> | ->].
      - rewrite !(get_reg_set_other REG_SP) by assumption.
        rewrite get_reg_set_same by (rewrite HfCC; lia).
        apply same_offset_in_page; auto; lia.
      - rewrite (get_reg_set_other REG_FP REG_A0) by assumption.
        rewrite get_reg_set_same by (rewrite length_set_reg, HfCC; lia).
        apply same_offset_in_page; auto; lia. }
    split; [exact E | lia]. }
  intros off Hoff. rewrite copy_bytes_read by exact Hoff.
  autorewrite with kproj. reflexivity.
Qed.

(** ** [proc_execv] *)

Lemma to_regsize_idem z : 32 <= XLEN -> to_regsize (to_regsize z) = to_regsize z.
Proof.
  intros Hx. unfold to_regsize. apply Z.mod_mod.
  assert (0 < 2 ^ XLEN) by (apply Z.pow_pos_nonneg; lia). lia.
Qed.

(** X23: what a successful [proc_execv] leaves.  The caller's slot has the
    entry point of the program as its [pc] and in [ra], the end of the new
    stack page in [sp] and [fp], the constant 7 in [a0] and [argv] in [a1],
    the name of the program and the new stack page; the old stack page is
    released; the registers of the trap frame are those of the slot and its
    [pc] is what it was. *)
Lemma proc_execv_context (s : kstate) (filename : string) (argv : Z)
      (program : user_program_t) (k : nat) (proc : Z) (p : process_t) :
  PlatformOk P ->
  find_user_program filename = Some program ->
  first_free (page_bitmap s) = Some k ->
  table_lock (proc_table s) = false ->
  num_procs (proc_table s) <> 0 ->
  curr_proc (proc_table s) = proc ->
  slot proc s = Some p -> lock p = false ->
  frame_ok (context p) -> frame_ok (trap_frame s) ->
  exists s' p',
    proc_execv (Some filename) argv s = Ok 0 s' /\
    slot proc s' = Some p' /\
    pc (context p') = to_regsize (entry_point program) /\
    get_reg REG_RA (context p') = pc (context p') /\
    get_reg REG_SP (context p') = to_regsize (page_addr k + PAGE_SIZE) /\
    get_reg REG_FP (context p') = to_regsize (page_addr k + PAGE_SIZE) /\
    get_reg REG_A0 (context p') = 7 /\
    get_reg REG_A1 (context p') = to_regsize argv /\
    name p' = prog_name program /\
    stack_page p' = page_addr k /\
    page_bitmap s' = clear_bit (stack_page p) (<[k := true]> (page_bitmap s)) /\
    (forall i, (i < 32)%nat -> get_reg i (trap_frame s') = get_reg i (context p')) /\
    pc (trap_frame s') = pc (trap_frame s).
Proof.
  intros HP Hprog Hk Hl Hn Hcur Hp Hlp Hfp Hftf.
  pose proof (page_addr_pos k HP) as Hpos.
  destruct (platform_regs HP) as
    ((Hra & Hsp & Hfpr & Ha0 & Ha1) &
     (Hrasp & Hrafp & Hraa0 & Hraa1 & Hspfp & Hspa0 & Hspa1 & Hfpa0 & Hfpa1 & Ha0a1)).
  destruct HP as [_ _ _ Hx _ _].
  match goal with
  | |- exists s' p', _ = Ok 0 s' /\ @?Q s' p' =>
    enough (Hwp : wp (proc_execv (Some filename) argv)
              (fun a s' => a = 0 /\ exists p', Q s' p') s)
  end.
  { apply wp_val in Hwp. destruct Hwp as (s' & Hrun & p' & HQ). eauto. }
  unfold proc_execv. rewrite Hprog.
  eapply wp_step; [apply (allocate_page_eq _ _ Hk)|].
  destruct (Z.eqb_spec (page_addr k) 0) as [E|_]; [lia|].
  eapply wp_step; [apply current_proc_some; assumption|].
  knorm. rewrite Hcur.
  repeat kstep.
  split; [reflexivity|]. eexists.
  split; [slot_solve|]. fields. knorm.
  unfold frame_ok in Hfp, Hftf.
  assert (Hlen : forall t v, length (regs (set_pc v t)) = length (regs t)) by reflexivity.
  repeat split.
  - rewrite !(get_reg_set_other REG_RA) by congruence.
    rewrite get_reg_set_same by (rewrite Hlen, Hfp; lia).
    now apply to_regsize_idem.
  - rewrite !(get_reg_set_other REG_SP) by congruence.
    apply get_reg_set_same. rewrite !length_set_reg, Hlen, Hfp. lia.
  - rewrite !(get_reg_set_other REG_FP) by congruence.
    apply get_reg_set_same. rewrite !length_set_reg, Hlen, Hfp. lia.
  - rewrite !(get_reg_set_other REG_A0) by congruence.
    apply get_reg_set_same. rewrite !length_set_reg, Hlen, Hfp. lia.
  - apply get_reg_set_same. rewrite !length_set_reg, Hlen, Hfp. lia.
  - intros i Hi. apply copy_context_reg; assumption.
Qed.

(** * Further properties of [proc.c] *)

(** ** [alloc_process] *)

(** Either no slot can be taken, or there is a first one that can. *)
Lemma first_available_below s (n : nat) :
  table_ok s -> Z.of_nat n <= MAX_PROCS ->
  (forall j p, j < Z.of_nat n -> slot j s = Some p ->
     j = curr_proc (proc_table s) \/ state p <> PROC_STATE_AVAILABLE) \/
  exists c, first_available s c.
Proof.
  intros Ht. induction n as [|n IH]; intros Hn.
  - left. intros j p Hj Hp. pose proof (slot_nonneg _ _ _ Hp). lia.
  - destruct IH as [Hskip | Hex]; [lia | | now right].
    destruct (slot_table_ok (Z.of_nat n) s Ht) as [p Hp]; [lia|].
    destruct (Z.eq_dec (Z.of_nat n) (curr_proc (proc_table s))) as [Hc|Hc].
    + left. intros j q Hj Hq. destruct (Z.eq_dec j (Z.of_nat n)) as [->|Hne]; [now left|].
      apply (Hskip j q); [lia | exact Hq].
    + destruct (state p) eqn:Est.
      * right. exists (Z.of_nat n). split; [exact Hc|]. split; [eauto | exact Hskip].
      * left. intros j q Hj Hq. destruct (Z.eq_dec j (Z.of_nat n)) as [->|Hne].
        -- right. assert (q = p) by congruence. subst q. rewrite Est. discriminate.
        -- apply (Hskip j q); [lia | exact Hq].
      * left. intros j q Hj Hq. destruct (Z.eq_dec j (Z.of_nat n)) as [->|Hne].
        -- right. assert (q = p) by congruence. subst q. rewrite Est. discriminate.
        -- apply (Hskip j q); [lia | exact Hq].
      * left. intros j q Hj Hq. destruct (Z.eq_dec j (Z.of_nat n)) as [->|Hne].
        -- right. assert (q = p) by congruence. subst q. rewrite Est. discriminate.
        -- apply (Hskip j q); [lia | exact Hq].
Qed.

Lemma table_full_or_first_available s :
  table_ok s -> table_full s \/ exists c, first_available s c.
Proof.
  intros Ht. destruct (Z.le_gt_cases 0 MAX_PROCS) as [Hm|Hm].
  - destruct (first_available_below s (Z.to_nat MAX_PROCS) Ht) as [Hskip|Hex];
      [lia | left | now right].
    intros j p Hp. apply (Hskip j p); [|exact Hp].
    pose proof (slot_range _ _ _ Ht Hp). lia.
  - left. intros j p Hp. pose proof (slot_range _ _ _ Ht Hp). lia.
Qed.

(** X1: [alloc_process] takes the first [AVAILABLE] slot that is not the slot
    of [curr_proc]: it returns that slot, now [READY] and with its lock still
    held, has counted it in [num_procs], has released the table lock and has
    touched no other slot. *)
Theorem alloc_process_takes_first_available (s : kstate) (c : Z) (p : process_t) :
  table_ok s ->
  table_lock (proc_table s) = false ->
  first_available s c ->
  slot c s = Some p -> lock p = false ->
  exists s',
    alloc_process s = Ok (Some c) s' /\
    c <> curr_proc (proc_table s) /\
    slot c s' = Some (set_state PROC_STATE_READY (set_lock true p)) /\
    (forall j, j <> c -> slot j s' = slot j s) /\
    num_procs (proc_table s') = num_procs (proc_table s) + 1 /\
    table_lock (proc_table s') = false /\
    curr_proc (proc_table s') = curr_proc (proc_table s) /\
    pid_counter (proc_table s') = pid_counter (proc_table s) /\
    page_bitmap s' = page_bitmap s /\
    trap_frame s' = trap_frame s.
Proof.
  intros Ht Hl Hfirst Hp Hlp. eexists.
  split; [exact (alloc_process_some s c p Ht Hl Hfirst Hp Hlp)|].
  split; [exact (proj1 Hfirst)|].
  split; [slot_solve|].
  split; [intros j Hj; slot_norm; reflexivity|].
  knorm. rewrite Hl. repeat split.
Qed.

(** X2: [alloc_process] returns null exactly when no slot other than the
    slot of [curr_proc] is [AVAILABLE], and then leaves the state as it
    was. *)
Theorem alloc_process_null_iff_full (s : kstate) :
  table_ok s ->
  table_lock (proc_table s) = false ->
  locks_free s ->
  exists r s',
    alloc_process s = Ok r s' /\
    (r = None <-> table_full s) /\
    (r = None -> s' = s).
Proof.
  intros Ht Hl Hfree.
  destruct (table_full_or_first_available s Ht) as [Hfull | [c Hfirst]].
  - exists None, s. split; [now apply alloc_process_none|]. tauto.
  - destruct Hfirst as (Hne & (p & Hp & Hst) & Hbefore).
    eexists (Some c), _. split.
    + apply (alloc_process_some s c p Ht Hl); [|exact Hp | exact (Hfree _ _ Hp)].
      split; [exact Hne|]. split; [eauto | exact Hbefore].
    + split; [|discriminate]. split; [discriminate|].
      intros Hfull. destruct (Hfull _ _ Hp) as [?|?]; contradiction.
Qed.

(** ** [proc_execv]: the failing paths *)

Lemma count_free_take bm k :
  bm !! k = Some false -> count_free (<[k := true]> bm) = count_free bm - 1.
Proof.
  revert k. induction bm as [|b bm IH]; intros k H; [discriminate|].
  destruct k as [|k].
  - inversion H. subst b.
    change (<[0%nat := true]> (false :: bm)) with (true :: bm). cbn [count_free]. lia.
  - change (<[S k := true]> (b :: bm)) with (b :: <[k := true]> bm).
    cbn [count_free]. rewrite (IH k H). lia.
Qed.

Lemma count_free_give bm k :
  bm !! k = Some true -> count_free (<[k := false]> bm) = count_free bm + 1.
Proof.
  revert k. induction bm as [|b bm IH]; intros k H; [discriminate|].
  destruct k as [|k].
  - inversion H. subst b.
    change (<[0%nat := false]> (true :: bm)) with (false :: bm). cbn [count_free]. lia.
  - change (<[S k := false]> (b :: bm)) with (b :: <[k := false]> bm).
    cbn [count_free]. rewrite (IH k H). lia.
Qed.

(** X3: [proc_execv] with a null file name, with a name that is not in the
    table of programs, or with no free page, returns -1 (as a [uint32_t]) and
    has changed nothing. *)
Theorem proc_execv_failure_changes_nothing (filename : option string) (argv : Z) (s : kstate) :
  filename = None \/
  (exists f, filename = Some f /\ find_user_program f = None) \/
  first_free (page_bitmap s) = None ->
  proc_execv filename argv s = Ok (wrap32 (-1)) s /\ wrap32 (-1) = 4294967295.
Proof.
  intros H. split; [|reflexivity]. unfold proc_execv.
  destruct filename as [f|]; [|reflexivity].
  destruct (find_user_program f) as [program|] eqn:Ef; [|reflexivity].
  destruct H as [H | [(f' & Hf & Hnone) | Hfull]].
  - discriminate.
  - inversion Hf. subst f'. congruence.
  - now rewrite (bind_eq _ _ _ _ _ (allocate_page_none _ Hfull)).
Qed.

(** X4: [proc_execv] called when there is no process ([current_proc] is
    null) returns -1 after it has allocated the new stack page, which it does
    not release: one page less is free, and the table lock is left held. *)
Theorem proc_execv_without_process_keeps_page
        (f : string) (argv : Z) (program : user_program_t) (k : nat) (s : kstate) :
  PlatformOk P ->
  find_user_program f = Some program ->
  first_free (page_bitmap s) = Some k ->
  table_lock (proc_table s) = false ->
  num_procs (proc_table s) = 0 ->
  exists s',
    proc_execv (Some f) argv s = Ok (wrap32 (-1)) s' /\
    page_bitmap s' = <[k := true]> (page_bitmap s) /\
    freeram s' = freeram s - 1 /\
    table_lock (proc_table s') = true /\
    procs (proc_table s') = procs (proc_table s) /\
    trap_frame s' = trap_frame s.
Proof.
  intros HP Hf Hk Hl Hn. pose proof (page_addr_pos k HP) as Hpos.
  eexists. unfold proc_execv. rewrite Hf.
  rewrite (bind_eq _ _ _ _ _ (allocate_page_eq _ _ Hk)).
  destruct (Z.eqb_spec (page_addr k) 0) as [E|_]; [lia|].
  erewrite bind_eq by (apply current_proc_none; assumption).
  split; [reflexivity|]. split; [reflexivity|].
  split; [|repeat split].
  unfold freeram. cbn [page_bitmap upd_table set_proc_table set_page_bitmap].
  apply count_free_take. now apply first_free_lookup.
Qed.

(** ** [copy_context]: save and restore *)

Lemma copy_context_regs dst src :
  frame_ok dst -> frame_ok src -> regs (copy_context dst src) = regs src.
Proof.
  intros Hd Hs. rewrite (copy_context_regs_get _ _ Hd). destruct src as [l p].
  unfold frame_ok in Hs. cbn [regs] in *. unfold get_reg. cbn [regs].
  do 32 (destruct l as [|? l]; [discriminate Hs|]).
  destruct l; [reflexivity | discriminate Hs].
Qed.

Lemma trap_frame_eq (a b : trap_frame_t) : regs a = regs b -> pc a = pc b -> a = b.
Proof. destruct a, b. cbn. now intros -> ->. Qed.

(** X5: saving a register file with [copy_context] and loading it back
    gives the register file that was saved: the 32 registers of the copy are
    those of the source, copying twice is copying once, and the way back
    restores the source exactly, [pc] included. *)
Theorem copy_context_save_restore (tf ctx : trap_frame_t) :
  frame_ok tf -> frame_ok ctx ->
  regs (copy_context ctx tf) = regs tf /\
  copy_context (copy_context ctx tf) tf = copy_context ctx tf /\
  copy_context tf (copy_context ctx tf) = tf.
Proof.
  intros Ht Hc.
  pose proof (copy_context_frame_ok ctx tf Hc) as Hc'.
  split; [now apply copy_context_regs|]. split.
  - apply trap_frame_eq.
    + now rewrite !copy_context_regs.
    + now rewrite !copy_context_pc.
  - apply trap_frame_eq.
    + now rewrite !copy_context_regs.
    + now rewrite copy_context_pc.
Qed.

(** ** System calls made when there is no process *)

(** X6: with [num_procs == 0], [wait], [sleep] and [exit] return at once
    ([wait] and [sleep] with -1): no slot, no register and no page is
    touched, the scheduler is not called, and the table lock that
    [current_proc] took is left held. *)
Theorem syscalls_without_process (s : kstate) (ms : Z) :
  table_lock (proc_table s) = false ->
  num_procs (proc_table s) = 0 ->
  proc_wait s = Ok (-1) (upd_table (set_table_lock true) s) /\
  proc_sleep ms s = Ok (-1) (upd_table (set_table_lock true) s) /\
  proc_exit s = Ok tt (upd_table (set_table_lock true) s) /\
  hart_log (upd_table (set_table_lock true) s) = hart_log s /\
  procs (proc_table (upd_table (set_table_lock true) s)) = procs (proc_table s).
Proof.
  intros Hl Hn. pose proof (current_proc_none s Hl Hn) as Hcur.
  repeat split.
  - unfold proc_wait, wait_or_sleep. now rewrite (bind_eq _ _ _ _ _ Hcur).
  - unfold proc_sleep, wait_or_sleep, time_get_now.
    rewrite (bind_eq _ _ _ _ _ (get_eq _ _)). now rewrite (bind_eq _ _ _ _ _ Hcur).
  - unfold proc_exit. now rewrite (bind_eq _ _ _ _ _ Hcur).
Qed.

(** ** [schedule_user_process]: what it leaves alone *)

Lemma map_slot_fixed_insert (l : list process_t) j p q :
  l !! j = Some p -> slot_fixed q = slot_fixed p ->
  map slot_fixed (<[j := q]> l) = map slot_fixed l.
Proof.
  intros Hp Hq.
  change (slot_fixed <$> <[j := q]> l = slot_fixed <$> l).
  rewrite list_fmap_insert, Hq. apply list_insert_id.
  now rewrite list_lookup_fmap, Hp.
Qed.

Lemma outside_modify_proc j g :
  (forall p, slot_fixed (g p) = slot_fixed p) ->
  preserves outside_scheduler (modify_proc j g).
Proof.
  intros Hg s a s' H. unfold modify_proc in H.
  destruct (slot j s) as [p|] eqn:Hp.
  - rewrite (bind_eq _ _ _ _ _ (deref_eq _ _ _ Hp)) in H. inversion H.
    unfold outside_scheduler. cbn. unfold slot in Hp.
    destruct (j <? 0); [discriminate|].
    now rewrite (map_slot_fixed_insert _ _ _ _ Hp (Hg p)).
  - unfold bind in H. rewrite deref_slot, Hp in H. discriminate.
Qed.

Lemma outside_modify_table g :
  (forall t, procs (g t) = procs t /\ pid_counter (g t) = pid_counter t
             /\ num_procs (g t) = num_procs t) ->
  preserves outside_scheduler (modify_table g).
Proof.
  intros Hg. apply preserves_modify. intros s. unfold outside_scheduler. cbn.
  destruct (Hg (proc_table s)) as (-> & -> & ->). reflexivity.
Qed.

Lemma outside_acquire_table : preserves outside_scheduler acquire_table.
Proof.
  intros s a s' H. unfold acquire_table in H.
  destruct (table_lock (proc_table s)); inversion H. reflexivity.
Qed.

Lemma outside_acquire j : preserves outside_scheduler (acquire j).
Proof.
  apply preserves_bind; [apply preserves_deref|]. intros p.
  destruct (lock p); [apply preserves_fail; discriminate|].
  now apply outside_modify_proc.
Qed.

Lemma outside_find_ready_loop fuel orig curr :
  preserves outside_scheduler (find_ready_loop fuel orig curr).
Proof.
  revert curr. induction fuel as [|fuel IH]; intros curr; simpl.
  - apply preserves_fail. discriminate.
  - set (c := if curr + 1 >=? MAX_PROCS then 0 else curr + 1).
    assert (Hcont : preserves outside_scheduler
      (if negb (c =? orig) then find_ready_loop fuel orig c else ret c)).
    { apply preserves_if; [apply IH | apply preserves_ret]. }
    apply preserves_bind; [apply preserves_deref|]. intros p.
    apply preserves_if; [apply preserves_ret|].
    apply preserves_if; [|exact Hcont].
    apply preserves_bind; [apply preserves_should_wake_up|]. intros w.
    apply preserves_if; [|exact Hcont].
    apply preserves_bind; [now apply outside_modify_proc|]. intros _.
    apply preserves_ret.
Qed.

Lemma outside_find_ready_proc curr : preserves outside_scheduler (find_ready_proc curr).
Proof.
  unfold find_ready_proc.
  apply preserves_bind; [apply outside_find_ready_loop|]. intros proc.
  apply preserves_bind; [now apply outside_modify_table|]. intros _.
  apply preserves_bind; [apply preserves_deref|]. intros p.
  apply preserves_if; apply preserves_ret.
Qed.

Ltac outside_step :=
  lazymatch goal with
  | |- preserves _ (bind _ _) => apply preserves_bind; [|intros ?]
  | |- preserves _ (ret _) => apply preserves_ret
  | |- preserves _ (get _) => apply preserves_get
  | |- preserves _ time_get_now => apply preserves_time_get_now
  | |- preserves _ (deref _) => apply preserves_deref
  | |- preserves _ (modify_table _) => apply outside_modify_table; intros ?; repeat split
  | |- preserves _ (modify_proc _ _) => apply outside_modify_proc; intros ?; reflexivity
  | |- preserves _ acquire_table => apply outside_acquire_table
  | |- preserves _ release_table => apply outside_modify_table; intros ?; repeat split
  | |- preserves _ (acquire _) => apply outside_acquire
  | |- preserves _ (release _) => apply outside_modify_proc; intros ?; reflexivity
  | |- preserves _ (hart_call _) => apply preserves_modify; intros ?; reflexivity
  | |- preserves _ (find_ready_proc _) => apply outside_find_ready_proc
  | |- preserves _ (if _ then _ else _) => apply preserves_if
  | |- preserves _ (match ?x with _ => _ end) => destruct x
  | |- preserves _ (modify _) => apply preserves_modify; intros ?; reflexivity
  | |- preserves _ (let _ := _ in _) => cbv zeta
  end.

Lemma outside_schedule_user_process : preserves outside_scheduler schedule_user_process.
Proof. unfold schedule_user_process. repeat outside_step. Qed.

(** The table lock is free when the scheduler returns. *)
Lemma ensures_bind_r {A B} Q (m : K A) (k : A -> K B) :
  (forall a, ensures Q (k a)) -> ensures Q (bind m k).
Proof.
  intros Hk s b s' H. unfold bind in H.
  destruct (m s) as [a s1| | |] eqn:E; try discriminate. exact (Hk a _ _ _ H).
Qed.

Lemma ensures_then {A B X} (f : kstate -> X) (v : X) (m : K A) (k : A -> K B) :
  ensures (fun s => f s = v) m -> (forall a, preserves f (k a)) ->
  ensures (fun s => f s = v) (bind m k).
Proof.
  intros Hm Hk s b s' H. unfold bind in H.
  destruct (m s) as [a s1| | |] eqn:E; try discriminate.
  rewrite (Hk a _ _ _ H). exact (Hm _ _ _ E).
Qed.

Lemma ensures_release_table :
  ensures (fun s => table_lock (proc_table s) = false) release_table.
Proof. intros s a s' H. inversion H. reflexivity. Qed.

Lemma ensures_if {A} Q (b : bool) (m1 m2 : K A) :
  ensures Q m1 -> ensures Q m2 -> ensures Q (if b then m1 else m2).
Proof. destruct b; auto. Qed.

Lemma schedule_user_process_unlocks :
  ensures (fun s => table_lock (proc_table s) = false) schedule_user_process.
Proof.
  unfold schedule_user_process.
  do 4 (apply ensures_bind_r; intros ?). cbv zeta.
  apply ensures_if; [apply ensures_release_table|].
  apply ensures_bind_r. intros [proc|].
  - do 5 (apply ensures_bind_r; intros ?).
    apply ensures_then; [apply ensures_release_table|].
    intros ?. apply preserves_modify. intros ?. reflexivity.
  - apply ensures_bind_r. intros ?.
    apply ensures_then; [apply ensures_release_table|].
    intros ?. repeat pres_step; intros ? ?; reflexivity.
Qed.

Lemma outside_slot s s' i p' :
  outside_scheduler s' = outside_scheduler s ->
  slot i s' = Some p' ->
  exists p, slot i s = Some p /\ slot_fixed p' = slot_fixed p.
Proof.
  intros H Hp'.
  assert (Hm : map slot_fixed (procs (proc_table s')) = map slot_fixed (procs (proc_table s)))
    by (unfold outside_scheduler in H; congruence).
  unfold slot in *. destruct (i <? 0); [discriminate|].
  assert (E : (slot_fixed <$> procs (proc_table s')) !! Z.to_nat i
              = (slot_fixed <$> procs (proc_table s)) !! Z.to_nat i).
  { change (map slot_fixed (procs (proc_table s')) !! Z.to_nat i
            = map slot_fixed (procs (proc_table s)) !! Z.to_nat i). now rewrite Hm. }
  rewrite !list_lookup_fmap, Hp' in E.
  destruct (procs (proc_table s) !! Z.to_nat i) as [p|]; [|discriminate].
  exists p. split; [reflexivity|].
  change (Some (slot_fixed p') = Some (slot_fixed p)) in E. congruence.
Qed.

(** X7: whenever [schedule_user_process] returns, on any of its paths, it
    has released the table lock, and it has not touched the pid, name,
    parent, stack page or wake-up time of any slot, the number of slots,
    [pid_counter], [num_procs], the page allocator, the memory or the
    clock: a context switch changes states, saved registers and the cursor,
    nothing else. *)
Theorem schedule_user_process_leaves_alone (s s' : kstate) :
  schedule_user_process s = Ok tt s' ->
  table_lock (proc_table s') = false /\
  length (procs (proc_table s')) = length (procs (proc_table s)) /\
  (forall i p', slot i s' = Some p' ->
     exists p, slot i s = Some p /\
       pid p' = pid p /\ name p' = name p /\ parent p' = parent p /\
       stack_page p' = stack_page p /\ wakeup_time p' = wakeup_time p) /\
  pid_counter (proc_table s') = pid_counter (proc_table s) /\
  num_procs (proc_table s') = num_procs (proc_table s) /\
  page_bitmap s' = page_bitmap s /\
  memory s' = memory s /\
  mtime s' = mtime s.
Proof.
  intros H.
  pose proof (outside_schedule_user_process _ _ _ H) as Hout.
  split; [exact (schedule_user_process_unlocks _ _ _ H)|].
  split.
  { assert (Hm : map slot_fixed (procs (proc_table s')) = map slot_fixed (procs (proc_table s)))
      by (unfold outside_scheduler in Hout; congruence).
    rewrite <- (length_map slot_fixed (procs (proc_table s'))), Hm. apply length_map. }
  split.
  { intros i p' Hp'. destruct (outside_slot _ _ _ _ Hout Hp') as (p & Hp & Hf).
    exists p. split; [exact Hp|]. unfold slot_fixed in Hf. inversion Hf. auto. }
  unfold outside_scheduler in Hout. repeat split; congruence.
Qed.

(** ** [schedule_user_process]: its paths *)

Lemma scan_dist_next c : 0 <= c < MAX_PROCS -> scan_dist c (next_index c) = 1.
Proof.
  intros Hc. unfold scan_dist, next_index.
  destruct (Z.geb_spec (c + 1) MAX_PROCS);
    [destruct (Z.ltb_spec c 0) | destruct (Z.ltb_spec c (c + 1))]; lia.
Qed.

Lemma find_ready_loop_outcome fuel orig curr s :
  table_ok s -> 0 <= orig < MAX_PROCS -> 0 <= curr < MAX_PROCS ->
  scan_dist curr orig <= Z.of_nat fuel ->
  (find_ready_loop fuel orig curr s = Ok orig s /\
   forall i p, scanned curr orig i -> slot i s = Some p -> runnable (mtime s) p = false) \/
  exists j p,
    slot j s = Some p /\ runnable (mtime s) p = true /\
    find_ready_loop fuel orig curr s = Ok j (upd_slot j (set_state PROC_STATE_READY p) s) /\
    forall i q, slot i s = Some q -> scan_dist curr i < scan_dist curr j ->
      runnable (mtime s) q = false.
Proof.
  intros Ht Ho. revert curr. induction fuel as [|fuel IH]; intros curr Hc Hd.
  - pose proof (scan_dist_pos curr orig Hc Ho). lia.
  - destruct (slot_table_ok (next_index curr) s Ht (next_index_range _ Hc)) as [p Hp].
    rewrite (find_ready_loop_step _ _ _ _ _ Hp).
    destruct (runnable (mtime s) p) eqn:Er.
    + right. exists (next_index curr), p. split; [exact Hp|]. split; [exact Er|].
      split; [reflexivity|]. intros i q Hq Hlt.
      rewrite (scan_dist_next _ Hc) in Hlt.
      pose proof (scan_dist_pos curr i Hc (slot_range _ _ _ Ht Hq)). lia.
    + destruct (Z.eqb_spec (next_index curr) orig) as [E|E].
      * left. split; [now rewrite E|]. intros i q Hi Hq.
        pose proof (scanned_last _ _ _ Hc Ho E Hi). subst i. rewrite <- E in Hq. congruence.
      * destruct (IH (next_index curr)) as [[Hrun Hnone] | Hfound].
        -- now apply next_index_range.
        -- rewrite scan_dist_step by assumption. lia.
        -- left. split; [exact Hrun|]. intros i q Hi Hq.
           destruct (Z.eq_dec i (next_index curr)) as [->|Hne]; [congruence|].
           apply (Hnone i q); [|exact Hq]. now apply (scanned_step curr orig i Hc Ho E).
        -- right. destruct Hfound as (j & pj & Hpj & Hrj & Hrun & Hfirst).
           exists j, pj. split; [exact Hpj|]. split; [exact Hrj|]. split; [exact Hrun|].
           intros i q Hq Hlt.
           destruct (Z.eq_dec (next_index curr) i) as [Hi|Hi]; [congruence|].
           assert (Hj : next_index curr <> j) by congruence.
           apply (Hfirst i q Hq).
           rewrite (scan_dist_step curr i Hc (slot_range _ _ _ Ht Hq) Hi).
           rewrite (scan_dist_step curr j Hc (slot_range _ _ _ Ht Hpj) Hj). lia.
Qed.

(** What [find_ready_proc] returns and leaves, in the three ways it can
    end. *)
Lemma find_ready_proc_outcome start s :
  table_ok s -> 0 <= start < MAX_PROCS ->
  (exists p0, slot start s = Some p0 /\ state p0 = PROC_STATE_SLEEPING /\ none_runnable s /\
     find_ready_proc start s = Ok None (upd_table (set_curr_proc start) s)) \/
  (exists j pj st,
     slot j s = Some pj /\ st <> PROC_STATE_SLEEPING /\
     ((runnable (mtime s) pj = true /\ st = PROC_STATE_READY /\
       forall i q, slot i s = Some q -> scan_dist start i < scan_dist start j ->
         runnable (mtime s) q = false) \/
      (j = start /\ st = state pj /\ none_runnable s)) /\
     find_ready_proc start s
       = Ok (Some j) (upd_table (set_curr_proc j) (upd_slot j (set_state st pj) s))).
Proof.
  intros Ht Hs.
  destruct (find_ready_loop_outcome (Z.to_nat MAX_PROCS) start start s Ht Hs Hs)
    as [[Hrun Hnone] | (j & pj & Hpj & Hrj & Hrun & Hfirst)].
  { unfold scan_dist. rewrite Z.ltb_irrefl. lia. }
  - assert (Hnone' : none_runnable s).
    { intros i p Hp. apply (Hnone i p); [|exact Hp].
      apply scanned_all. exact (slot_range _ _ _ Ht Hp). }
    destruct (slot_table_ok start s Ht Hs) as [p0 Hp0].
    assert (Hp0' : slot start (set_proc_table (set_curr_proc start (proc_table s)) s) = Some p0)
      by exact Hp0.
    assert (Hfind : find_ready_proc start s
              = (if proc_state_eqb (state p0) PROC_STATE_SLEEPING then ret None
                 else ret (Some start)) (upd_table (set_curr_proc start) s)).
    { unfold find_ready_proc. rewrite (bind_eq _ _ _ _ _ Hrun).
      unfold modify_table, modify. unfold bind at 1.
      now rewrite (bind_eq _ _ _ _ _ (deref_eq _ _ _ Hp0')). }
    destruct (state p0) eqn:Est; cbn [proc_state_eqb] in Hfind.
    4:{ left. exists p0. auto. }
    all: right; exists start, p0, (state p0); rewrite Est;
      (split; [exact Hp0|]); (split; [discriminate|]); (split; [right; auto|]);
      rewrite Hfind; unfold ret; rewrite <- Est;
      now rewrite (set_state_id _ _ eq_refl), (upd_slot_id _ _ _ Hp0).
  - right. exists j, pj, PROC_STATE_READY.
    split; [exact Hpj|]. split; [discriminate|]. split; [left; auto|].
    assert (Hj' : slot j (set_proc_table (set_curr_proc j
                (proc_table (upd_slot j (set_state PROC_STATE_READY pj) s)))
                (upd_slot j (set_state PROC_STATE_READY pj) s))
                = Some (set_state PROC_STATE_READY pj)).
    { rewrite <- (slot_upd_eq j (set_state PROC_STATE_READY pj) s pj Hpj). reflexivity. }
    unfold find_ready_proc. rewrite (bind_eq _ _ _ _ _ Hrun).
    unfold modify_table, modify. unfold bind at 1.
    now rewrite (bind_eq _ _ _ _ _ (deref_eq _ _ _ Hj')).
Qed.

(** X14: the scan is round robin.  [find_ready_proc] returns, and when it
    returns a slot, either that slot is [READY] or due to wake up and is the
    first such slot in the order of the scan (from the slot after [start],
    wrapping around, [start] itself last): no slot the scan reaches earlier
    is; or no slot at all is [READY] or due, and the slot returned is
    [start] itself, which is not [SLEEPING].  It returns null only when no
    slot is [READY] or due; so when some slot is, the slot returned is one
    of them. *)
Theorem find_ready_proc_round_robin (start : Z) (s : kstate) :
  table_ok s -> 0 <= start < MAX_PROCS ->
  exists r s',
    find_ready_proc start s = Ok r s' /\
    (forall j, r = Some j ->
       exists pj, slot j s = Some pj /\
         ((runnable (mtime s) pj = true /\
           forall i q, slot i s = Some q -> scan_dist start i < scan_dist start j ->
             runnable (mtime s) q = false) \/
          (j = start /\ state pj <> PROC_STATE_SLEEPING /\ none_runnable s))) /\
    (r = None -> none_runnable s) /\
    ((exists i q, slot i s = Some q /\ runnable (mtime s) q = true) ->
     exists j pj, r = Some j /\ slot j s = Some pj /\ runnable (mtime s) pj = true).
Proof.
  intros Ht Hs.
  destruct (find_ready_proc_outcome start s Ht Hs)
    as [(p0 & Hp0 & Hst0 & Hnone & Hfind) | (j & pj & st & Hpj & Hst & Hwhy & Hfind)].
  - eexists _, _. split; [exact Hfind|]. split; [discriminate|]. split; [auto|].
    intros (i & q & Hq & Hr). rewrite (Hnone _ _ Hq) in Hr. discriminate.
  - eexists _, _. split; [exact Hfind|]. split; [|split; [discriminate|]].
    + intros j' Hj'. inversion Hj'. subst j'. exists pj. split; [exact Hpj|].
      destruct Hwhy as [(Hr & _ & Hfirst) | (Hj & Hstj & Hnone)].
      * left. split; [exact Hr | exact Hfirst].
      * right. split; [exact Hj|]. split; [congruence | exact Hnone].
    + intros (i & q & Hq & Hr). exists j, pj. split; [reflexivity|]. split; [exact Hpj|].
      destruct Hwhy as [(Hrj & _) | (_ & _ & Hnone)]; [exact Hrj|].
      rewrite (Hnone _ _ Hq) in Hr. discriminate.
Qed.

Lemma wp_assoc {A B C} (m : K A) (f : A -> K B) (k : B -> K C) Q s :
  wp (bind m (fun a => bind (f a) k)) Q s -> wp (bind (bind m f) k) Q s.
Proof. unfold wp, bind. destruct (m s); auto. Qed.

Ltac kstep' :=
  lazymatch goal with
  | |- wp (bind (bind _ _) _) _ _ => apply wp_assoc
  | |- wp (bind (ret _) _) _ _ => eapply wp_step; [reflexivity | knorm]
  | |- wp (bind (hart_call _) _) _ _ => eapply wp_step; [reflexivity | knorm]
  | |- wp (bind time_get_now _) _ _ => eapply wp_step; [reflexivity | knorm]
  | |- wp (hart_call _) _ _ => eapply wp_eq; [reflexivity|]
  | |- wp release_table _ _ => eapply wp_eq; [reflexivity|]
  | |- _ => kstep
  end.

Lemma set_state_locked st st' p :
  lock p = false ->
  set_lock false (set_state st (set_lock true (set_state st' p))) = set_state st p.
Proof. intros H. destruct p. cbn in *. now subst. Qed.

Lemma set_state_lock_cycle st p :
  lock p = false ->
  set_lock false (set_state st (set_lock true p)) = set_state st p.
Proof. intros H. destruct p. cbn in *. now subst. Qed.

Lemma set_context_locked st c p :
  lock p = false ->
  set_lock false (set_state st (set_context c (set_lock true p)))
  = set_state st (set_context c p).
Proof. intros H. destruct p. cbn in *. now subst. Qed.

Lemma hart_log_upd_table f s : hart_log (upd_table f s) = hart_log s.
Proof. reflexivity. Qed.
Lemma hart_log_upd_slot i q s : hart_log (upd_slot i q s) = hart_log s.
Proof. reflexivity. Qed.
Lemma hart_log_set_trap_frame v s : hart_log (set_trap_frame v s) = hart_log s.
Proof. reflexivity. Qed.
Lemma hart_log_set_hart_log v s : hart_log (set_hart_log v s) = v.
Proof. reflexivity. Qed.
Lemma proc_table_set_hart_log v s : proc_table (set_hart_log v s) = proc_table s.
Proof. reflexivity. Qed.
Lemma trap_frame_set_hart_log v s : trap_frame (set_hart_log v s) = trap_frame s.
Proof. reflexivity. Qed.
Lemma slot_set_hart_log i v s : slot i (set_hart_log v s) = slot i s.
Proof. reflexivity. Qed.

#[local] Hint Rewrite hart_log_upd_table hart_log_upd_slot hart_log_set_trap_frame
  hart_log_set_hart_log proc_table_set_hart_log trap_frame_set_hart_log : kproj.

Ltac slot_norm' := repeat (first [progress slot_norm | rewrite slot_set_hart_log]).

Lemma schedule_user_process_tail s last :
  table_ok s -> 0 < MAX_PROCS ->
  table_lock (proc_table s) = false -> locks_free s ->
  curr_proc (proc_table s) < MAX_PROCS ->

    (last = None /\ no_outgoing s \/
     exists pc, last = Some (curr_proc (proc_table s)) /\ outgoing s pc) ->
    num_procs (proc_table s) <> 0 ->
    wp (proc <- find_ready_proc (scan_start s) ;;
        match proc with
        | Some proc0 =>
            acquire proc0;;
            modify_proc proc0 (set_state PROC_STATE_RUNNING);;
            match last with
            | Some last_proc =>
                lp <- deref last_proc;;
                p <- deref proc0;;
                (if negb (pid lp =? pid p)
                 then
                  acquire last_proc;;
                  tf <- get trap_frame;;
                  modify_proc last_proc
                    (fun q => set_context (copy_context (context q) tf) q);;
                  modify_proc last_proc (set_state PROC_STATE_READY);;
                  release last_proc;;
                  p0 <- deref proc0;;
                  modify (fun s0 => set_trap_frame
                                      (copy_context (trap_frame s0) (context p0)) s0)
                 else ret tt)
            | None =>
                p <- deref proc0;;
                modify (fun s0 => set_trap_frame
                                    (copy_context (trap_frame s0) (context p)) s0)
            end;;
            release proc0;;
            modify_table (set_is_idle false);;
            release_table;; hart_call EvSetUserMode
        | None =>
            modify_table (set_is_idle true);;
            release_table;;
            hart_call EvSetTimerAfterTick;;
            hart_call EvEnableInterrupts;; hart_call EvParkHart
        end)
       (fun _ s' => sched_post s s') (upd_table (set_table_lock true) s).
Proof.
  intros Ht Hmax Hl Hfree Hcp Hlast Hn.
  assert (Hstart : 0 <= scan_start s < MAX_PROCS).
  { unfold scan_start. destruct (Z.ltb_spec (curr_proc (proc_table s)) 0); lia. }
  assert (Ht0 : table_ok (upd_table (set_table_lock true) s)) by exact Ht.
  assert (Hslot0 : forall i, slot i (upd_table (set_table_lock true) s) = slot i s)
    by reflexivity.
  destruct (find_ready_proc_outcome (scan_start s) _ Ht0 Hstart)
    as [(p0 & Hp0 & Hst0 & Hnone & Hfind) | (j & pj & st & Hpj & Hst & Hwhy & Hfind)].
  - (* nothing is ready: the hart is parked *)
    eapply wp_step; [exact Hfind|]. cbv beta iota.
    repeat kstep'.
    right. left. split; [exact Hn|]. exists p0.
    split; [exact Hp0|]. split; [exact Hst0|]. split; [exact Hnone|].
    knorm. repeat split. now rewrite <- !app_assoc.
  - (* slot [j] is elected *)
    eapply wp_step; [exact Hfind|]. cbv beta iota.
    rewrite Hslot0 in Hpj. pose proof (Hfree _ _ Hpj) as Hlj.
    assert (Hwhy' : runnable (mtime s) pj = true \/
                    (j = scan_start s /\ state pj <> PROC_STATE_SLEEPING /\ none_runnable s)).
    { destruct Hwhy as [[Hr _] | (Hj & Hstj & Hnone)]; [now left|].
      right. split; [exact Hj|]. split; [congruence | exact Hnone]. }
    repeat kstep'.
    destruct Hlast as [[-> Hno] | (pc & -> & Hout)].
    + repeat kstep'.
      right. right. split; [exact Hn|]. exists j, pj.
      split; [exact Hpj|]. split; [exact Hwhy'|].
      split; [slot_norm'; now rewrite set_state_locked|].
      split; [reflexivity|]. split; [reflexivity|]. split; [reflexivity|].
      left. split; [exact Hno|]. split; [|reflexivity].
      intros i Hi. slot_norm'. reflexivity.
    + destruct Hout as (Hpc & Hstc & Hidle).
      destruct (Z.eq_dec (curr_proc (proc_table s)) j) as [Hcj|Hcj].
      * (* the elected slot is the slot of [curr_proc] *)
        rewrite Hcj in *. assert (pc = pj) by congruence. subst pc.
        repeat kstep'. rewrite Z.eqb_refl. cbn [negb].
        repeat kstep'.
        right. right. split; [exact Hn|]. exists j, pj.
        split; [exact Hpj|]. split; [exact Hwhy'|].
        split; [slot_norm'; now rewrite set_state_locked|].
        split; [reflexivity|]. split; [reflexivity|]. split; [reflexivity|].
        right. right. exists pj.
        split; [split; [now rewrite Hcj | auto]|]. split; [reflexivity|].
        split; [|reflexivity]. intros i Hi. slot_norm'. reflexivity.
      * repeat kstep'.
        destruct (Z.eqb_spec (pid pc) (pid pj)) as [Hpid|Hpid]; cbn [negb].
        -- repeat kstep'.
           right. right. split; [exact Hn|]. exists j, pj.
           split; [exact Hpj|]. split; [exact Hwhy'|].
           split; [slot_norm'; now rewrite set_state_locked|].
           split; [reflexivity|]. split; [reflexivity|]. split; [reflexivity|].
           right. right. exists pc.
           split; [split; auto|]. split; [exact Hpid|].
           split; [|reflexivity]. intros i Hi. slot_norm'. reflexivity.
        -- pose proof (Hfree _ _ Hpc) as Hlc.
           repeat kstep'.
           right. right. split; [exact Hn|]. exists j, pj.
           split; [exact Hpj|]. split; [exact Hwhy'|].
           split; [slot_norm'; now rewrite set_state_locked|].
           split; [reflexivity|]. split; [reflexivity|]. split; [reflexivity|].
           right. left. exists pc.
           split; [split; auto|]. split; [exact Hcj|]. split; [exact Hpid|].
           split; [slot_norm'; now rewrite set_context_locked|].
           split; [|reflexivity]. intros i Hi Hic. slot_norm'. reflexivity.
Qed.

Lemma schedule_user_process_paths s :
  table_ok s -> 0 < MAX_PROCS ->
  table_lock (proc_table s) = false -> locks_free s ->
  curr_proc (proc_table s) < MAX_PROCS ->
  exists s', schedule_user_process s = Ok tt s' /\ sched_post s s'.
Proof.
  intros Ht Hmax Hl Hfree Hcp. apply wp_unit.
  assert (Hstart : 0 <= scan_start s < MAX_PROCS).
  { unfold scan_start. destruct (Z.ltb_spec (curr_proc (proc_table s)) 0); lia. }
  set (s0 := upd_table (set_table_lock true) s).
  assert (Ht0 : table_ok s0) by exact Ht.
  assert (Hslot0 : forall i, slot i s0 = slot i s) by reflexivity.
  (* the end of the routine once [find_ready_proc] has been called *)
  pose proof (fun last => schedule_user_process_tail s last Ht Hmax Hl Hfree Hcp) as Htail.
  fold s0 in Htail.
  unfold schedule_user_process.
  repeat kstep'. fold s0.
  destruct (Z.eq_dec (num_procs (proc_table s)) 0) as [Hn|Hn].
  { (* no process at all *)
    assert (Hrel : forall (sel : Z * option Z),
              wp (if num_procs (proc_table s) =? 0 then release_table
                  else ret tt) (fun _ s' => sched_post s s') s0).
    { intros _. rewrite Hn. cbn [Z.eqb]. kstep'. left. split; [exact Hn|].
      unfold s0. now apply upd_table_lock_roundtrip. }
    destruct (Z.ltb_spec (curr_proc (proc_table s)) 0) as [Hneg|Hpos].
    - kstep'. rewrite Hn. cbn [Z.eqb]. kstep'. left. split; [exact Hn|].
      unfold s0. now apply upd_table_lock_roundtrip.
    - destruct (slot_table_ok (curr_proc (proc_table s)) s Ht) as [pc Hpc]; [lia|].
      repeat kstep'.
      destruct (proc_state_eqb (state pc) PROC_STATE_AVAILABLE || is_idle (proc_table s));
        kstep'; rewrite Hn; cbn [Z.eqb]; kstep'; left; (split; [exact Hn|]);
        unfold s0; now apply upd_table_lock_roundtrip. }
  apply Z.eqb_neq in Hn as Hnb.
  destruct (Z.ltb_spec (curr_proc (proc_table s)) 0) as [Hneg|Hpos].
  - assert (Hss : scan_start s = 0).
    { unfold scan_start. destruct (Z.ltb_spec (curr_proc (proc_table s)) 0); lia. }
    kstep'. rewrite Hnb.
    assert (Hno : no_outgoing s) by now left.
    pose proof (Htail None (or_introl (conj eq_refl Hno)) Hn) as Hrun.
    rewrite Hss in Hrun. exact Hrun.
  - destruct (slot_table_ok (curr_proc (proc_table s)) s Ht) as [pc Hpc]; [lia|].
    assert (Hss : scan_start s = curr_proc (proc_table s)).
    { unfold scan_start. destruct (Z.ltb_spec (curr_proc (proc_table s)) 0); lia. }
    repeat kstep'.
    destruct (proc_state_eqb (state pc) PROC_STATE_AVAILABLE || is_idle (proc_table s)) eqn:Ecase;
      kstep'; rewrite Hnb.
    + assert (Hno : no_outgoing s).
      { right. exists pc. split; [exact Hpc|].
        apply orb_true_iff in Ecase. destruct Ecase as [E|E]; [left | now right].
        destruct (state pc); try discriminate. reflexivity. }
      pose proof (Htail None (or_introl (conj eq_refl Hno)) Hn) as Hrun.
      rewrite Hss in Hrun. exact Hrun.
    + assert (Hout : outgoing s pc).
      { apply orb_false_iff in Ecase. destruct Ecase as [E1 E2].
        split; [exact Hpc|]. split; [|exact E2]. intros Hav. rewrite Hav in E1. discriminate. }
      pose proof (Htail (Some (curr_proc (proc_table s)))
                    (or_intror (ex_intro _ pc (conj eq_refl Hout))) Hn) as Hrun.
      rewrite Hss in Hrun. exact Hrun.
Qed.

(** ** [schedule_user_process]: what a call does *)

Lemma no_outgoing_not_outgoing s pc : no_outgoing s -> outgoing s pc -> False.
Proof.
  intros [Hneg | (p & Hp & Hwhy)] (Hpc & Hst & Hidle).
  - pose proof (slot_nonneg _ _ _ Hpc). lia.
  - assert (p = pc) by congruence. subst p.
    destruct Hwhy as [Hav | Hi]; [contradiction | congruence].
Qed.

Lemma scan_start_slot s p :
  slot (curr_proc (proc_table s)) s = Some p -> scan_start s = curr_proc (proc_table s).
Proof.
  intros Hp. pose proof (slot_nonneg _ _ _ Hp). unfold scan_start.
  destruct (Z.ltb_spec (curr_proc (proc_table s)) 0); [lia | reflexivity].
Qed.

Lemma slot_same_procs i s s' :
  procs (proc_table s') = procs (proc_table s) -> slot i s' = slot i s.
Proof. unfold slot. now intros ->. Qed.

Lemma runnable_not_available now p :
  runnable now p = true -> state p <> PROC_STATE_AVAILABLE.
Proof. unfold runnable. intros H E. rewrite E in H. discriminate. Qed.

Lemma runnable_not_running now p :
  runnable now p = true -> state p <> PROC_STATE_RUNNING.
Proof. unfold runnable. intros H E. rewrite E in H. discriminate. Qed.

(** X8: with no process in the table ([num_procs == 0]) the scheduler
    returns at once: the state is what it was, so that no context is saved
    or loaded, [is_idle] is not set and the hart is neither parked nor sent
    to user mode. *)
Theorem schedule_user_process_empty_table (s : kstate) :
  sched_entry s -> num_procs (proc_table s) = 0 ->
  schedule_user_process s = Ok tt s.
Proof.
  intros (Ht & Hmax & Hl & Hfree & Hcp) Hn.
  destruct (schedule_user_process_paths s Ht Hmax Hl Hfree Hcp) as (s' & Hrun & Hpost).
  destruct Hpost as [[_ ->] | [(Hn' & _) | (Hn' & _)]]; [exact Hrun | contradiction ..].
Qed.

(** X9: with at least one process, the scheduler returns, and it parks the
    hart exactly when no slot is [READY] or due to wake up and the slot the
    scan starts from is [SLEEPING].  It then sets [is_idle], arms the timer,
    enables the interrupts and parks the hart, in that order, and changes
    no slot and no register of the trap frame.  Otherwise it clears
    [is_idle], leaves the slot of [curr_proc] [RUNNING] and makes the one
    hart call that returns to user mode. *)
Theorem schedule_user_process_parks_iff (s : kstate) :
  sched_entry s -> num_procs (proc_table s) <> 0 ->
  exists s',
    schedule_user_process s = Ok tt s' /\
    (is_idle (proc_table s') = true <->
       none_runnable s /\
       exists p0, slot (scan_start s) s = Some p0 /\ state p0 = PROC_STATE_SLEEPING) /\
    (is_idle (proc_table s') = true ->
       procs (proc_table s') = procs (proc_table s) /\
       trap_frame s' = trap_frame s /\
       curr_proc (proc_table s') = scan_start s /\
       hart_log s' = hart_log s ++ [EvSetTimerAfterTick; EvEnableInterrupts; EvParkHart]) /\
    (is_idle (proc_table s') = false ->
       hart_log s' = hart_log s ++ [EvSetUserMode] /\
       exists p, slot (curr_proc (proc_table s')) s' = Some p /\
                 state p = PROC_STATE_RUNNING).
Proof.
  intros (Ht & Hmax & Hl & Hfree & Hcp) Hn.
  destruct (schedule_user_process_paths s Ht Hmax Hl Hfree Hcp) as (s' & Hrun & Hpost).
  exists s'. split; [exact Hrun|].
  destruct Hpost as [[Hn0 _] |
    [(_ & p0 & Hp0 & Hst0 & Hnone & Hprocs & Htf & Hidle & Hcurr & Hlog) |
     (_ & j & pj & Hpj & Hwhy & Hj' & Hcurr & Hidle & Hlog & _)]]; [contradiction | |].
  - split; [split; [intros _; split; [exact Hnone | now exists p0] | intros _; exact Hidle]|].
    split; [intros _; auto|].
    intros Hf. rewrite Hidle in Hf. discriminate.
  - split; [split|].
    + intros Ht'. rewrite Hidle in Ht'. discriminate.
    + intros (Hnone & p0 & Hp0 & Hst0). exfalso.
      destruct Hwhy as [Hr | (Hj & Hst & _)].
      * rewrite (Hnone _ _ Hpj) in Hr. discriminate.
      * subst j. assert (pj = p0) by congruence. subst pj. contradiction.
    + split; [intros Ht'; rewrite Hidle in Ht'; discriminate|].
      intros _. split; [exact Hlog|].
      exists (set_state PROC_STATE_RUNNING pj). rewrite Hcurr. split; [exact Hj' | reflexivity].
Qed.

(** X10: the context switch.  When the slot of [curr_proc] holds a process
    and the hart was not idle, and pids are distinct, the scheduler either
    stays on that slot, and then no other slot and no register of the trap
    frame changes (the slot itself is untouched when the hart is parked, and
    is [RUNNING] otherwise), or it moves to another slot [j], which was
    [READY] or due to wake up: then the registers of the trap frame are
    saved into the context of the outgoing slot, which is set [READY]
    whatever its state was, the slot [j] is set [RUNNING], the trap frame
    receives the registers of the context of [j], and no other slot
    changes. *)
Theorem schedule_user_process_switches_context (s : kstate) (pc : process_t) :
  sched_entry s -> pids_distinct s -> num_procs (proc_table s) <> 0 ->
  outgoing s pc ->
  exists s',
    schedule_user_process s = Ok tt s' /\
    let c := curr_proc (proc_table s) in
    let j := curr_proc (proc_table s') in
    ((j = c /\
      trap_frame s' = trap_frame s /\
      (forall i, i <> c -> slot i s' = slot i s) /\
      ((is_idle (proc_table s') = true /\ slot c s' = Some pc) \/
       (is_idle (proc_table s') = false /\
        slot c s' = Some (set_state PROC_STATE_RUNNING pc)))) \/
     (j <> c /\
      is_idle (proc_table s') = false /\
      exists pj,
        slot j s = Some pj /\ runnable (mtime s) pj = true /\
        slot j s' = Some (set_state PROC_STATE_RUNNING pj) /\
        slot c s' = Some (set_state PROC_STATE_READY
                            (set_context (copy_context (context pc) (trap_frame s)) pc)) /\
        (forall i, i <> j -> i <> c -> slot i s' = slot i s) /\
        trap_frame s' = copy_context (trap_frame s) (context pj))).
Proof.
  intros (Ht & Hmax & Hl & Hfree & Hcp) Hpids Hn Hout.
  destruct (schedule_user_process_paths s Ht Hmax Hl Hfree Hcp) as (s' & Hrun & Hpost).
  exists s'. split; [exact Hrun|]. cbv zeta.
  pose proof Hout as (Hpc & Hstc & Hidc).
  pose proof (scan_start_slot _ _ Hpc) as Hss.
  destruct Hpost as [[Hn0 _] |
    [(_ & p0 & Hp0 & Hst0 & Hnone & Hprocs & Htf & Hidle & Hcurr & Hlog) |
     (_ & j & pj & Hpj & Hwhy & Hj' & Hcurr & Hidle & Hlog & Hel)]]; [contradiction | |].
  - left. split; [congruence|]. split; [exact Htf|].
    split; [intros i _; now apply slot_same_procs|].
    left. split; [exact Hidle|]. now rewrite (slot_same_procs _ _ _ Hprocs).
  - rewrite Hcurr. clear Hcurr.
    destruct Hel as [(Hno & _) |
      [(pc' & Hout' & Hcj & Hpid & Hsaved & Hother & Htf) | (pc' & Hout' & Hpid & Hother & Htf)]].
    + destruct (no_outgoing_not_outgoing _ _ Hno Hout).
    + assert (pc' = pc) by (destruct Hout'; congruence). subst pc'.
      right. split; [congruence|]. split; [exact Hidle|]. exists pj.
      split; [exact Hpj|]. split.
      { destruct Hwhy as [Hr | (Hj & _)]; [exact Hr | congruence]. }
      split; [exact Hj'|]. split; [exact Hsaved|]. split; [|exact Htf].
      intros i Hi Hic. now apply Hother.
    + assert (pc' = pc) by (destruct Hout'; congruence). subst pc'.
      destruct (Z.eq_dec j (curr_proc (proc_table s))) as [Hj | Hj].
      * left. split; [exact Hj|]. split; [exact Htf|]. subst j.
        assert (pj = pc) by congruence. subst pj.
        split; [exact Hother|]. right. split; [exact Hidle | exact Hj'].
      * exfalso.
        destruct Hwhy as [Hr | (Hjs & _)]; [|congruence].
        apply (Hpids _ _ _ _ Hj Hpj Hpc); [now apply (runnable_not_available (mtime s)) | exact Hstc|].
        now symmetry.
Qed.

(** X11: when there is no process to save (the first call, with
    [curr_proc] still -1, a slot of [curr_proc] that is [AVAILABLE], as
    after an exit, or a hart that was idle), the scheduler saves the trap
    frame nowhere: it parks the hart again and changes no slot, or it elects
    a slot [j], sets it [RUNNING], loads the trap frame from its context and
    leaves every other slot as it was. *)
Theorem schedule_user_process_saves_nothing (s : kstate) :
  sched_entry s -> num_procs (proc_table s) <> 0 -> no_outgoing s ->
  exists s',
    schedule_user_process s = Ok tt s' /\
    ((is_idle (proc_table s') = true /\
      (forall i, slot i s' = slot i s) /\ trap_frame s' = trap_frame s) \/
     (is_idle (proc_table s') = false /\
      exists pj,
        let j := curr_proc (proc_table s') in
        slot j s = Some pj /\
        slot j s' = Some (set_state PROC_STATE_RUNNING pj) /\
        (forall i, i <> j -> slot i s' = slot i s) /\
        trap_frame s' = copy_context (trap_frame s) (context pj))).
Proof.
  intros (Ht & Hmax & Hl & Hfree & Hcp) Hn Hno.
  destruct (schedule_user_process_paths s Ht Hmax Hl Hfree Hcp) as (s' & Hrun & Hpost).
  exists s'. split; [exact Hrun|].
  destruct Hpost as [[Hn0 _] |
    [(_ & p0 & Hp0 & Hst0 & Hnone & Hprocs & Htf & Hidle & Hcurr & Hlog) |
     (_ & j & pj & Hpj & Hwhy & Hj' & Hcurr & Hidle & Hlog & Hel)]]; [contradiction | |].
  - left. split; [exact Hidle|]. split; [|exact Htf].
    intros i. now apply slot_same_procs.
  - right. split; [exact Hidle|]. exists pj. cbv zeta. rewrite Hcurr.
    destruct Hel as [(_ & Hother & Htf) |
      [(pc' & Hout & _) | (pc' & Hout & _)]];
      [| destruct (no_outgoing_not_outgoing _ _ Hno Hout) ..].
    auto.
Qed.

(** X12: the scheduler keeps the invariant that at most one slot is
    [RUNNING], that it is the slot of [curr_proc], and that the hart is then
    not idle, provided the slots in use have different pids. *)
Theorem schedule_user_process_one_running (s : kstate) :
  sched_entry s -> pids_distinct s -> one_running_inv s ->
  exists s', schedule_user_process s = Ok tt s' /\ one_running_inv s'.
Proof.
  intros (Ht & Hmax & Hl & Hfree & Hcp) Hpids Hinv.
  destruct (schedule_user_process_paths s Ht Hmax Hl Hfree Hcp) as (s' & Hrun & Hpost).
  exists s'. split; [exact Hrun|].
  destruct Hpost as [[_ ->] |
    [(_ & p0 & Hp0 & Hst0 & Hnone & Hprocs & Htf & Hidle & Hcurr & Hlog) |
     (_ & j & pj & Hpj & Hwhy & Hj' & Hcurr & Hidle & Hlog & Hel)]]; [exact Hinv | |].
  - (* parked: no slot was running *)
    intros i p Hp Hst. exfalso.
    rewrite (slot_same_procs _ _ _ Hprocs) in Hp.
    destruct (Hinv _ _ Hp Hst) as [Hi _]. subst i.
    rewrite <- (scan_start_slot _ _ Hp) in Hp.
    assert (p = p0) by congruence. subst p. congruence.
  - intros i p Hp Hst. rewrite Hcurr. split; [|exact Hidle].
    destruct (Z.eq_dec i j) as [Hij | Hij]; [exact Hij | exfalso].
    destruct Hel as [(Hno & Hother & _) |
      [(pc & Hout & Hcj & Hpid & Hsaved & Hother & _) | (pc & Hout & Hpid & Hother & _)]].
    + rewrite (Hother _ Hij) in Hp.
      destruct (Hinv _ _ Hp Hst) as [Hi Hid]. subst i.
      apply (no_outgoing_not_outgoing s p Hno).
      split; [exact Hp|]. split; [congruence | exact Hid].
    + destruct (Z.eq_dec i (curr_proc (proc_table s))) as [Hic | Hic].
      * subst i. rewrite Hsaved in Hp. inversion Hp as [Hp']. subst p. discriminate.
      * rewrite (Hother _ Hij Hic) in Hp. destruct (Hinv _ _ Hp Hst) as [Hi _]. contradiction.
    + rewrite (Hother _ Hij) in Hp.
      destruct (Hinv _ _ Hp Hst) as [Hi _]. subst i.
      destruct Hout as (Hpc & Hstc & _).
      assert (p = pc) by congruence. subst p.
      assert (Hav : state pj <> PROC_STATE_AVAILABLE).
      { destruct Hwhy as [Hr | (Hjs & _)]; [now apply (runnable_not_available (mtime s))|].
        rewrite (scan_start_slot _ _ Hpc) in Hjs. congruence. }
      exact (Hpids _ _ _ _ Hij Hpc Hpj Hstc Hav Hpid).
Qed.

(** X13: a timer tick while the only thing that can run is the process that
    is running: the scheduler returns to it.  No slot, no register of the
    trap frame and no field of the table changes; the one effect is the hart
    call that returns to user mode. *)
Theorem schedule_user_process_keeps_lone_runner (s : kstate) (pc : process_t) :
  sched_entry s -> num_procs (proc_table s) <> 0 ->
  slot (curr_proc (proc_table s)) s = Some pc -> state pc = PROC_STATE_RUNNING ->
  is_idle (proc_table s) = false -> none_runnable s ->
  exists s',
    schedule_user_process s = Ok tt s' /\
    (forall i, slot i s' = slot i s) /\
    trap_frame s' = trap_frame s /\
    curr_proc (proc_table s') = curr_proc (proc_table s) /\
    is_idle (proc_table s') = false /\
    hart_log s' = hart_log s ++ [EvSetUserMode].
Proof.
  intros (Ht & Hmax & Hl & Hfree & Hcp) Hn Hpc Hst Hid Hnone.
  destruct (schedule_user_process_paths s Ht Hmax Hl Hfree Hcp) as (s' & Hrun & Hpost).
  exists s'. split; [exact Hrun|].
  pose proof (scan_start_slot _ _ Hpc) as Hss.
  assert (Hout : outgoing s pc).
  { split; [exact Hpc|]. split; [congruence | exact Hid]. }
  destruct Hpost as [[Hn0 _] |
    [(_ & p0 & Hp0 & Hst0 & _) |
     (_ & j & pj & Hpj & Hwhy & Hj' & Hcurr & Hidle & Hlog & Hel)]]; [contradiction | |].
  - exfalso. rewrite Hss in Hp0. assert (p0 = pc) by congruence. subst p0. congruence.
  - destruct Hwhy as [Hr | (Hj & _)].
    { rewrite (Hnone _ _ Hpj) in Hr. discriminate. }
    rewrite Hss in Hj. rewrite Hj in Hpj, Hj', Hcurr, Hel. clear Hj.
    assert (pj = pc) by congruence. subst pj.
    rewrite (set_state_id _ _ Hst) in Hj'.
    destruct Hel as [(Hno & _) |
      [(pc' & _ & Hcj & _) | (pc' & _ & _ & Hother & Htf)]].
    + destruct (no_outgoing_not_outgoing _ _ Hno Hout).
    + contradiction.
    + split; [|auto].
      intros i. destruct (Z.eq_dec i (curr_proc (proc_table s))) as [-> | Hi];
        [congruence | now apply Hother].
Qed.

(** ** [wait_or_sleep] and [proc_exit]: the call of the scheduler *)

Lemma wp_schedule {B} (k : unit -> K B) (Q : B -> kstate -> Prop) s :
  sched_entry s ->
  (forall s', schedule_user_process s = Ok tt s' -> sched_post s s' -> wp (k tt) Q s') ->
  wp (bind schedule_user_process k) Q s.
Proof.
  intros (Ht & Hmax & Hl & Hfree & Hcp) Hk.
  destruct (schedule_user_process_paths s Ht Hmax Hl Hfree Hcp) as (s' & Hrun & Hpost).
  eapply wp_step; [exact Hrun|]. now apply Hk.
Qed.

Lemma put_to_sleep_locked wk c p :
  lock p = false ->
  set_lock false
    (set_context c (set_wakeup_time wk (set_state PROC_STATE_SLEEPING (set_lock true p))))
  = set_context c (set_wakeup_time wk (set_state PROC_STATE_SLEEPING p)).
Proof. intros H. destruct p. cbn in *. now subst. Qed.

Lemma set_context_id p : set_context (context p) p = p.
Proof. now destruct p. Qed.

Lemma copy_context_again dst src :
  frame_ok dst -> copy_context (copy_context dst src) src = copy_context dst src.
Proof.
  intros Hd. apply trap_frame_eq.
  - rewrite (copy_context_regs_get _ _ (copy_context_frame_ok _ src Hd)).
    now rewrite (copy_context_regs_get _ _ Hd).
  - now rewrite !copy_context_pc.
Qed.

Lemma runnable_sleeping now p :
  state p = PROC_STATE_SLEEPING -> runnable now p = (wakeup_time p <=? now).
Proof. unfold runnable. now intros ->. Qed.

(** The three ways [wait_or_sleep] ends for a running caller. *)
Lemma wait_or_sleep_outcome wk s p :
  sched_entry s -> pids_distinct s -> num_procs (proc_table s) <> 0 ->
  slot (curr_proc (proc_table s)) s = Some p -> state p = PROC_STATE_RUNNING ->
  is_idle (proc_table s) = false -> frame_ok (context p) ->
  exists s',
    wait_or_sleep wk s = Ok 0 s' /\
    ((is_idle (proc_table s') = true /\
      curr_proc (proc_table s') = curr_proc (proc_table s) /\
      slot (curr_proc (proc_table s)) s' = Some (put_to_sleep wk (trap_frame s) p) /\
      mtime s < wk) \/
     (is_idle (proc_table s') = false /\
      curr_proc (proc_table s') = curr_proc (proc_table s) /\
      slot (curr_proc (proc_table s)) s'
        = Some (set_state PROC_STATE_RUNNING (put_to_sleep wk (trap_frame s) p)) /\
      wk <= mtime s) \/
     (is_idle (proc_table s') = false /\
      curr_proc (proc_table s') <> curr_proc (proc_table s) /\
      slot (curr_proc (proc_table s)) s'
        = Some (set_state PROC_STATE_READY (put_to_sleep wk (trap_frame s) p)))).
Proof.
  intros (Ht & Hmax & Hl & Hfree & Hcp) Hpids Hn Hp Hst Hid Hf.
  pose proof (Hfree _ _ Hp) as Hlp.
  apply wp_val. unfold wait_or_sleep.
  eapply wp_step; [apply current_proc_some; assumption|]. cbv beta iota.
  do 6 kstep.
  set (c := curr_proc (proc_table s)) in *.
  set (q := put_to_sleep wk (trap_frame s) p).
  match goal with
  | |- wp _ _ ?S =>
    assert (Hq1 : slot c S = Some q)
      by (slot_norm; unfold q, put_to_sleep; now rewrite put_to_sleep_locked);
    assert (Ho1 : forall i, i <> c -> slot i S = slot i s)
      by (intros i Hi; slot_norm; reflexivity);
    assert (Ht1 : table_ok S) by eauto 60 with kslot;
    assert (Hx1 : table_lock (proc_table S) = table_lock (proc_table s) /\
                  curr_proc (proc_table S) = c /\
                  num_procs (proc_table S) = num_procs (proc_table s) /\
                  is_idle (proc_table S) = is_idle (proc_table s) /\
                  trap_frame S = trap_frame s /\ mtime S = mtime s)
      by (repeat split);
    generalize dependent S
  end.
  intros S1 Hq1 Ho1 Ht1 (Hl1 & Hc1 & Hn1 & Hid1 & Htf1 & Hm1).
  assert (Hstq : state q = PROC_STATE_SLEEPING) by reflexivity.
  assert (Hout1 : outgoing S1 q).
  { split; [now rewrite Hc1|]. split; [rewrite Hstq; discriminate | congruence]. }
  apply wp_schedule.
  { split; [exact Ht1|]. split; [exact Hmax|]. split; [congruence|].
    split; [|rewrite Hc1; exact Hcp].
    intros i r Hr. destruct (Z.eq_dec i c) as [-> | Hi].
    - rewrite Hq1 in Hr. inversion Hr. exact Hlp.
    - rewrite (Ho1 _ Hi) in Hr. exact (Hfree _ _ Hr). }
  intros s' Hrun Hpost. apply wp_ret. split; [reflexivity|].
  destruct Hpost as [[Hn0 _] |
    [(_ & p0 & Hp0 & Hst0 & Hnone & Hprocs & Htf & Hidle & Hcurr & Hlog) |
     (_ & j & pj & Hpj & Hwhy & Hj' & Hcurr & Hidle & Hlog & Hel)]].
  - congruence.
  - left. split; [exact Hidle|].
    split; [rewrite Hcurr, (scan_start_slot S1 q) by (now rewrite Hc1); exact Hc1|].
    split; [now rewrite (slot_same_procs _ _ _ Hprocs)|].
    pose proof (Hnone _ _ Hq1) as Hr. rewrite (runnable_sleeping _ _ Hstq), Hm1 in Hr.
    apply Z.leb_gt in Hr. exact Hr.
  - right.
    destruct Hel as [(Hno & _) |
      [(pc' & Hout' & Hcj & Hpid & Hsaved & Hother & Htf) |
       (pc' & Hout' & Hpid & Hother & Htf)]].
    + destruct (no_outgoing_not_outgoing _ _ Hno Hout1).
    + right. split; [exact Hidle|]. split; [congruence|].
      assert (pc' = q) by (destruct Hout', Hout1; congruence). subst pc'.
      rewrite Hc1 in Hsaved. rewrite Hsaved. do 2 f_equal.
      rewrite Htf1. unfold q at 1, put_to_sleep at 1. cbn [context set_context].
      rewrite (copy_context_again _ _ Hf). apply set_context_id.
    + assert (pc' = q) by (destruct Hout', Hout1; congruence). subst pc'.
      destruct (Z.eq_dec j c) as [Hj | Hj].
      * left. split; [exact Hidle|]. split; [congruence|].
        rewrite Hj in Hpj, Hj', Hwhy. assert (pj = q) by congruence. subst pj.
        split; [exact Hj'|].
        destruct Hwhy as [Hr | (_ & Hns & _)]; [|contradiction].
        rewrite (runnable_sleeping _ _ Hstq), Hm1 in Hr. apply Z.leb_le in Hr. exact Hr.
      * exfalso. rewrite (Ho1 _ Hj) in Hpj.
        assert (Hav : state pj <> PROC_STATE_AVAILABLE).
        { destruct Hwhy as [Hr | (Hjs & _)]; [now apply (runnable_not_available (mtime S1))|].
          rewrite (scan_start_slot S1 q) in Hjs by (now rewrite Hc1). congruence. }
        apply (Hpids c j p pj); [congruence | exact Hp | exact Hpj | congruence | exact Hav|].
        exact Hpid.
Qed.

(** X15: [proc_sleep], called by the running process, returns 0 once the
    scheduler has run.  The caller's slot then holds the deadline
    [now + ONE_SECOND / 1000 * milliseconds], computed in [uint64_t]
    arithmetic, and the registers of the trap frame as its saved context
    (its saved [pc] is not written).  The caller is left [SLEEPING] exactly
    when the scheduler parked the hart, which it does only with the deadline
    ahead; whenever the scheduler moved to another slot the caller is
    [READY], deadline or not. *)
Theorem proc_sleep_outcome (s : kstate) (ms : Z) (p : process_t) :
  sched_entry s -> pids_distinct s -> num_procs (proc_table s) <> 0 ->
  slot (curr_proc (proc_table s)) s = Some p -> state p = PROC_STATE_RUNNING ->
  is_idle (proc_table s) = false -> frame_ok (context p) ->
  exists s' p',
    proc_sleep ms s = Ok 0 s' /\
    slot (curr_proc (proc_table s)) s' = Some p' /\
    wakeup_time p' = wrap64 (mtime s + wrap64 (ONE_SECOND / 1000 * ms)) /\
    context p' = copy_context (context p) (trap_frame s) /\
    pc (context p') = pc (context p) /\
    pid p' = pid p /\ stack_page p' = stack_page p /\
    (state p' = PROC_STATE_SLEEPING <-> is_idle (proc_table s') = true) /\
    (is_idle (proc_table s') = true -> mtime s < wakeup_time p') /\
    (curr_proc (proc_table s') <> curr_proc (proc_table s) -> state p' = PROC_STATE_READY).
Proof.
  intros He Hpids Hn Hp Hst Hid Hf.
  destruct (wait_or_sleep_outcome (wrap64 (mtime s + wrap64 (ONE_SECOND / 1000 * ms)))
              s p He Hpids Hn Hp Hst Hid Hf) as (s' & Hrun & Hcases).
  exists s'.
  assert (Hrun' : proc_sleep ms s = Ok 0 s').
  { unfold proc_sleep, time_get_now. now rewrite (bind_eq _ _ _ _ _ (get_eq _ _)). }
  destruct Hcases as [(Hidle & Hcurr & Hslot & Hlt) |
    [(Hidle & Hcurr & Hslot & Hle) | (Hidle & Hcurr & Hslot)]];
    eexists; (split; [exact Hrun'|]); (split; [exact Hslot|]);
    (split; [reflexivity|]); (split; [reflexivity|]);
    (split; [apply copy_context_pc|]); (split; [reflexivity|]); (split; [reflexivity|]).
  - split; [split; [intros _; exact Hidle | reflexivity]|].
    split; [intros _; exact Hlt | intros Hne; contradiction].
  - split; [split; [discriminate | congruence]|].
    split; [congruence | intros Hne; contradiction].
  - split; [split; [discriminate | congruence]|].
    split; [congruence | reflexivity].
Qed.

(** X16: [proc_wait] does not block.  It puts the caller to sleep with a
    wake-up time of 0, which every reading of the clock has reached, so the
    scheduler never parks the hart: when [proc_wait] returns, the caller is
    [RUNNING] again, or [READY] behind the process the scheduler moved to;
    no exit of a child is waited for. *)
Theorem proc_wait_never_blocks (s : kstate) (p : process_t) :
  sched_entry s -> pids_distinct s -> num_procs (proc_table s) <> 0 ->
  slot (curr_proc (proc_table s)) s = Some p -> state p = PROC_STATE_RUNNING ->
  is_idle (proc_table s) = false -> frame_ok (context p) ->
  0 <= mtime s ->
  exists s' p',
    proc_wait s = Ok 0 s' /\
    is_idle (proc_table s') = false /\
    slot (curr_proc (proc_table s)) s' = Some p' /\
    wakeup_time p' = 0 /\
    ((curr_proc (proc_table s') = curr_proc (proc_table s) /\
      state p' = PROC_STATE_RUNNING) \/
     (curr_proc (proc_table s') <> curr_proc (proc_table s) /\
      state p' = PROC_STATE_READY)).
Proof.
  intros He Hpids Hn Hp Hst Hid Hf Hnow.
  destruct (wait_or_sleep_outcome 0 s p He Hpids Hn Hp Hst Hid Hf) as (s' & Hrun & Hcases).
  exists s'.
  destruct Hcases as [(Hidle & Hcurr & Hslot & Hlt) |
    [(Hidle & Hcurr & Hslot & Hle) | (Hidle & Hcurr & Hslot)]]; [lia | |];
    eexists; (split; [exact Hrun|]); (split; [exact Hidle|]); (split; [exact Hslot|]);
    (split; [reflexivity|]).
  - left. split; [exact Hcurr | reflexivity].
  - right. split; [exact Hcurr | reflexivity].
Qed.

Lemma wp_schedule_last (Q : unit -> kstate -> Prop) s :
  sched_entry s ->
  (forall s', schedule_user_process s = Ok tt s' -> sched_post s s' -> Q tt s') ->
  wp schedule_user_process Q s.
Proof.
  intros (Ht & Hmax & Hl & Hfree & Hcp) Hk.
  destruct (schedule_user_process_paths s Ht Hmax Hl Hfree Hcp) as (s' & Hrun & Hpost).
  eapply wp_eq; [exact Hrun|]. now apply Hk.
Qed.

(** X17: [proc_exit], called by the process of [curr_proc] whose parent is
    in another slot, returns once the scheduler has run: the caller's slot
    is [AVAILABLE] with its saved context as it was (nothing is saved for a
    process that exits), its stack page is free and [num_procs] is one
    less.  When other processes remain, the hart is not parked: the parent
    was made [READY], so the scheduler moves to a slot other than the
    caller's, sets it [RUNNING] and loads the trap frame from its context.
    When the caller was the last process counted, the scheduler does
    nothing: the trap frame is the caller's still and no hart call is
    made. *)
Theorem proc_exit_hands_over (s : kstate) (p pp : process_t) (par : Z) :
  sched_entry s -> num_procs (proc_table s) <> 0 ->
  slot (curr_proc (proc_table s)) s = Some p ->
  parent p = Some par -> par <> curr_proc (proc_table s) ->
  slot par s = Some pp ->
  exists s',
    proc_exit s = Ok tt s' /\
    num_procs (proc_table s') = num_procs (proc_table s) - 1 /\
    page_bitmap s' = clear_bit (stack_page p) (page_bitmap s) /\
    slot (curr_proc (proc_table s)) s' = Some (set_state PROC_STATE_AVAILABLE p) /\
    (num_procs (proc_table s) = 1 ->
       curr_proc (proc_table s') = curr_proc (proc_table s) /\
       slot par s' = Some (set_state PROC_STATE_READY pp) /\
       trap_frame s' = trap_frame s /\ hart_log s' = hart_log s) /\
    (num_procs (proc_table s) <> 1 ->
       is_idle (proc_table s') = false /\
       curr_proc (proc_table s') <> curr_proc (proc_table s) /\
       hart_log s' = hart_log s ++ [EvSetUserMode] /\
       exists pj,
         slot (curr_proc (proc_table s')) s = Some pj /\
         slot (curr_proc (proc_table s')) s' = Some (set_state PROC_STATE_RUNNING pj) /\
         trap_frame s' = copy_context (trap_frame s) (context pj)).
Proof.
  intros (Ht & Hmax & Hl & Hfree & Hcp) Hn Hp Hpar Hne Hpp.
  pose proof (Hfree _ _ Hp) as Hlp. pose proof (Hfree _ _ Hpp) as Hlpp.
  apply wp_unit. unfold proc_exit.
  eapply wp_step; [apply current_proc_some; assumption|]. cbv beta iota.
  set (c := curr_proc (proc_table s)) in *.
  unfold proc_exit_reap.
  repeat kstep'. rewrite Hpar. repeat kstep'.
  match goal with
  | |- wp _ _ ?S =>
    assert (Hc1 : slot c S = Some (set_state PROC_STATE_AVAILABLE p))
      by (slot_norm; now rewrite set_state_lock_cycle);
    assert (Hpar1 : slot par S = Some (set_state PROC_STATE_READY pp))
      by (slot_norm; now rewrite set_state_lock_cycle);
    assert (Ho1 : forall i, i <> c -> i <> par -> slot i S = slot i s)
      by (intros i Hi Hi'; slot_norm; reflexivity);
    assert (Ht1 : table_ok S) by eauto 60 with kslot;
    assert (Hx1 : table_lock (proc_table S) = false /\
                  curr_proc (proc_table S) = c /\
                  num_procs (proc_table S) = num_procs (proc_table s) - 1 /\
                  trap_frame S = trap_frame s /\ mtime S = mtime s /\
                  page_bitmap S = clear_bit (stack_page p) (page_bitmap s) /\
                  hart_log S = hart_log s)
      by (repeat split);
    generalize dependent S
  end.
  intros S1 Hc1 Hpar1 Ho1 Ht1 (Hl1 & Hcu1 & Hn1 & Htf1 & Hm1 & Hbm1 & Hlog1).
  assert (Hno1 : no_outgoing S1).
  { right. exists (set_state PROC_STATE_AVAILABLE p). rewrite Hcu1. split; [exact Hc1 | now left]. }
  assert (Hready : ~ none_runnable S1).
  { intros Hnone. pose proof (Hnone _ _ Hpar1) as Hr. discriminate. }
  apply wp_schedule_last.
  { split; [exact Ht1|]. split; [exact Hmax|]. split; [exact Hl1|].
    split; [|rewrite Hcu1; exact Hcp].
    intros i r Hr. destruct (Z.eq_dec i c) as [-> | Hi].
    - rewrite Hc1 in Hr. inversion Hr. exact Hlp.
    - destruct (Z.eq_dec i par) as [-> | Hi'].
      + rewrite Hpar1 in Hr. inversion Hr. exact Hlpp.
      + rewrite (Ho1 _ Hi Hi') in Hr. exact (Hfree _ _ Hr). }
  intros s' Hrun Hpost.
  pose proof (outside_schedule_user_process _ _ _ Hrun) as Hout.
  assert (Hn' : num_procs (proc_table s') = num_procs (proc_table S1))
    by (unfold outside_scheduler in Hout; congruence).
  assert (Hbm' : page_bitmap s' = page_bitmap S1)
    by (unfold outside_scheduler in Hout; congruence).
  split; [congruence|]. split; [congruence|].
  destruct Hpost as [[Hn0 ->] |
    [(_ & p0 & _ & _ & Hnone & _) |
     (Hn0 & j & pj & Hpj & Hwhy & Hj' & Hcurr & Hidle & Hlog & Hel)]].
  - split; [exact Hc1|]. split; [|intros H1; lia].
    intros _. split; [exact Hcu1|]. split; [exact Hpar1|]. split; assumption.
  - contradiction.
  - destruct Hel as [(_ & Hother & Htf) | [(pc' & Hout' & _) | (pc' & Hout' & _)]];
      [| destruct (no_outgoing_not_outgoing _ _ Hno1 Hout') ..].
    assert (Hr : runnable (mtime S1) pj = true).
    { destruct Hwhy as [Hr | (_ & _ & Hnone)]; [exact Hr | contradiction]. }
    assert (Hjc : j <> c).
    { intros ->. rewrite Hc1 in Hpj. inversion Hpj. subst pj. discriminate. }
    split; [now rewrite (Hother _ (not_eq_sym Hjc))|].
    split; [intros H1; lia|]. intros _.
    split; [exact Hidle|]. split; [congruence|]. split; [congruence|].
    rewrite Hcurr. destruct (Z.eq_dec j par) as [-> | Hjp].
    + exists pp. split; [exact Hpp|].
      rewrite Hpar1 in Hpj. inversion Hpj. subst pj.
      split; [exact Hj'|]. now rewrite Htf, Htf1.
    + exists pj. split; [now rewrite <- (Ho1 _ Hjc Hjp)|].
      split; [exact Hj'|]. now rewrite Htf, Htf1.
Qed.

(** ** [proc_fork]: the bookkeeping *)

Lemma copy_bytes_outside d c s a :
  a < d \/ d + PAGE_SIZE <= a -> memory (copy_bytes d c s) a = memory s a.
Proof.
  intros Ha. unfold copy_bytes. cbn [memory set_memory].
  destruct (Z.leb_spec d a), (Z.ltb_spec a (d + PAGE_SIZE)); cbn [andb]; try reflexivity; lia.
Qed.

(** The state a successful [proc_fork] leaves. *)
Lemma proc_fork_run (s : kstate) (k : nat) (par c : Z) (pp pc0 : process_t) :
  PlatformOk P ->
  table_ok s ->
  table_lock (proc_table s) = false ->
  num_procs (proc_table s) <> 0 ->
  first_free (page_bitmap s) = Some k ->
  curr_proc (proc_table s) = par ->
  slot par s = Some pp -> lock pp = false ->
  first_available s c ->
  slot c s = Some pc0 -> lock pc0 = false ->
  exists s' child parent',
    proc_fork s = Ok (pid_counter (proc_table s)) s' /\
    num_procs (proc_table s') = num_procs (proc_table s) + 1 /\
    pid_counter (proc_table s') = wrap32 (pid_counter (proc_table s) + 1) /\
    page_bitmap s' = <[k := true]> (page_bitmap s) /\
    freeram s' = freeram s - 1 /\
    table_lock (proc_table s') = false /\
    curr_proc (proc_table s') = par /\
    is_idle (proc_table s') = is_idle (proc_table s) /\
    hart_log s' = hart_log s /\
    (forall i, i <> par -> i <> c -> slot i s' = slot i s) /\
    (forall a, a < page_addr k \/ page_addr k + PAGE_SIZE <= a -> memory s' a = memory s a) /\
    slot c s' = Some child /\ slot par s' = Some parent' /\
    pid child = pid_counter (proc_table s) /\ state child = PROC_STATE_READY /\
    lock child = false /\ lock parent' = false /\
    name child = name pc0 /\ wakeup_time child = wakeup_time pc0 /\
    state parent' = state pp /\ pid parent' = pid pp /\ name parent' = name pp /\
    parent parent' = parent pp /\ stack_page parent' = stack_page pp /\
    wakeup_time parent' = wakeup_time pp /\
    context parent' = copy_context (set_pc (pc (trap_frame s)) (context pp)) (trap_frame s).
Proof.
  intros HP Ht Hl Hn Hk Hcur Hpp Hlp Hfirst Hpc Hlc.
  pose proof (page_addr_pos k HP) as Hpos.
  assert (Hcp : c <> par) by (destruct Hfirst as [Hne _]; congruence).
  match goal with
  | |- exists s' child parent', _ = Ok ?v s' /\ @?Q s' child parent' =>
    enough (Hwp : wp proc_fork
              (fun a s' => a = v /\ exists child parent', Q s' child parent') s)
  end.
  { apply wp_val in Hwp. destruct Hwp as (s' & Hrun & child & parent' & HQ).
    exists s', child, parent'. split; [exact Hrun | exact HQ]. }
  unfold proc_fork.
  eapply wp_step; [apply (allocate_page_eq _ _ Hk)|].
  destruct (Z.eqb_spec (page_addr k) 0) as [E|_]; [lia|].
  eapply wp_step; [apply current_proc_some; assumption|].
  knorm. rewrite Hcur.
  kstep. kstep. kstep. kstep.
  eapply wp_step.
  { eapply (alloc_process_some _ c pc0).
    - eauto 60 with kslot.
    - knorm. exact Hl.
    - destruct Hfirst as (Hne & (q & Hq & Hst) & Hbefore).
      split; [knorm; exact Hne|]. split.
      + exists q. split; [slot_solve | exact Hst].
      + intros j q'. knorm. rewrite Hcur.
        destruct (Z.eq_dec j par) as [->|Hj]; [now left|].
        slot_norm. intros Hlt Hsl. rewrite <- Hcur. exact (Hbefore _ _ Hlt Hsl).
    - slot_solve.
    - exact Hlc. }
  knorm.
  eapply wp_step; [apply alloc_pid_eq; knorm; exact Hl|]. knorm.
  repeat kstep.
  split; [reflexivity|]. eexists _, _.
  split; [reflexivity|]. split; [reflexivity|].
  split; [reflexivity|].
  split.
  { unfold freeram.
    match goal with
    | |- count_free (page_bitmap ?S) = _ =>
      change (page_bitmap S) with (<[k := true]> (page_bitmap s))
    end.
    apply count_free_take, first_free_lookup, Hk. }
  split; [exact Hl|]. split; [exact Hcur|]. split; [reflexivity|].
  split; [reflexivity|].
  split; [intros i Hi Hi'; slot_norm; reflexivity|].
  split.
  { intros a Ha.
    match goal with
    | |- memory ?S a = _ =>
      change (memory S a)
        with (memory (copy_bytes (page_addr k) (stack_page pp) s) a)
    end.
    now apply copy_bytes_outside. }
  split; [slot_solve|]. split; [slot_solve|].
  repeat split.
Qed.

(** X18: the bookkeeping of a successful [proc_fork].  It returns the value
    of [pid_counter], which it increments (modulo 2^32); [num_procs] is one
    more and the number of free pages one less; the table lock and the locks
    of both slots are free again; [curr_proc] and every slot other than the
    parent's and the child's are untouched, as is all memory outside the
    child's new page.  The parent keeps its state, pid, name, parent and
    stack page, and has the trap frame saved as its context.  The child's
    [name] and [wakeup_time] are not written: they are what the slot held
    before. *)
Theorem proc_fork_bookkeeping (s : kstate) (k : nat) (par c : Z) (pp pc0 : process_t) :
  PlatformOk P ->
  table_ok s ->
  table_lock (proc_table s) = false ->
  num_procs (proc_table s) <> 0 ->
  first_free (page_bitmap s) = Some k ->
  curr_proc (proc_table s) = par ->
  slot par s = Some pp -> lock pp = false ->
  first_available s c ->
  slot c s = Some pc0 -> lock pc0 = false ->
  exists s' child parent',
    proc_fork s = Ok (pid_counter (proc_table s)) s' /\
    num_procs (proc_table s') = num_procs (proc_table s) + 1 /\
    pid_counter (proc_table s') = wrap32 (pid_counter (proc_table s) + 1) /\
    page_bitmap s' = <[k := true]> (page_bitmap s) /\
    freeram s' = freeram s - 1 /\
    table_lock (proc_table s') = false /\
    curr_proc (proc_table s') = par /\
    is_idle (proc_table s') = is_idle (proc_table s) /\
    hart_log s' = hart_log s /\
    (forall i, i <> par -> i <> c -> slot i s' = slot i s) /\
    (forall a, a < page_addr k \/ page_addr k + PAGE_SIZE <= a -> memory s' a = memory s a) /\
    slot c s' = Some child /\ slot par s' = Some parent' /\
    lock child = false /\ lock parent' = false /\
    name child = name pc0 /\ wakeup_time child = wakeup_time pc0 /\
    state parent' = state pp /\ pid parent' = pid pp /\ name parent' = name pp /\
    parent parent' = parent pp /\ stack_page parent' = stack_page pp /\
    wakeup_time parent' = wakeup_time pp /\
    context parent' = copy_context (set_pc (pc (trap_frame s)) (context pp)) (trap_frame s).
Proof.
  intros HP Ht Hl Hn Hk Hcur Hpp Hlp Hfirst Hpc Hlc.
  destruct (proc_fork_run s k par c pp pc0 HP Ht Hl Hn Hk Hcur Hpp Hlp Hfirst Hpc Hlc)
    as (s' & child & parent' & Hrun & H1 & H2 & H3 & H4 & H5 & H6 & H7 & H8 & H9 & H10 &
        Hc & Hpar & _ & _ & Hrest).
  exists s', child, parent'. repeat (split; [assumption|]). exact Hrest.
Qed.

(** X21: as long as the counter does not wrap around, [proc_fork] keeps the
    pids of the slots in use distinct: when every pid in use is below
    [pid_counter] and they are distinct before the call, they are after
    it. *)
Theorem proc_fork_keeps_pids_distinct (s : kstate) (k : nat) (par c : Z) (pp pc0 : process_t) :
  PlatformOk P ->
  table_ok s ->
  table_lock (proc_table s) = false ->
  num_procs (proc_table s) <> 0 ->
  first_free (page_bitmap s) = Some k ->
  curr_proc (proc_table s) = par ->
  slot par s = Some pp -> lock pp = false ->
  first_available s c ->
  slot c s = Some pc0 -> lock pc0 = false ->
  pids_distinct s -> pids_issued s ->
  0 <= pid_counter (proc_table s) -> pid_counter (proc_table s) + 1 < 2 ^ 32 ->
  exists s',
    proc_fork s = Ok (pid_counter (proc_table s)) s' /\
    pids_distinct s' /\ pids_issued s' /\
    pid_counter (proc_table s') = pid_counter (proc_table s) + 1.
Proof.
  intros HP Ht Hl Hn Hk Hcur Hpp Hlp Hfirst Hpc Hlc Hpids Hiss Hc0 Hc1.
  destruct (proc_fork_run s k par c pp pc0 HP Ht Hl Hn Hk Hcur Hpp Hlp Hfirst Hpc Hlc)
    as (s' & child & parent' & Hrun & _ & Hctr & _ & _ & _ & _ & _ & _ & Hother & _ &
        Hc & Hpar & Hpidc & Hstc & _ & _ & _ & _ & Hstp & Hpidp & _).
  assert (Hctr' : pid_counter (proc_table s') = pid_counter (proc_table s) + 1).
  { rewrite Hctr. unfold wrap32. apply Z.mod_small. lia. }
  (* every slot in use after the call: the child, or a slot in use before *)
  assert (Hold : forall i q, slot i s' = Some q -> state q <> PROC_STATE_AVAILABLE ->
            (i = c /\ pid q = pid_counter (proc_table s)) \/
            (i <> c /\ exists q0, slot i s = Some q0 /\ state q0 <> PROC_STATE_AVAILABLE /\
                                  pid q = pid q0)).
  { intros i q Hq Hst. destruct (Z.eq_dec i c) as [-> | Hic].
    - left. split; [reflexivity|]. congruence.
    - right. split; [exact Hic|]. destruct (Z.eq_dec i par) as [-> | Hip].
      + exists pp. assert (q = parent') by congruence. subst q.
        split; [exact Hpp|]. split; [congruence | exact Hpidp].
      + exists q. rewrite (Hother _ Hip Hic) in Hq. auto. }
  exists s'. split; [exact Hrun|]. split; [|split; [|exact Hctr']].
  - intros i j q r Hij Hq Hr Hsq Hsr.
    destruct (Hold _ _ Hq Hsq) as [(-> & Hpq) | (Hic & q0 & Hq0 & Hsq0 & Hpq)];
      destruct (Hold _ _ Hr Hsr) as [(-> & Hpr) | (Hjc & r0 & Hr0 & Hsr0 & Hpr)].
    + contradiction.
    + pose proof (Hiss _ _ Hr0 Hsr0). lia.
    + pose proof (Hiss _ _ Hq0 Hsq0). lia.
    + rewrite Hpq, Hpr. exact (Hpids _ _ _ _ Hij Hq0 Hr0 Hsq0 Hsr0).
  - intros i q Hq Hsq. rewrite Hctr'.
    destruct (Hold _ _ Hq Hsq) as [(-> & Hpq) | (Hic & q0 & Hq0 & Hsq0 & Hpq)].
    + lia.
    + pose proof (Hiss _ _ Hq0 Hsq0). lia.
Qed.

(** ** A sleeper under the scheduler *)

Lemma not_runnable_ahead now p :
  state p = PROC_STATE_SLEEPING -> now < wakeup_time p -> runnable now p = false.
Proof.
  intros Hst Hw. rewrite (runnable_sleeping _ _ Hst). now apply Z.leb_gt.
Qed.

(** X19: a slot that is [SLEEPING] with its wake-up time ahead is never made
    [RUNNING] by the scheduler, and is left exactly as it is, with one
    exception: when it is the slot of [curr_proc] and the hart was not idle
    (the process that has just put itself to sleep), a scheduler that moves
    to another slot saves the trap frame into it and sets it [READY]. *)
Theorem schedule_user_process_sleeper (s : kstate) (i : Z) (p : process_t) :
  sched_entry s ->
  slot i s = Some p -> state p = PROC_STATE_SLEEPING -> mtime s < wakeup_time p ->
  exists s',
    schedule_user_process s = Ok tt s' /\
    (slot i s' = Some p \/
     (i = curr_proc (proc_table s) /\ is_idle (proc_table s) = false /\
      curr_proc (proc_table s') <> i /\
      slot i s' = Some (set_state PROC_STATE_READY
                          (set_context (copy_context (context p) (trap_frame s)) p)))).
Proof.
  intros (Ht & Hmax & Hl & Hfree & Hcp) Hp Hst Hw.
  pose proof (not_runnable_ahead _ _ Hst Hw) as Hnr.
  destruct (schedule_user_process_paths s Ht Hmax Hl Hfree Hcp) as (s' & Hrun & Hpost).
  exists s'. split; [exact Hrun|].
  destruct Hpost as [[_ ->] |
    [(_ & p0 & _ & _ & _ & Hprocs & _) |
     (_ & j & pj & Hpj & Hwhy & Hj' & Hcurr & Hidle & Hlog & Hel)]].
  - now left.
  - left. now rewrite (slot_same_procs _ _ _ Hprocs).
  - assert (Hji : i <> j).
    { intros ->. assert (pj = p) by congruence. subst pj.
      destruct Hwhy as [Hr | (_ & Hns & _)]; [congruence | contradiction]. }
    destruct Hel as [(_ & Hother & _) |
      [(pc & Hout & Hcj & Hpid & Hsaved & Hother & _) | (pc & _ & _ & Hother & _)]].
    + left. now rewrite (Hother _ Hji).
    + destruct (Z.eq_dec i (curr_proc (proc_table s))) as [Hic | Hic].
      * right. destruct Hout as (Hpc & _ & Hid).
        subst i. assert (pc = p) by congruence. subst pc.
        split; [reflexivity|]. split; [exact Hid|]. split; [congruence | exact Hsaved].
      * left. now rewrite (Hother _ Hji Hic).
    + left. now rewrite (Hother _ Hji).
Qed.
End KernelFacts.

(** * The statements on concrete tables *)

#[local] Existing Instance demo_platform.

Lemma demo_platform_ok : PlatformOk demo_platform.
Proof.
  split; try (cbn; lia).
  - repeat constructor; cbn; lia.
  - cbn. rewrite !NoDup_cons, !not_elem_of_cons. repeat split; try lia; try apply NoDup_nil_2.
    all: intros H; inversion H.
Defined.

(** The slots of a table of four. *)
Lemma slot_cases (ps : list process_t) curr pidc n bm now i p (Q : Z -> process_t -> Prop) :
  length ps = 4%nat ->
  (forall q, ps !! 0%nat = Some q -> Q 0 q) ->
  (forall q, ps !! 1%nat = Some q -> Q 1 q) ->
  (forall q, ps !! 2%nat = Some q -> Q 2 q) ->
  (forall q, ps !! 3%nat = Some q -> Q 3 q) ->
  slot i (demo_state ps curr pidc n bm now) = Some p -> Q i p.
Proof.
  intros Hl H0 H1 H2 H3 Hs.
  pose proof (slot_nonneg _ _ _ Hs) as Hi. pose proof (slot_lt_length _ _ _ Hs) as Hlt.
  cbn [demo_state proc_table procs] in Hlt. rewrite Hl in Hlt.
  unfold slot in Hs. destruct (i <? 0) eqn:E; [discriminate|].
  cbn [demo_state proc_table procs] in Hs.
  assert (Hc : i = 0 \/ i = 1 \/ i = 2 \/ i = 3) by lia.
  destruct Hc as [ -> | [ -> | [ -> | -> ] ] ]; auto.
Defined.

(** ** C1 *)

(** C1, counterexample: with one process, which is running, no slot is
    [READY] or [SLEEPING], and [find_ready_proc] returns the running slot,
    not null. *)
Lemma find_ready_proc_returns_running_slot :
  exists s',
    find_ready_proc 0 one_running = Ok (Some 0) s' /\
    (state <$> slot 0 one_running) = Some PROC_STATE_RUNNING /\
    forall i p, slot i one_running = Some p -> runnable (mtime one_running) p = false.
Proof.
  eexists. split; [vm_compute; reflexivity|]. split; [reflexivity|].
  intros i p Hs.
  refine (slot_cases _ _ _ _ _ _ i p (fun _ q => runnable (mtime one_running) q = false)
            _ _ _ _ _ Hs); [reflexivity|..]; intros q Hq; inversion Hq; reflexivity.
Qed.

(** The same happens with a slot that is [AVAILABLE]: after an exit, with
    the only other process in a timed sleep, the scan returns the slot that
    was just vacated. *)
Lemma find_ready_proc_returns_available_slot :
  exists s',
    find_ready_proc 0 exited_with_sleeper = Ok (Some 0) s' /\
    (state <$> slot 0 exited_with_sleeper) = Some PROC_STATE_AVAILABLE /\
    forall i p, slot i exited_with_sleeper = Some p ->
      runnable (mtime exited_with_sleeper) p = false.
Proof.
  eexists. split; [vm_compute; reflexivity|]. split; [reflexivity|].
  intros i p Hs.
  refine (slot_cases _ _ _ _ _ _ i p (fun _ q => runnable (mtime exited_with_sleeper) q = false)
            _ _ _ _ _ Hs); [reflexivity|..]; intros q Hq; inversion Hq; reflexivity.
Qed.

(** C1, witness: with a [READY] child in slot 1 the scan from slot 0 returns
    it. *)
Lemma find_ready_proc_result_witness :
  exists j p s',
    find_ready_proc 0 two_procs = Ok (Some j) s' /\
    slot j two_procs = Some p /\ runnable (mtime two_procs) p = true /\
    slot j s' = Some (set_state PROC_STATE_READY p) /\
    curr_proc (proc_table s') = j.
Proof.
  destruct (@find_ready_proc_result demo_platform 0 two_procs) as (_ & Hfound & _).
  - reflexivity.
  - cbn. lia.
  - apply Hfound. exists 1. eexists. split; reflexivity.
Defined.

(** ** C2 *)

(** A slot with [wakeup_time == 0] is due at any time. *)
Lemma should_wake_up_zero `{Platform} i s p :
  slot i s = Some p -> wakeup_time p = 0 -> 0 <= mtime s -> should_wake_up i s = Ok 1 s.
Proof.
  intros Hp Hw Ht. rewrite (should_wake_up_eq _ _ _ Hp), Hw.
  destruct (Z.leb_spec 0 (mtime s)); [reflexivity | lia].
Qed.

(** C2, on the code: a process that is alone calls [wait]; no process
    exits, and when [proc_wait] returns that process is [RUNNING] again.
    With a second process that is [READY], the caller is [READY] when
    [proc_wait] returns. *)
Theorem proc_wait_does_not_wait :
  (exists s',
     proc_wait one_running = Ok 0 s' /\
     (state <$> slot 0 s') = Some PROC_STATE_RUNNING /\
     (wakeup_time <$> slot 0 s') = Some 0 /\
     num_procs (proc_table s') = 1) /\
  (exists s',
     proc_wait two_procs = Ok 0 s' /\
     (state <$> slot 0 s') = Some PROC_STATE_READY /\
     (state <$> slot 1 s') = Some PROC_STATE_RUNNING /\
     num_procs (proc_table s') = 2).
Proof.
  split; eexists; (split; [vm_compute; reflexivity|]); repeat split.
Qed.

(** ** C3 *)

(** C3, on the code: at time 100 the process of slot 0 calls [sleep(1000)],
    a deadline of 10000100.  When [proc_sleep] returns the scheduler has
    made it [READY], and the next run of the scheduler, at time 101, makes
    it [RUNNING].  A parent in a timed sleep until 10000100 is [RUNNING] at
    time 100, when its child has called [exit]. *)
Theorem proc_sleep_wakes_before_deadline :
  (exists s1 s2,
     proc_sleep 1000 two_procs = Ok 0 s1 /\
     (wakeup_time <$> slot 0 s1) = Some 10000100 /\
     (state <$> slot 0 s1) = Some PROC_STATE_READY /\
     schedule_user_process (advance_time 1 s1) = Ok tt s2 /\
     mtime s2 = 101 /\
     (state <$> slot 0 s2) = Some PROC_STATE_RUNNING) /\
  (exists s',
     proc_exit child_running = Ok tt s' /\
     (wakeup_time <$> slot 0 child_running) = Some 10000100 /\
     mtime s' = 100 /\
     (state <$> slot 0 s') = Some PROC_STATE_RUNNING).
Proof.
  split.
  - eexists _, _. split; [vm_compute; reflexivity|].
    split; [reflexivity|]. split; [reflexivity|].
    split; [vm_compute; reflexivity|]. split; reflexivity.
  - eexists. split; [vm_compute; reflexivity|]. repeat split.
Qed.

(** ** C4 *)

(** C4, on the code: [execv] of "hello" with an argument vector of one
    argument succeeds and leaves 7 in [a0], where [argc] is 1. *)
Theorem proc_execv_a0_is_not_argc :
  exists s' p,
    proc_execv (Some "hello"%string) demo_argv one_running = Ok 0 s' /\
    slot 0 s' = Some p /\
    get_reg REG_A0 (context p) = 7 /\
    get_reg REG_A0 (trap_frame s') = 7 /\
    argc_of_argv 16 (memory one_running) demo_argv = 1.
Proof.
  eexists _, _. split; [vm_compute; reflexivity|].
  split; [reflexivity|]. repeat split.
Qed.

(** ** C5 *)

Lemma first_available_one_running : first_available one_running 1.
Proof.
  split; [cbn; lia|]. split.
  - eexists. split; reflexivity.
  - intros j p Hj Hs. left. pose proof (slot_nonneg _ _ _ Hs). cbn. lia.
Defined.

(** C5, witness: the only process forks; its child is in slot 1 with pid 2
    and [a0 = 0]. *)
Lemma proc_fork_child_context_witness :
  exists s' child,
    proc_fork one_running = Ok (pid child) s' /\
    slot 1 s' = Some child /\
    pid child = 2 /\
    get_reg REG_A0 (context child) = 0 /\
    get_reg REG_A0 (trap_frame s') = pid child.
Proof.
  destruct (@proc_fork_child_context demo_platform one_running 1%nat 0 1
              (demo_proc 1 PROC_STATE_RUNNING None 0 0) empty_slot)
    as (s' & child & parent' & Hrun & Hc & _ & Hpid & _ & _ & _ & _ & _ & _ & _ & Ha0 & Htf & _).
  - exact demo_platform_ok.
  - reflexivity.
  - reflexivity.
  - reflexivity.
  - reflexivity.
  - reflexivity.
  - cbn. lia.
  - cbn. lia.
  - reflexivity.
  - reflexivity.
  - reflexivity.
  - reflexivity.
  - exact first_available_one_running.
  - reflexivity.
  - reflexivity.
  - exists s', child. auto.
Defined.

(** ** C6 *)

Lemma table_full_full_table : table_full full_table.
Proof.
  intros j p Hs.
  refine (slot_cases _ _ _ _ _ _ j p
            (fun j q => j = curr_proc (proc_table full_table)
                        \/ state q <> PROC_STATE_AVAILABLE) _ _ _ _ _ Hs);
    [reflexivity|..]; intros q Hq; inversion Hq; [left; reflexivity | right; discriminate ..].
Defined.

(** C6, witness: [fork] with every slot taken and two pages free. *)
Lemma proc_fork_failure_is_atomic_witness :
  exists s',
    proc_fork full_table = Ok 4294967295 s' /\
    freeram s' = freeram full_table /\
    num_procs (proc_table s') = 4.
Proof.
  destruct (@proc_fork_failure_is_atomic demo_platform full_table)
    as (s' & Hrun & Hm1 & _ & Hfree & Hnum & _).
  - exact demo_platform_ok.
  - reflexivity.
  - reflexivity.
  - intros _. eexists. split; reflexivity.
  - right. right. exact table_full_full_table.
  - exists s'. rewrite <- Hm1. auto.
Defined.

(** ** C7 *)

(** C7, counterexample: with [pid_counter] at 0 the first pid issued is 0,
    and [proc_fork] gives the pid it is issued to the child, a live process;
    and the pid issued after 4294967295 is 0 again. *)
Lemma alloc_pid_issues_zero_and_wraps :
  (exists s1, alloc_pid first_pid = Ok 0 s1) /\
  (exists s',
     proc_fork first_pid = Ok 0 s' /\
     (pid <$> slot 1 s') = Some 0 /\
     (state <$> slot 1 s') = Some PROC_STATE_READY) /\
  (exists s1 s2,
     alloc_pid last_pid = Ok 4294967295 s1 /\ alloc_pid s1 = Ok 0 s2).
Proof.
  split; [|split].
  - eexists. vm_compute. reflexivity.
  - apply wp_val. vm_compute. repeat split.
  - eexists _, _. split.
    + vm_compute. reflexivity.
    + vm_compute. reflexivity.
Qed.

(** C7, witness: the first three pids from a counter at 0. *)
Lemma alloc_pid_counts_from_zero_witness :
  exists s',
    alloc_pids 3 first_pid = Ok [0; 1; 2] s' /\
    pid_counter (proc_table s') = 3.
Proof.
  destruct (alloc_pid_counts_from_zero first_pid 3)
    as (s' & pids & Hrun & -> & Hc & _).
  - reflexivity.
  - reflexivity.
  - exists s'. split; [exact Hrun | exact Hc].
Defined.

(** ** C8 *)

(** C8, witness: a context switch from slot 0 to slot 1 changes the
    registers of the trap frame and not its [pc]. *)
Lemma copy_context_leaves_pc_witness :
  exists s',
    schedule_user_process two_procs = Ok tt s' /\
    trap_frame s' <> trap_frame two_procs /\
    pc (trap_frame s') = pc (trap_frame two_procs).
Proof.
  destruct (schedule_user_process two_procs) as [[] s'| | |] eqn:E;
    try (vm_compute in E; discriminate E).
  exists s'. split; [reflexivity|]. split.
  - vm_compute in E. inversion E. discriminate.
  - destruct (@copy_context_leaves_pc demo_platform) as (_ & _ & _ & Hsched & _).
    exact (Hsched _ _ E).
Defined.

(** ** C9 *)

(** C9, witness: with one process, [current_proc] returns its slot and the
    table lock is free afterwards. *)
Lemma current_proc_null_iff_no_procs_witness :
  exists s', current_proc one_running = Ok (Some 0) s' /\ table_lock (proc_table s') = false.
Proof.
  destruct (current_proc_null_iff_no_procs one_running)
    as (r & s' & Hrun & _ & _ & Hsome).
  - reflexivity.
  - destruct Hsome as (-> & Hl & _); [discriminate|].
    exists s'. split; [exact Hrun | exact Hl].
Defined.

(** ** C10 *)

(** C10, witness: the child of a parent in a timed sleep exits; the parent's
    slot is [READY] when the scheduler is called. *)
Lemma proc_exit_sets_parent_ready_witness :
  exists s1,
    proc_exit_reap 1 child_running = Ok tt s1 /\
    (state <$> slot 0 child_running) = Some PROC_STATE_SLEEPING /\
    (state <$> slot 0 s1) = Some PROC_STATE_READY.
Proof.
  destruct (@proc_exit_sets_parent_ready demo_platform child_running 1
              (demo_proc 2 PROC_STATE_RUNNING (Some 0) 1 0)) as [Hwake _].
  - reflexivity.
  - discriminate.
  - reflexivity.
  - reflexivity.
  - reflexivity.
  - destruct (Hwake 0 (demo_proc 1 PROC_STATE_SLEEPING None 0 10000100))
      as (s1 & Hrun & _ & Hpar & _).
    + reflexivity.
    + discriminate.
    + reflexivity.
    + reflexivity.
    + exists s1. split; [exact Hrun|]. split; [reflexivity|]. now rewrite Hpar.
Defined.

(** ** The further properties, on the concrete tables *)

Lemma demo_slot_lookup ps curr pidc n bm now i p :
  slot i (demo_state ps curr pidc n bm now) = Some p ->
  0 <= i /\ ps !! Z.to_nat i = Some p.
Proof.
  intros Hs. split; [exact (slot_nonneg _ _ _ Hs)|].
  unfold slot in Hs. destruct (i <? 0); [discriminate | exact Hs].
Defined.

Lemma demo_forall_slots (Q : process_t -> Prop) ps curr pidc n bm now :
  Forall Q ps ->
  forall i p, slot i (demo_state ps curr pidc n bm now) = Some p -> Q p.
Proof.
  intros HQ i p Hs. destruct (demo_slot_lookup _ _ _ _ _ _ _ _ Hs) as [_ Hl].
  exact (proj1 (Forall_lookup Q ps) HQ _ _ Hl).
Defined.

Lemma demo_sched_entry ps curr pidc n bm now :
  length ps = 4%nat -> Forall (fun p => lock p = false) ps -> curr < 4 ->
  sched_entry (demo_state ps curr pidc n bm now).
Proof.
  intros Hl Hfree Hc. split; [exact Hl|]. split; [reflexivity|]. split; [reflexivity|].
  split; [|exact Hc]. intros i p.
  exact (demo_forall_slots (fun p => lock p = false) _ _ _ _ _ _ Hfree i p).
Defined.

Lemma demo_pids_distinct ps curr pidc n bm now :
  (forall a b p q, ps !! a = Some p -> ps !! b = Some q -> a <> b ->
     state p <> PROC_STATE_AVAILABLE -> state q <> PROC_STATE_AVAILABLE ->
     pid p <> pid q) ->
  pids_distinct (demo_state ps curr pidc n bm now).
Proof.
  intros H i j p q Hij Hp Hq.
  destruct (demo_slot_lookup _ _ _ _ _ _ _ _ Hp) as [Hi Hp'].
  destruct (demo_slot_lookup _ _ _ _ _ _ _ _ Hq) as [Hj Hq'].
  apply (H _ _ _ _ Hp' Hq'). lia.
Defined.

(** Slots in use, of a table of four, pairwise. *)
Ltac four_slots_distinct :=
  intros a b p q Ha Hb Hab Hp Hq;
  destruct a as [|[|[|[|a]]]]; try discriminate Ha;
  destruct b as [|[|[|[|b]]]]; try discriminate Hb;
  inversion Ha; inversion Hb; subst p q;
  first [ now destruct Hab | now destruct Hp | now destruct Hq | discriminate ].

Lemma sched_entry_two_procs : sched_entry two_procs.
Proof. apply demo_sched_entry; [reflexivity | repeat constructor | reflexivity]. Defined.

Lemma pids_distinct_two_procs : pids_distinct two_procs.
Proof. apply demo_pids_distinct. four_slots_distinct. Defined.

Lemma sched_entry_one_running : sched_entry one_running.
Proof. apply demo_sched_entry; [reflexivity | repeat constructor | reflexivity]. Defined.

Lemma pids_distinct_one_running : pids_distinct one_running.
Proof. apply demo_pids_distinct. four_slots_distinct. Defined.

Lemma sched_entry_child_running : sched_entry child_running.
Proof. apply demo_sched_entry; [reflexivity | repeat constructor | reflexivity]. Defined.

Lemma sched_entry_full_table : sched_entry full_table.
Proof. apply demo_sched_entry; [reflexivity | repeat constructor | reflexivity]. Defined.

Lemma sched_entry_no_procs : sched_entry no_procs.
Proof. apply demo_sched_entry; [reflexivity | repeat constructor | reflexivity]. Defined.

Lemma sched_entry_exited_with_sleeper : sched_entry exited_with_sleeper.
Proof. apply demo_sched_entry; [reflexivity | repeat constructor | reflexivity]. Defined.

Lemma none_runnable_one_running : none_runnable one_running.
Proof.
  intros i p.
  refine (demo_forall_slots (fun p => runnable 100 p = false) _ _ _ _ _ _ _ i p).
  repeat constructor.
Defined.

(** X1, witness: with one process in slot 0, [alloc_process] takes slot
    1. *)
Lemma alloc_process_takes_first_available_witness :
  exists s',
    alloc_process one_running = Ok (Some 1) s' /\
    (state <$> slot 1 s') = Some PROC_STATE_READY /\
    (lock <$> slot 1 s') = Some true /\
    num_procs (proc_table s') = 2.
Proof.
  destruct (@alloc_process_takes_first_available demo_platform one_running 1 empty_slot)
    as (s' & Hrun & _ & Hc & _ & Hn & _).
  - reflexivity.
  - reflexivity.
  - exact first_available_one_running.
  - reflexivity.
  - reflexivity.
  - exists s'. split; [exact Hrun|]. rewrite Hc, Hn. repeat split.
Defined.

(** X2, witness: with every slot taken, [alloc_process] returns null and
    changes nothing. *)
Lemma alloc_process_null_iff_full_witness :
  alloc_process full_table = Ok None full_table.
Proof.
  destruct (@alloc_process_null_iff_full demo_platform full_table)
    as (r & s' & Hrun & Hiff & Hsame).
  - reflexivity.
  - reflexivity.
  - intros i p.
    refine (demo_forall_slots (fun p => lock p = false) _ _ _ _ _ _ _ i p).
    repeat constructor.
  - pose proof (proj2 Hiff table_full_full_table) as Hr.
    rewrite Hrun, Hr, (Hsame Hr). reflexivity.
Defined.

(** X3, witness: [execv] of a null file name. *)
Lemma proc_execv_failure_changes_nothing_witness :
  proc_execv None demo_argv one_running = Ok 4294967295 one_running.
Proof.
  destruct (@proc_execv_failure_changes_nothing demo_platform None demo_argv one_running)
    as [Hrun Hv].
  - left. reflexivity.
  - rewrite <- Hv. exact Hrun.
Defined.

(** X4, witness: [execv] before any process exists takes page 0 and keeps
    it. *)
Lemma proc_execv_without_process_keeps_page_witness :
  exists s',
    proc_execv (Some "hello"%string) demo_argv no_procs = Ok 4294967295 s' /\
    page_bitmap s' = [true; false; false; false] /\
    freeram s' = 3 /\
    table_lock (proc_table s') = true.
Proof.
  destruct (@proc_execv_without_process_keeps_page demo_platform "hello" demo_argv
              (mk_user_program "hello" 2147491840) 0%nat no_procs)
    as (s' & Hrun & Hbm & Hfree & Hl & _).
  - exact demo_platform_ok.
  - reflexivity.
  - reflexivity.
  - reflexivity.
  - reflexivity.
  - exists s'. split; [exact Hrun|]. rewrite Hbm, Hfree, Hl. repeat split.
Defined.

(** X5, witness: saving the trap frame into a context and loading it back
    gives the trap frame. *)
Lemma copy_context_save_restore_witness :
  copy_context (demo_frame 55 3000 3016 7)
    (copy_context (demo_frame 0 0 0 9) (demo_frame 55 3000 3016 7))
  = demo_frame 55 3000 3016 7.
Proof.
  destruct (copy_context_save_restore (demo_frame 55 3000 3016 7) (demo_frame 0 0 0 9))
    as (_ & _ & Hback).
  - reflexivity.
  - reflexivity.
  - exact Hback.
Defined.

(** X6, witness: the three system calls before any process exists. *)
Lemma syscalls_without_process_witness :
  exists s',
    proc_wait no_procs = Ok (-1) s' /\ proc_sleep 1000 no_procs = Ok (-1) s' /\
    proc_exit no_procs = Ok tt s' /\ table_lock (proc_table s') = true.
Proof.
  destruct (@syscalls_without_process demo_platform no_procs 1000)
    as (Hw & Hs & He & _).
  - reflexivity.
  - reflexivity.
  - eexists. split; [exact Hw|]. split; [exact Hs|]. split; [exact He | reflexivity].
Defined.

(** X7, witness: a context switch from slot 0 to slot 1 leaves the pids,
    the counters and the allocator as they are. *)
Lemma schedule_user_process_leaves_alone_witness :
  exists s',
    schedule_user_process two_procs = Ok tt s' /\
    table_lock (proc_table s') = false /\
    (pid <$> slot 0 s') = Some 1 /\ (pid <$> slot 1 s') = Some 2 /\
    num_procs (proc_table s') = 2 /\ pid_counter (proc_table s') = 3 /\
    page_bitmap s' = [true; true; false; false].
Proof.
  destruct (schedule_user_process two_procs) as [[] s'| | |] eqn:E;
    try (vm_compute in E; discriminate E).
  destruct (@schedule_user_process_leaves_alone demo_platform two_procs s' E)
    as (Hl & _ & _ & Hpc & Hn & Hbm & _).
  exists s'. split; [reflexivity|]. split; [exact Hl|].
  split; [vm_compute in E; inversion E; reflexivity|].
  split; [vm_compute in E; inversion E; reflexivity|].
  rewrite Hn, Hpc, Hbm. repeat split.
Defined.

Lemma sched_entry_sleeper_only : sched_entry sleeper_only.
Proof. apply demo_sched_entry; [reflexivity | repeat constructor | reflexivity]. Defined.

Lemma sched_entry_first_tick : sched_entry first_tick.
Proof. apply demo_sched_entry; [reflexivity | repeat constructor | reflexivity]. Defined.

Lemma none_runnable_sleeper_only : none_runnable sleeper_only.
Proof.
  intros i p.
  refine (demo_forall_slots (fun p => runnable 100 p = false) _ _ _ _ _ _ _ i p).
  repeat constructor.
Defined.

(** X8, witness: the scheduler on the empty table. *)
Lemma schedule_user_process_empty_table_witness :
  schedule_user_process no_procs = Ok tt no_procs.
Proof.
  apply (@schedule_user_process_empty_table demo_platform no_procs).
  - exact sched_entry_no_procs.
  - reflexivity.
Defined.

(** X9, witness: the only process is asleep until 10000100 and the time is
    100: the hart is parked. *)
Lemma schedule_user_process_parks_iff_witness :
  exists s',
    schedule_user_process sleeper_only = Ok tt s' /\
    is_idle (proc_table s') = true /\
    hart_log s' = [EvSetTimerAfterTick; EvEnableInterrupts; EvParkHart] /\
    procs (proc_table s') = procs (proc_table sleeper_only).
Proof.
  destruct (@schedule_user_process_parks_iff demo_platform sleeper_only)
    as (s' & Hrun & Hiff & Hpark & _).
  - exact sched_entry_sleeper_only.
  - discriminate.
  - assert (Hidle : is_idle (proc_table s') = true).
    { apply (proj2 Hiff). split; [exact none_runnable_sleeper_only|].
      eexists. split; reflexivity. }
    destruct (Hpark Hidle) as (Hprocs & _ & _ & Hlog).
    exists s'. split; [exact Hrun|]. split; [exact Hidle|].
    split; [exact Hlog | exact Hprocs].
Defined.

(** X10, witness: the running process of slot 0 and a ready one in slot 1:
    the scheduler moves to slot 1 and leaves slot 0 [READY], with the trap
    frame saved. *)
Lemma schedule_user_process_switches_context_witness :
  exists s',
    schedule_user_process two_procs = Ok tt s' /\
    curr_proc (proc_table s') = 1 /\
    (state <$> slot 0 s') = Some PROC_STATE_READY /\
    (state <$> slot 1 s') = Some PROC_STATE_RUNNING /\
    (get_reg REG_SP <$> (context <$> slot 0 s')) = Some (get_reg REG_SP (trap_frame two_procs)).
Proof.
  destruct (@schedule_user_process_switches_context demo_platform two_procs
              (demo_proc 1 PROC_STATE_RUNNING None 0 0))
    as (s' & Hrun & Hcases).
  - exact sched_entry_two_procs.
  - exact pids_distinct_two_procs.
  - discriminate.
  - split; [reflexivity|]. split; [discriminate | reflexivity].
  - assert (Hj : curr_proc (proc_table s') = 1)
      by (clear Hcases; vm_compute in Hrun; inversion Hrun; reflexivity).
    cbv zeta in Hcases. rewrite Hj in Hcases.
    destruct Hcases as [(Hjc & _) | (_ & _ & pj & Hpj & _ & Hj' & Hsaved & _)];
      [discriminate Hjc|].
    exists s'. split; [exact Hrun|]. split; [exact Hj|].
    change (curr_proc (proc_table two_procs)) with 0 in Hsaved.
    rewrite Hsaved, Hj'. repeat split.
Defined.

(** X11, witness: the first timer tick: nothing is saved, slot 0 is elected
    and the trap frame is loaded from its context. *)
Lemma schedule_user_process_saves_nothing_witness :
  exists s',
    schedule_user_process first_tick = Ok tt s' /\
    curr_proc (proc_table s') = 0 /\
    (state <$> slot 0 s') = Some PROC_STATE_RUNNING /\
    (forall i, i <> 0 -> slot i s' = slot i first_tick) /\
    get_reg REG_SP (trap_frame s') = 2148532224 + 4000.
Proof.
  destruct (@schedule_user_process_saves_nothing demo_platform first_tick)
    as (s' & Hrun & Hcases).
  - exact sched_entry_first_tick.
  - discriminate.
  - left. reflexivity.
  - assert (Hj : curr_proc (proc_table s') = 0 /\ is_idle (proc_table s') = false)
      by (clear Hcases; vm_compute in Hrun; inversion Hrun; split; reflexivity).
    destruct Hj as [Hj Hidle].
    destruct Hcases as [(Hi & _) | (_ & pj & Hcase)]; [congruence|].
    cbv zeta in Hcase. rewrite Hj in Hcase.
    destruct Hcase as (Hpj & Hj' & Hother & Htf).
    exists s'. split; [exact Hrun|]. split; [exact Hj|].
    inversion Hpj. subst pj.
    rewrite Hj', Htf. split; [reflexivity|]. split; [exact Hother | reflexivity].
Defined.

Lemma one_running_inv_two_procs : one_running_inv two_procs.
Proof.
  intros i p Hs.
  refine (slot_cases _ _ _ _ _ _ i p
            (fun i q => state q = PROC_STATE_RUNNING ->
                        i = curr_proc (proc_table two_procs)
                        /\ is_idle (proc_table two_procs) = false) _ _ _ _ _ Hs);
    [reflexivity|..]; intros q Hq; inversion Hq; intros Hst;
    first [discriminate Hst | split; reflexivity].
Defined.

(** X12, witness: after the context switch from slot 0 to slot 1 one slot
    is [RUNNING]. *)
Lemma schedule_user_process_one_running_witness :
  exists s', schedule_user_process two_procs = Ok tt s' /\ one_running_inv s'.
Proof.
  apply (@schedule_user_process_one_running demo_platform two_procs).
  - exact sched_entry_two_procs.
  - exact pids_distinct_two_procs.
  - exact one_running_inv_two_procs.
Defined.

(** X13, witness: a timer tick with one process, which is running. *)
Lemma schedule_user_process_keeps_lone_runner_witness :
  exists s',
    schedule_user_process one_running = Ok tt s' /\
    (forall i, slot i s' = slot i one_running) /\
    trap_frame s' = trap_frame one_running /\
    curr_proc (proc_table s') = 0 /\
    hart_log s' = [EvSetUserMode].
Proof.
  destruct (@schedule_user_process_keeps_lone_runner demo_platform one_running
              (demo_proc 1 PROC_STATE_RUNNING None 0 0))
    as (s' & Hrun & Hslots & Htf & Hcurr & _ & Hlog).
  - exact sched_entry_one_running.
  - discriminate.
  - reflexivity.
  - reflexivity.
  - reflexivity.
  - exact none_runnable_one_running.
  - exists s'. auto.
Defined.

(** X14, witness: the scan of the full table from slot 2 passes the
    sleeper of slot 3 and the running slot 0, and returns slot 1, which is
    [READY]. *)
Lemma find_ready_proc_round_robin_witness :
  exists s' p1,
    find_ready_proc 2 full_table = Ok (Some 1) s' /\
    slot 1 full_table = Some p1 /\ runnable (mtime full_table) p1 = true /\
    (runnable (mtime full_table) <$> slot 3 full_table) = Some false /\
    (runnable (mtime full_table) <$> slot 0 full_table) = Some false.
Proof.
  destruct (@find_ready_proc_round_robin demo_platform 2 full_table)
    as (r & s' & Hrun & Hsome & _).
  - reflexivity.
  - split; [discriminate | reflexivity].
  - assert (Hr : r = Some 1).
    { clear Hsome. vm_compute in Hrun. inversion Hrun. reflexivity. }
    subst r.
    destruct (Hsome 1 eq_refl) as (p1 & Hp1 & [(Hr1 & Hfirst) | (Hj & _)]);
      [|discriminate Hj].
    exists s', p1. split; [exact Hrun|]. split; [exact Hp1|]. split; [exact Hr1|].
    split.
    + exact (f_equal Some
               (Hfirst 3 (demo_proc 4 PROC_STATE_SLEEPING (Some 0) 3 10000100)
                  eq_refl eq_refl)).
    + exact (f_equal Some
               (Hfirst 0 (demo_proc 1 PROC_STATE_RUNNING None 0 0) eq_refl eq_refl)).
Defined.

(** X15, witness: the process of slot 0 sleeps for 1000 ms at time 100 with
    a ready process in slot 1: the deadline 10000100 is stored, and the
    caller is [READY] when the call returns. *)
Lemma proc_sleep_outcome_witness :
  exists s' p',
    proc_sleep 1000 two_procs = Ok 0 s' /\
    slot 0 s' = Some p' /\
    wakeup_time p' = 10000100 /\
    pid p' = 1 /\
    state p' = PROC_STATE_READY.
Proof.
  destruct (@proc_sleep_outcome demo_platform two_procs 1000
              (demo_proc 1 PROC_STATE_RUNNING None 0 0))
    as (s' & p' & Hrun & Hslot & Hwk & _ & _ & Hpid & _ & _ & _ & Hready).
  - exact sched_entry_two_procs.
  - exact pids_distinct_two_procs.
  - discriminate.
  - reflexivity.
  - reflexivity.
  - reflexivity.
  - reflexivity.
  - assert (Hj : curr_proc (proc_table s') = 1)
      by (clear Hslot Hready; vm_compute in Hrun; inversion Hrun; reflexivity).
    exists s', p'. split; [exact Hrun|]. split; [exact Hslot|].
    split; [rewrite Hwk; reflexivity|]. split; [exact Hpid|].
    apply Hready. rewrite Hj. discriminate.
Defined.

(** X16, witness: the only process calls [wait]: it is running again when
    the call returns. *)
Lemma proc_wait_never_blocks_witness :
  exists s' p',
    proc_wait one_running = Ok 0 s' /\
    is_idle (proc_table s') = false /\
    slot 0 s' = Some p' /\
    wakeup_time p' = 0 /\
    ((curr_proc (proc_table s') = 0 /\ state p' = PROC_STATE_RUNNING) \/
     (curr_proc (proc_table s') <> 0 /\ state p' = PROC_STATE_READY)).
Proof.
  apply (@proc_wait_never_blocks demo_platform one_running
           (demo_proc 1 PROC_STATE_RUNNING None 0 0)).
  - exact sched_entry_one_running.
  - exact pids_distinct_one_running.
  - discriminate.
  - reflexivity.
  - reflexivity.
  - reflexivity.
  - reflexivity.
  - discriminate.
Defined.

(** X17, witness: the child of slot 1 exits while its parent, in slot 0, is
    in a timed sleep: page 1 is free again, one process is left, and the
    scheduler has moved to another slot. *)
Lemma proc_exit_hands_over_witness :
  exists s',
    proc_exit child_running = Ok tt s' /\
    num_procs (proc_table s') = 1 /\
    page_bitmap s' = [true; false; false; false] /\
    (state <$> slot 1 s') = Some PROC_STATE_AVAILABLE /\
    is_idle (proc_table s') = false /\
    curr_proc (proc_table s') <> 1 /\
    hart_log s' = [EvSetUserMode].
Proof.
  destruct (@proc_exit_hands_over demo_platform child_running
              (demo_proc 2 PROC_STATE_RUNNING (Some 0) 1 0)
              (demo_proc 1 PROC_STATE_SLEEPING None 0 10000100) 0)
    as (s' & Hrun & Hn & Hbm & Hslot & _ & Hmore).
  - exact sched_entry_child_running.
  - discriminate.
  - reflexivity.
  - reflexivity.
  - discriminate.
  - reflexivity.
  - destruct Hmore as (Hidle & Hcurr & Hlog & _); [discriminate|].
    exists s'. split; [exact Hrun|]. split; [exact Hn|]. split; [exact Hbm|].
    change (curr_proc (proc_table child_running)) with 1 in Hslot, Hcurr.
    rewrite Hslot. auto.
Defined.

(** X18, witness: the only process forks: the child has pid 2, the counter
    is 3, two processes are counted and two pages are free. *)
Lemma proc_fork_bookkeeping_witness :
  exists s',
    proc_fork one_running = Ok 2 s' /\
    num_procs (proc_table s') = 2 /\
    pid_counter (proc_table s') = 3 /\
    freeram s' = 2 /\
    table_lock (proc_table s') = false.
Proof.
  destruct (@proc_fork_bookkeeping demo_platform one_running 1%nat 0 1
              (demo_proc 1 PROC_STATE_RUNNING None 0 0) empty_slot)
    as (s' & child & parent' & Hrun & Hn & Hctr & _ & Hfree & Hl & _).
  - exact demo_platform_ok.
  - reflexivity.
  - reflexivity.
  - discriminate.
  - reflexivity.
  - reflexivity.
  - reflexivity.
  - reflexivity.
  - exact first_available_one_running.
  - reflexivity.
  - reflexivity.
  - exists s'. split; [exact Hrun|]. rewrite Hn, Hctr, Hfree, Hl. repeat split.
Defined.

(** X19, witness: slot 3 of the full table sleeps until 10000100; the
    scheduler, at time 100, moves from slot 0 to slot 1 and leaves slot 3 as
    it is. *)
Lemma schedule_user_process_sleeper_witness :
  exists s',
    schedule_user_process full_table = Ok tt s' /\
    slot 3 s' = Some (demo_proc 4 PROC_STATE_SLEEPING (Some 0) 3 10000100).
Proof.
  destruct (@schedule_user_process_sleeper demo_platform full_table 3
              (demo_proc 4 PROC_STATE_SLEEPING (Some 0) 3 10000100))
    as (s' & Hrun & [Hsame | (Hi & _)]).
  - exact sched_entry_full_table.
  - reflexivity.
  - reflexivity.
  - reflexivity.
  - exists s'. split; [exact Hrun | exact Hsame].
  - discriminate Hi.
Defined.

Lemma pids_issued_one_running : pids_issued one_running.
Proof.
  intros i p.
  refine (demo_forall_slots
            (fun p => state p <> PROC_STATE_AVAILABLE -> 0 <= pid p < 2) _ _ _ _ _ _ _ i p).
  repeat constructor; try (intros H; now destruct H); discriminate.
Defined.

(** X21, witness: the only process, with pid 1, forks with the counter at
    2. *)
Lemma proc_fork_keeps_pids_distinct_witness :
  exists s',
    proc_fork one_running = Ok 2 s' /\
    pids_distinct s' /\ pids_issued s' /\
    pid_counter (proc_table s') = 3.
Proof.
  apply (@proc_fork_keeps_pids_distinct demo_platform one_running 1%nat 0 1
           (demo_proc 1 PROC_STATE_RUNNING None 0 0) empty_slot).
  - exact demo_platform_ok.
  - reflexivity.
  - reflexivity.
  - discriminate.
  - reflexivity.
  - reflexivity.
  - reflexivity.
  - reflexivity.
  - exact first_available_one_running.
  - reflexivity.
  - reflexivity.
  - exact pids_distinct_one_running.
  - exact pids_issued_one_running.
  - discriminate.
  - reflexivity.
Defined.

(** X22, witness: the scan from slot 0 of the full table stops at slot 1
    and leaves the sleeper of slot 3 alone. *)
Lemma find_ready_proc_respects_deadline_witness :
  exists r s',
    find_ready_proc 0 full_table = Ok r s' /\ r <> Some 3 /\
    slot 3 s' = Some (demo_proc 4 PROC_STATE_SLEEPING (Some 0) 3 10000100).
Proof.
  apply (@find_ready_proc_respects_deadline demo_platform 0 full_table 3).
  - reflexivity.
  - split; [discriminate | reflexivity].
  - reflexivity.
  - reflexivity.
  - reflexivity.
Defined.

(** X23, witness: the only process calls [execv] of "hello". *)
Lemma proc_execv_context_witness :
  exists s' p',
    proc_execv (Some "hello"%string) demo_argv one_running = Ok 0 s' /\
    slot 0 s' = Some p' /\
    pc (context p') = 2147491840 /\
    get_reg REG_A0 (context p') = 7 /\
    name p' = "hello"%string /\
    page_bitmap s' = [false; true; false; false].
Proof.
  destruct (@proc_execv_context demo_platform one_running "hello" demo_argv
              (mk_user_program "hello" 2147491840) 1%nat 0
              (demo_proc 1 PROC_STATE_RUNNING None 0 0))
    as (s' & p' & Hrun & Hslot & Hpc & _ & _ & _ & Ha0 & _ & Hname & _ & Hbm & _).
  - exact demo_platform_ok.
  - reflexivity.
  - reflexivity.
  - reflexivity.
  - discriminate.
  - reflexivity.
  - reflexivity.
  - reflexivity.
  - reflexivity.
  - reflexivity.
  - exists s', p'. split; [exact Hrun|]. split; [exact Hslot|].
    rewrite Hpc, Ha0, Hname, Hbm. repeat split.
Defined.
